(** * castislogger.h: the rotating file sink [cilog_backend]

    A shallow embedding of the sink backend of [src/castislogger.h] and of
    the part of its environment that its behaviour depends on: the
    [std::string] operations used by [parse_index], the fragment of the
    Boost.Regex Perl syntax in which the file-name pattern is written, the
    UTC clock and its [time_facet] formatting, a directory tree with the
    Boost.Filesystem operations the sink calls, and [boost::filesystem::ofstream].

    Besides the sink, the output operator of [severity_level], the
    formatter that [castis::logger::init] sets and the macro [CILOG] are
    embedded as functions to strings.

    Integers are [Z]; the unsigned 64-bit arithmetic of [uintmax_t] and
    [size_t] is written out with [wrap64].  Member functions of the class
    are computations in the monad [M], which threads the object and the
    directory tree and propagates C++ exceptions. *)

From stdpp Require Import gmap strings list fin_maps.
From Stdlib Require Import ZArith Ascii String Lia.

#[local] Set Warnings "-register-all".
#[local] Open Scope Z_scope.
#[local] Arguments String.append !_ _ / : simpl nomatch.

(** ** Machine integers *)

Module Word.

Definition wrap64 (z : Z) : Z := z mod 2 ^ 64.

(** [unsigned int] and [int] of the LP64 data model. *)
Definition wrap32 (z : Z) : Z := z mod 2 ^ 32.
Definition to_int (z : Z) : Z := (z + 2 ^ 31) mod 2 ^ 32 - 2 ^ 31.

Definition LONG_MAX : Z := 2 ^ 63 - 1.
Definition LONG_MIN : Z := - 2 ^ 63.
Definition clamp_long (z : Z) : Z := Z.max LONG_MIN (Z.min LONG_MAX z).

End Word.
Export Word.

(** ** [std::string] *)

Module Str.

Definition size (s : string) : Z := Z.of_nat (String.length s).

(** [std::string::npos], the largest [size_t]. *)
Definition npos : Z := 2 ^ 64 - 1.

Fixpoint find_from (c : ascii) (s : string) (i : Z) : Z :=
  match s with
  | EmptyString => npos
  | String a s' => if Ascii.eqb a c then i else find_from c s' (i + 1)
  end.

(** [s.find(c)]: position of the first [c], or [npos]. *)
Definition find (c : ascii) (s : string) : Z := find_from c s 0.

(** [s.substr(pos, n)] for [pos <= s.size()] (beyond that the library throws
    [std::out_of_range]; [parse_index] never gets there, see
    [find_lt_size]): the characters from [pos], at most [n] of them. *)
Definition substr (s : string) (pos n : Z) : string :=
  String.substring (Z.to_nat pos) (Z.to_nat (Z.min n (size s - pos))) s.

Definition isspace (c : ascii) : bool :=
  let n := N_of_ascii c in ((9 <=? n) && (n <=? 13))%N || (n =? 32)%N.

Definition isdigit (c : ascii) : bool :=
  let n := N_of_ascii c in ((48 <=? n) && (n <=? 57))%N.

Definition digit_value (c : ascii) : Z := Z.of_N (N_of_ascii c) - 48.

Fixpoint skip_spaces (s : string) : string :=
  match s with
  | String c s' => if isspace c then skip_spaces s' else s
  | EmptyString => s
  end.

(** The value of the longest prefix of decimal digits. *)
Fixpoint digits_acc (s : string) (acc : Z) : Z :=
  match s with
  | String c s' =>
      if isdigit c then digits_acc s' (acc * 10 + digit_value c) else acc
  | EmptyString => acc
  end.

(** [strtol(s, NULL, 10)]: white space, an optional sign, digits; the
    result saturates at [LONG_MIN] and [LONG_MAX]. *)
Definition strtol (s : string) : Z :=
  match skip_spaces s with
  | String "-"%char s' => clamp_long (- digits_acc s' 0)
  | String "+"%char s' => clamp_long (digits_acc s' 0)
  | s' => clamp_long (digits_acc s' 0)
  end.

(** [atoi(s)].  Outside the range of [int] the C standard leaves the
    result undefined; the model follows glibc, where [atoi] is
    [(int) strtol (s, NULL, 10)].  The theorems that rely on [atoi] keep
    the value within [int]. *)
Definition atoi (s : string) : Z := to_int (strtol s).

Definition digit_char (d : Z) : ascii := ascii_of_N (Z.to_N (48 + d)).

Fixpoint decimal_aux (fuel : nat) (n : Z) (acc : string) : string :=
  match fuel with
  | O => acc
  | S fuel' =>
      if n <? 10 then String (digit_char n) acc
      else decimal_aux fuel' (n / 10) (String (digit_char (n mod 10)) acc)
  end.

(** [ostream << n] for an [uintmax_t] in the classic locale: the decimal
    digits, of which a 64-bit value has at most twenty. *)
Definition decimal (n : Z) : string := decimal_aux 20 n EmptyString.

End Str.

(** ** The file-name pattern: a fragment of the Boost.Regex Perl syntax *)

Module Regex.

(** What one character of the subject is matched against. *)
Inductive atom :=
| Chr (c : ascii)                        (* a literal *)
| AnyChar                                (* [.] *)
| Cls (ranges : list (ascii * ascii)).  (* a bracket expression *)

Inductive item :=
| One (a : atom)
| Star (a : atom).

(** A pattern is a list of alternatives, each a sequence of items. *)
Definition branch := list item.
Definition regex := list branch.

Definition in_range (c : ascii) (r : ascii * ascii) : bool :=
  ((N_of_ascii r.1 <=? N_of_ascii c) && (N_of_ascii c <=? N_of_ascii r.2))%N.

Definition atom_ok (a : atom) (c : ascii) : bool :=
  match a with
  | Chr x => Ascii.eqb x c
  | AnyChar => true
  | Cls rs => existsb (in_range c) rs
  end.

(** Whether a sequence of items matches the whole of [s]. *)
Fixpoint match_branch (b : branch) (s : string) {struct b} : bool :=
  match b with
  | [] => match s with EmptyString => true | _ => false end
  | One a :: b' =>
      match s with
      | String c s' => atom_ok a c && match_branch b' s'
      | EmptyString => false
      end
  | Star a :: b' =>
      (fix star (s : string) : bool :=
         match_branch b' s
         || match s with
            | String c s' => atom_ok a c && star s'
            | EmptyString => false
            end) s
  end.

(** [boost::regex_match(s, pattern)]: the pattern matches all of [s]. *)
Definition regex_match (s : string) (r : regex) : bool :=
  existsb (fun b => match_branch b s) r.

(** The characters with a meaning of their own at the top level of a Perl
    pattern. *)
Definition metachar (c : ascii) : bool :=
  existsb (Ascii.eqb c)
    ["."; "["; "]"; "{"; "}"; "("; ")"; "\"; "*"; "+"; "?"; "|"; "^"; "$"]%char.

(** Parser states: at the top level, or inside a bracket expression
    (having read the ranges [rs], most recent first), after a backslash
    in it, or after the [-] that follows the lower end [lo] of a range. *)
Inductive mode :=
| Top
| InCls (rs : list (ascii * ascii))
| InClsEsc (rs : list (ascii * ascii))
| InClsDash (rs : list (ascii * ascii)) (lo : ascii).

(** [boost::regex pattern(s)] for the patterns built from: literal
    characters, [.], [|], a postfix [*] on a single character, and bracket
    expressions of characters, ranges and the escapes [\[] and [\]].  The
    items of the current alternative [cur] and the finished alternatives
    [alts] are kept most recent first.  [None]: the pattern uses more of
    the syntax than this (a group, another quantifier, an anchor, an
    escape, an empty alternative), and what Boost makes of it, which may
    be a [regex_error], is not modelled. *)
Fixpoint parse (m : mode) (s : string) (cur : branch) (alts : list branch)
  : option regex :=
  match s with
  | EmptyString =>
      match m, cur with
      | Top, _ :: _ => Some (rev (rev cur :: alts))
      | _, _ => None
      end
  | String c s' =>
      match m with
      | Top =>
          if Ascii.eqb c "|" then
            match cur with
            | [] => None
            | _ :: _ => parse Top s' [] (rev cur :: alts)
            end
          else if Ascii.eqb c "*" then
            match cur with
            | One a :: cur' => parse Top s' (Star a :: cur') alts
            | _ => None
            end
          else if Ascii.eqb c "." then parse Top s' (One AnyChar :: cur) alts
          else if Ascii.eqb c "[" then parse (InCls []) s' cur alts
          else if metachar c then None
          else parse Top s' (One (Chr c) :: cur) alts
      | InCls rs =>
          if Ascii.eqb c "]" then
            match rs with
            | [] => None
            | _ :: _ => parse Top s' (One (Cls (rev rs)) :: cur) alts
            end
          else if Ascii.eqb c "\" then parse (InClsEsc rs) s' cur alts
          else if Ascii.eqb c "-" then
            match rs with
            | (lo, hi) :: rs' =>
                if Ascii.eqb lo hi then parse (InClsDash rs' lo) s' cur alts
                else None
            | [] => None
            end
          else if Ascii.eqb c "[" || Ascii.eqb c "^" then None
          else parse (InCls ((c, c) :: rs)) s' cur alts
      | InClsEsc rs =>
          if Ascii.eqb c "[" || Ascii.eqb c "]"
          then parse (InCls ((c, c) :: rs)) s' cur alts
          else None
      | InClsDash rs lo =>
          if Ascii.eqb c "]" || Ascii.eqb c "\" || Ascii.eqb c "["
             || negb (N_of_ascii lo <=? N_of_ascii c)%N
          then None
          else parse (InCls ((lo, c) :: rs)) s' cur alts
      end
  end.

Definition compile (s : string) : option regex := parse Top s [] [].

End Regex.

(** ** The UTC clock and its formatting *)

Module Clock.

Definition is_leap (y : Z) : bool :=
  ((y mod 4 =? 0) && negb (y mod 100 =? 0)) || (y mod 400 =? 0).

Definition days_in_month (y m : Z) : Z :=
  if m =? 2 then (if is_leap y then 29 else 28)
  else if (m =? 4) || (m =? 6) || (m =? 9) || (m =? 11) then 30
  else 31.

(** The dates a [boost::gregorian::date] can hold. *)
Definition valid_date (y m d : Z) : bool :=
  (1400 <=? y) && (y <=? 9999) && (1 <=? m) && (m <=? 12)
  && (1 <=? d) && (d <=? days_in_month y m).

(** A [boost::posix_time::ptime] of second resolution: a calendar date and
    the second of the day. *)
Record ptime := {
  year : Z;
  month : Z;
  day : Z;
  second_of_day : Z;
  ptime_ok : valid_date year month day && (0 <=? second_of_day)
             && (second_of_day <? 86400) = true
}.

Definition digits2 (n : Z) : string :=
  String (Str.digit_char (n / 10 mod 10))
    (String (Str.digit_char (n mod 10)) EmptyString).

Definition digits4 (n : Z) : string := digits2 (n / 100) +:+ digits2 (n mod 100).

(** [ss << t] through a [time_facet] of the given format.  [%Y] is the
    four-digit year, [%m] and [%d] the two-digit month and day of the
    month; the sink uses no other flag, and any other character of the
    format is copied. *)
Fixpoint put_time (format : string) (t : ptime) : string :=
  match format with
  | String "%"%char (String f rest) =>
      (if Ascii.eqb f "Y" then digits4 (year t)
       else if Ascii.eqb f "m" then digits2 (month t)
       else if Ascii.eqb f "d" then digits2 (day t)
       else String "%"%char (String f EmptyString))
      +:+ put_time rest t
  | String c rest => String c (put_time rest t)
  | EmptyString => EmptyString
  end.

(** What [boost::posix_time::second_clock::universal_time()] returns at
    its two calls during one [generate_filepath]: the first through
    [datetime_string_with_format("%Y-%m-%d")], the second through
    [datetime_string_with_format("%Y-%m")]. *)
Record readings := { first_read : ptime; second_read : ptime }.

End Clock.
Export Clock.

(** ** Outcomes of a call *)

(** A path as the sequence of its elements. *)
Definition path := list string.

(** [boost::filesystem::filesystem_error], with the operation that failed. *)
Inductive exn :=
| filesystem_error (what : string) (p : path).

Inductive outcome (A : Type) :=
| Ret (a : A)       (* the call returns *)
| Throw (e : exn)   (* the call is left by an exception *)
| Unmodelled.       (* the call leaves the modelled fragment *)
Arguments Ret {A} a.
Arguments Throw {A} e.
Arguments Unmodelled {A}.

(** ** The directory tree and Boost.Filesystem *)

Module Fs.

(** A regular file with its bytes, or a directory with its entries.
    [writable] on a file: it may be opened for writing; on a directory:
    entries may be created in it; [readable]: its entries may be listed.
    Search permission is not modelled, so that finding out what a path
    names never fails. *)
Inductive node :=
| File (data : string) (writable : bool)
| Dir (readable writable : bool) (entries : gmap string node).

(** The node a path names, from the directory the paths are relative to. *)
Fixpoint lookup (p : path) (n : node) : option node :=
  match p with
  | [] => Some n
  | c :: q =>
      match n with
      | Dir _ _ es =>
          match es !! c with
          | Some m => lookup q m
          | None => None
          end
      | File _ _ => None
      end
  end.

(** Make [p] name [v], when the parent of [p] is a directory. *)
Fixpoint put (p : path) (v : node) (n : node) : node :=
  match p with
  | [] => v
  | c :: q =>
      match n with
      | Dir r w es =>
          match es !! c with
          | Some m => Dir r w (<[c := put q v m]> es)
          | None =>
              match q with
              | [] => Dir r w (<[c := v]> es)
              | _ :: _ => n
              end
          end
      | File _ _ => n
      end
  end.

(** [p.parent_path()] and [p.filename().string()]. *)
Definition parent_path (p : path) : path := removelast p.
Definition filename (p : path) : string := default EmptyString (last p).

(** [p / s] for an [s] that is a single element: no separator, not empty,
    neither [.] nor [..], no NUL.  [None] for any other [s]. *)
Definition element_ok (s : string) : bool :=
  negb (String.eqb s "") && negb (String.eqb s ".") && negb (String.eqb s "..")
  && forallb (fun c => negb (Ascii.eqb c "/") && negb (Ascii.eqb c zero))
       (list_ascii_of_string s).

Definition div (p : path) (s : string) : option path :=
  if element_ok s then Some (p ++ [s]) else None.

Definition exists_ (p : path) (fs : node) : bool :=
  match lookup p fs with Some _ => true | None => false end.

Definition is_directory (p : path) (fs : node) : bool :=
  match lookup p fs with Some (Dir _ _ _) => true | _ => false end.

(** The paths a [directory_iterator] constructed on [p] runs through, in
    the order of the iteration (which Boost leaves unspecified); the
    constructor throws when the directory cannot be opened. *)
Definition directory_entries (p : path) (fs : node) : outcome (list path) :=
  match lookup p fs with
  | Some (Dir true _ es) => Ret ((fun e => p ++ [e.1]) <$> map_to_list es)
  | _ => Throw (filesystem_error "directory_iterator::construct" p)
  end.

(** [create_directory(p)]: [false] when [p] already is a directory. *)
Definition create_directory (p : path) (fs : node) : outcome bool * node :=
  match lookup p fs with
  | Some (Dir _ _ _) => (Ret false, fs)
  | Some (File _ _) => (Throw (filesystem_error "create_directory" p), fs)
  | None =>
      match lookup (parent_path p) fs with
      | Some (Dir _ true _) => (Ret true, put p (Dir true true ∅) fs)
      | _ => (Throw (filesystem_error "create_directory" p), fs)
      end
  end.

(** The elements [rest] below the directory [pre], created in turn. *)
Fixpoint create_below (pre rest : path) (fs : node) : outcome bool * node :=
  match rest with
  | [] => (Ret false, fs)
  | c :: rest' =>
      match create_directory (pre ++ [c]) fs with
      | (Ret made, fs') =>
          match rest' with
          | [] => (Ret made, fs')
          | _ :: _ => create_below (pre ++ [c]) rest' fs'
          end
      | r => r
      end
  end.

(** [create_directories(p)], the throwing overload: every missing
    directory from the top down to [p]; a [filesystem_error] when one of
    them cannot be created. *)
Definition create_directories (p : path) (fs : node) : outcome bool * node :=
  create_below [] p fs.

(** Opening [p] for output in the mode [std::ios_base::out]: an existing
    file is truncated, a missing one is created. *)
Definition open_out (p : path) (fs : node) : option node :=
  match lookup p fs with
  | Some (File _ true) => Some (put p (File EmptyString true) fs)
  | Some (File _ false) => None
  | Some (Dir _ _ _) => None
  | None =>
      match p, lookup (parent_path p) fs with
      | _ :: _, Some (Dir _ true _) => Some (put p (File EmptyString true) fs)
      | _, _ => None
      end
  end.

(** Writing [bytes] at the end of the file that the descriptor opened at
    [p] refers to.  A [p] that no longer names a regular file stands for
    an I/O error. *)
Definition append (p : path) (bytes : string) (fs : node) : option node :=
  match lookup p fs with
  | Some (File data w) => Some (put p (File (data +:+ bytes) w) fs)
  | _ => None
  end.

Definition contents (p : path) (fs : node) : option string :=
  match lookup p fs with
  | Some (File data _) => Some data
  | _ => None
  end.

End Fs.

(** ** [boost::filesystem::ofstream] *)

Module Ofstream.

(** The open file if any, the bytes in the stream buffer that have not
    reached the file yet, and the [failbit] and [badbit] of the stream
    state ([eofbit] is never set on an output stream). *)
Record ofstream := {
  handle : option path;
  pending : string;
  failbit : bool;
  badbit : bool
}.

(** A default-constructed stream. *)
Definition closed : ofstream :=
  {| handle := None; pending := EmptyString; failbit := false; badbit := false |}.

Definition is_open (f : ofstream) : bool :=
  match handle f with Some _ => true | None => false end.

Definition good (f : ofstream) : bool := negb (failbit f) && negb (badbit f).

Definition setstate_fail (f : ofstream) : ofstream :=
  {| handle := handle f; pending := pending f; failbit := true; badbit := badbit f |}.

Definition setstate_bad (f : ofstream) : ofstream :=
  {| handle := handle f; pending := pending f; failbit := failbit f; badbit := true |}.

(** [f.clear()]: the stream state becomes [goodbit]. *)
Definition clear (f : ofstream) : ofstream :=
  {| handle := handle f; pending := pending f; failbit := false; badbit := false |}.

(** [f.open(p)] with the default mode [std::ios_base::out]. *)
Definition open (p : path) (f : ofstream) (fs : Fs.node) : ofstream * Fs.node :=
  match handle f with
  | Some _ => (setstate_fail f, fs)
  | None =>
      match Fs.open_out p fs with
      | Some fs' =>
          ({| handle := Some p; pending := EmptyString;
              failbit := false; badbit := false |}, fs')
      | None => (setstate_fail f, fs)
      end
  end.

(** [f.close()]: the buffer is written out and the file closed; [failbit]
    when no file is open or the buffer could not be written. *)
Definition close (f : ofstream) (fs : Fs.node) : ofstream * Fs.node :=
  match handle f with
  | None => (setstate_fail f, fs)
  | Some p =>
      match Fs.append p (pending f) fs with
      | Some fs' =>
          ({| handle := None; pending := EmptyString;
              failbit := failbit f; badbit := badbit f |}, fs')
      | None =>
          ({| handle := None; pending := EmptyString;
              failbit := true; badbit := badbit f |}, fs)
      end
  end.

(** [f.write(s.data(), s.size())]: into the stream buffer.  On a stream
    that is not good nothing is written and [failbit] is set; [badbit]
    when there is no open file behind the buffer. *)
Definition write (s : string) (f : ofstream) : ofstream :=
  if good f then
    match handle f with
    | Some p =>
        {| handle := Some p; pending := pending f +:+ s;
           failbit := failbit f; badbit := badbit f |}
    | None => setstate_bad f
    end
  else setstate_fail f.

(** [f.put(c)]. *)
Definition put (c : ascii) (f : ofstream) : ofstream :=
  write (String c EmptyString) f.

(** [f.flush()]: the buffer is written to the file; [badbit] when that
    fails. *)
Definition flush (f : ofstream) (fs : Fs.node) : ofstream * Fs.node :=
  if good f then
    match handle f with
    | Some p =>
        match Fs.append p (pending f) fs with
        | Some fs' =>
            ({| handle := Some p; pending := EmptyString;
                failbit := failbit f; badbit := badbit f |}, fs')
        | None => (setstate_bad f, fs)
        end
    | None => (f, fs)
    end
  else (setstate_fail f, fs).

(** [f.tellp()]: the output position, counting the buffer; [-1] on a
    stream that has failed or has no file. *)
Definition tellp (f : ofstream) (fs : Fs.node) : Z :=
  if failbit f || badbit f then -1
  else match handle f with
       | Some p =>
           match Fs.contents p fs with
           | Some data => Str.size data + Str.size (pending f)
           | None => -1
           end
       | None => -1
       end.

(** The bytes the stream has put into its file since it was opened on
    it, those still in the buffer included. *)
Definition written (f : ofstream) (fs : Fs.node) : option string :=
  match handle f with
  | Some p =>
      match Fs.contents p fs with
      | Some data => Some (data +:+ pending f)
      | None => None
      end
  | None => None
  end.

End Ofstream.

(** ** The class [cilog_backend] *)

Record cilog_backend := {
  auto_flush_ : bool;
  file_ : Ofstream.ofstream;
  target_path_ : path;
  file_path_ : path;
  file_name_suffix_ : string;
  rotation_size_ : Z;
  characters_written_ : Z
}.

(** The constructor: the stream [file_] and the path [file_path_] are
    default-constructed. *)
Definition cilog_backend_new (target_path : path) (file_name_suffix : string)
    (rotation_size : Z) (auto_flush : bool) : cilog_backend :=
  {| auto_flush_ := auto_flush;
     file_ := Ofstream.closed;
     target_path_ := target_path;
     file_path_ := [];
     file_name_suffix_ := file_name_suffix;
     rotation_size_ := rotation_size;
     characters_written_ := 0 |}.

Definition with_file (f : Ofstream.ofstream) (b : cilog_backend) : cilog_backend :=
  {| auto_flush_ := auto_flush_ b;
     file_ := f;
     target_path_ := target_path_ b;
     file_path_ := file_path_ b;
     file_name_suffix_ := file_name_suffix_ b;
     rotation_size_ := rotation_size_ b;
     characters_written_ := characters_written_ b |}.

Definition with_file_path (p : path) (b : cilog_backend) : cilog_backend :=
  {| auto_flush_ := auto_flush_ b;
     file_ := file_ b;
     target_path_ := target_path_ b;
     file_path_ := p;
     file_name_suffix_ := file_name_suffix_ b;
     rotation_size_ := rotation_size_ b;
     characters_written_ := characters_written_ b |}.

Definition with_characters_written (n : Z) (b : cilog_backend) : cilog_backend :=
  {| auto_flush_ := auto_flush_ b;
     file_ := file_ b;
     target_path_ := target_path_ b;
     file_path_ := file_path_ b;
     file_name_suffix_ := file_name_suffix_ b;
     rotation_size_ := rotation_size_ b;
     characters_written_ := n |}.

(** What a member function runs on: the object and the directory tree. *)
Record world := {
  sink : cilog_backend;
  disk : Fs.node
}.

(** A member function returning an [A]: it may change the object and the
    tree, and it returns, throws or leaves the model.  An exception keeps
    the changes made before it. *)
Definition M (A : Type) : Type := world -> outcome A * world.

#[global] Instance M_ret : MRet M := fun A a w => (Ret a, w).

#[global] Instance M_bind : MBind M := fun A B k m w =>
  match m w with
  | (Ret a, w') => k a w'
  | (Throw e, w') => (Throw e, w')
  | (Unmodelled, w') => (Unmodelled, w')
  end.

Definition this : M cilog_backend := fun w => (Ret (sink w), w).

Definition the_disk : M Fs.node := fun w => (Ret (disk w), w).

Definition update (f : cilog_backend -> cilog_backend) : M unit :=
  fun w => (Ret tt, {| sink := f (sink w); disk := disk w |}).

(** An operation of the stream [file_] that touches the file. *)
Definition on_file (op : Ofstream.ofstream -> Fs.node -> Ofstream.ofstream * Fs.node)
  : M unit :=
  fun w =>
    let (f, fs) := op (file_ (sink w)) (disk w) in
    (Ret tt, {| sink := with_file f (sink w); disk := fs |}).

(** A Boost.Filesystem operation that changes the tree. *)
Definition on_disk {A} (op : Fs.node -> outcome A * Fs.node) : M A :=
  fun w => let (r, fs) := op (disk w) in (r, {| sink := sink w; disk := fs |}).

(** A value that is there, or a step out of the model. *)
Definition modelled {A} (o : option A) : M A :=
  fun w => match o with Some a => (Ret a, w) | None => (Unmodelled, w) end.

Definition raise {A} (r : outcome A) : M A := fun w => (r, w).

(** [boost::log::record_view]: the attribute values of a record, of which
    the model keeps the time stamp. *)
Record record_view := { TimeStamp : ptime }.

(** [rotate_file()] *)
Definition rotate_file : M unit :=
  on_file Ofstream.close;;
  update (fun b => with_file (Ofstream.clear (file_ b)) b);;
  update (with_characters_written 0).

(** [datetime_string_with_format(format)], at a moment when the clock
    reads [now]. *)
Definition datetime_string_with_format (now : ptime) (format : string) : string :=
  put_time format now.

(** [parse_index(filename)] *)
Definition parse_index (filename : string) : Z :=
  let pos_index_begin := Str.find "[" filename in
  let pos_index_end := Str.find "]" filename in
  if negb (pos_index_begin =? Str.npos) && negb (pos_index_end =? Str.npos)
  then wrap32 (Str.atoi (Str.substr filename
                           (wrap64 (pos_index_begin + 1))
                           (wrap64 (pos_index_end - pos_index_begin))))
  else 0.

(** The loop of [scan_next_index] over the entries still to come. *)
Fixpoint scan_entries (pattern : Regex.regex) (entries : list path) (next_index : Z)
  : Z :=
  match entries with
  | [] => next_index
  | it :: entries' =>
      scan_entries pattern entries'
        (if Regex.regex_match (Fs.filename it) pattern then
           let index := parse_index (Fs.filename it) in
           if index >=? next_index then wrap64 (index + 1) else next_index
         else next_index)
  end.

(** [scan_next_index(path, pattern)] *)
Definition scan_next_index (p : path) (pattern : Regex.regex) : M Z :=
  fs ← the_disk;
  if Fs.exists_ p fs && Fs.is_directory p fs then
    entries ← raise (Fs.directory_entries p fs);
    mret (scan_entries pattern entries 0)
  else mret 0.

(** The name that [generate_filepath] builds in [filename_ss]. *)
Definition build_filename (filename_prefix : string) (next_index : Z)
    (file_name_suffix : string) : string :=
  filename_prefix
  +:+ (if next_index >? 0 then "[" +:+ Str.decimal next_index +:+ "]" else "")
  +:+ ("_" +:+ file_name_suffix)
  +:+ ".log".

(** [generate_filepath()] *)
Definition generate_filepath (clock : readings) : M path :=
  let filename_prefix := datetime_string_with_format (first_read clock) "%Y-%m-%d" in
  let monthly_path_name := datetime_string_with_format (second_read clock) "%Y-%m" in
  b ← this;
  monthly_path ← modelled (Fs.div (target_path_ b) monthly_path_name);
  pattern ← modelled (Regex.compile
                        (filename_prefix +:+ "[\[\]0-9]*" +:+ "_"
                         +:+ file_name_suffix_ b +:+ ".log"));
  next_index ← scan_next_index monthly_path pattern;
  modelled (Fs.div monthly_path
              (build_filename filename_prefix next_index (file_name_suffix_ b))).

(** The first half of [consume]'s second [if]: a file is opened.  [true]
    when [consume] goes on to write, [false] when it returns because the
    file could not be opened. *)
Definition open_new_file (clock : readings) : M bool :=
  p ← generate_filepath clock;
  update (with_file_path p);;
  on_disk (Fs.create_directories (Fs.parent_path p));;
  on_file (Ofstream.open p);;
  b ← this;
  if negb (Ofstream.is_open (file_ b)) then mret false
  else
    fs ← the_disk;
    update (with_characters_written (wrap64 (Ofstream.tellp (file_ b) fs)));;
    mret true.

(** [consume(rec, formatted_message)], the clock reading [clock] if it is
    read. *)
Definition consume (clock : readings) (rec : record_view)
    (formatted_message : string) : M unit :=
  b ← this;
  (if (Ofstream.is_open (file_ b)
       && (wrap64 (characters_written_ b + Str.size formatted_message)
           >=? rotation_size_ b))
      || negb (Ofstream.good (file_ b))
   then rotate_file else mret tt);;
  b ← this;
  go_on ← (if negb (Ofstream.is_open (file_ b)) then open_new_file clock
           else mret true);
  if go_on : bool then
    update (fun b => with_file (Ofstream.write formatted_message (file_ b)) b);;
    update (fun b => with_file (Ofstream.put "010"%char (file_ b)) b);;
    update (fun b => with_characters_written
                       (wrap64 (characters_written_ b
                                + wrap64 (Str.size formatted_message + 1))) b);;
    b ← this;
    if auto_flush_ b then on_file Ofstream.flush else mret tt
  else mret tt.

(** The records of a run: for each call of [consume] the clock readings,
    the record and its formatted message. *)
Definition call := (readings * record_view * string)%type.

Fixpoint consume_all (calls : list call) : M unit :=
  match calls with
  | [] => mret tt
  | (clock, rec, msg) :: calls' => consume clock rec msg;; consume_all calls'
  end.

(** ** [severity_level] and its output operator *)

Module Severity.

(** The enumerators of [enum severity_level], by their values.  A
    [severity_level] may hold a value that is no enumerator; the model
    takes a level as its integer. *)
Definition foo : Z := 0.
Definition debug : Z := 1.
Definition report : Z := 2.
Definition info : Z := 3.
Definition success : Z := 4.
Definition warning : Z := 5.
Definition error : Z := 6.
Definition fail : Z := 7.
Definition exception : Z := 8.
Definition critical : Z := 9.

(** The table [strings] of [operator<<]. *)
Definition strings : list string :=
  ["Foo"; "Debug"; "Report"; "Information"; "Success"; "Warning"; "Error";
   "Fail"; "Exception"; "Critical"].

(** [strm << n] for an [int]: a minus sign before the digits of a
    negative number. *)
Definition put_int (n : Z) : string :=
  if n <? 0 then String "-" (Str.decimal (- n)) else Str.decimal n.

(** [operator<<(strm, manip)] for the level that [manip] holds: what the
    operator puts into [strm]. *)
Definition put_level (level : Z) : string :=
  if wrap64 level <? Z.of_nat (List.length strings)
  then nth (Z.to_nat level) strings EmptyString
  else put_int (to_int level).

End Severity.

(** ** The formatter that [castis::logger::init] sets *)

(** The value of the attribute [TimeStamp]: a [ptime] with its
    microseconds. *)
Record timestamp := {
  instant : ptime;
  microsecond : Z;
  timestamp_ok : (0 <=? microsecond) && (microsecond <? 1000000) = true
}.

Definition digits6 (n : Z) : string :=
  Clock.digits2 (n / 10000) +:+ Clock.digits4 (n mod 10000).

(** [format_date_time<ptime>(name, format)] applied to the time stamp [t]:
    besides the date flags of [put_time], [%H], [%M] and [%S] are the
    two-digit hour, minute and second and [%f] the six digits of the
    microseconds.  [init] uses no other flag. *)
Fixpoint format_date_time (format : string) (t : timestamp) : string :=
  match format with
  | String "%"%char (String f rest) =>
      (if Ascii.eqb f "Y" then Clock.digits4 (year (instant t))
       else if Ascii.eqb f "m" then Clock.digits2 (month (instant t))
       else if Ascii.eqb f "d" then Clock.digits2 (day (instant t))
       else if Ascii.eqb f "H" then Clock.digits2 (second_of_day (instant t) / 3600)
       else if Ascii.eqb f "M"
            then Clock.digits2 (second_of_day (instant t) / 60 mod 60)
       else if Ascii.eqb f "S" then Clock.digits2 (second_of_day (instant t) mod 60)
       else if Ascii.eqb f "f" then digits6 (microsecond t)
       else String "%"%char (String f EmptyString))
      +:+ format_date_time rest t
  | String c rest => String c (format_date_time rest t)
  | EmptyString => EmptyString
  end.

(** A log record as the formatter sees it: the attributes [TimeStamp],
    which [add_common_attributes] adds, and [Severity], which the
    severity logger adds, and the message. *)
Record log_record := {
  record_time : timestamp;
  record_severity : Z;
  smessage : string
}.

(** The formatter of [init]: the line that the sink is given for a record. *)
Definition formatter (app_name app_version : string) (r : log_record) : string :=
  app_name
  +:+ "," +:+ app_version
  +:+ ","
  +:+ format_date_time "%Y-%m-%d,%H:%M:%S.%f" (record_time r)
  +:+ "," +:+ Severity.put_level (record_severity r)
  +:+ "," +:+ smessage r.

(** The macro [CILOG]: what it puts in front of the text of a record that
    is made at line [line] of the function [function] in the source file
    [file]. *)
Definition CILOG (file : path) (function : string) (line : Z) : string :=
  Fs.filename file
  +:+ "::" +:+ function +:+ ":" +:+ Severity.put_int line +:+ ",,".

(** ** Notions for the properties *)

(** Every character of a string satisfies [ok]. *)
Fixpoint all_chars (ok : ascii -> bool) (s : string) : bool :=
  match s with
  | EmptyString => true
  | String c s' => ok c && all_chars ok s'
  end.

Ltac digit_cases k :=
  let H := fresh in
  assert (H : k = 0 \/ k = 1 \/ k = 2 \/ k = 3 \/ k = 4 \/ k = 5 \/ k = 6
              \/ k = 7 \/ k = 8 \/ k = 9) by lia;
  repeat (destruct H as [H|H]); rewrite H.

(** The characters of a formatted date. *)
Definition date_char (c : ascii) : bool := Str.isdigit c || Ascii.eqb c "-".

(** One step of the loop: the next index after the entry named [name]. *)
Definition scan_step (pattern : Regex.regex) (name : string) (next_index : Z) : Z :=
  if Regex.regex_match name pattern then
    if parse_index name >=? next_index then wrap64 (parse_index name + 1)
    else next_index
  else next_index.

(** The indices of the entries that match, in the order of the iteration. *)
Definition matched_indices (pattern : Regex.regex) (entries : list path) : list Z :=
  parse_index <$> filter (fun name => Regex.regex_match name pattern = true)
                    (Fs.filename <$> entries).

(** One more than the largest of [indices], and [0] when there is none:
    what the specification calls the next index. *)
Definition next_free (indices : list Z) : Z :=
  match indices with
  | [] => 0
  | i :: rest => foldr Z.max i rest + 1
  end.

(** A character that stands for one item of a pattern: a literal or [.]. *)
Definition plain_char (c : ascii) : bool :=
  negb (Regex.metachar c) || Ascii.eqb c ".".

(** A suffix in which no character but [.] is special in a pattern. *)
Definition plain_suffix (suffix : string) : bool := all_chars plain_char suffix.

Definition item_of_char (c : ascii) : Regex.item :=
  if Ascii.eqb c "." then Regex.One Regex.AnyChar else Regex.One (Regex.Chr c).

Fixpoint lit_items (s : string) : Regex.branch :=
  match s with
  | EmptyString => []
  | String c s' => item_of_char c :: lit_items s'
  end.

(** The bracket expression of the pattern. *)
Definition index_class : Regex.atom :=
  Regex.Cls [("[", "["); ("]", "]"); ("0", "9")]%char.

(** The pattern that [generate_filepath] compiles, for a suffix without
    special characters. *)
Definition filename_pattern (prefix suffix : string) : Regex.branch :=
  lit_items prefix
  ++ [Regex.Star index_class; Regex.One (Regex.Chr "_")]
  ++ lit_items suffix
  ++ [Regex.One Regex.AnyChar; Regex.One (Regex.Chr "l");
      Regex.One (Regex.Chr "o"); Regex.One (Regex.Chr "g")].

(** A node without anything below it. *)
Definition childless (v : Fs.node) : Prop :=
  match v with
  | Fs.File _ _ => True
  | Fs.Dir _ _ es => es = ∅
  end.

(** The directory of the month of the second clock reading. *)
Definition monthly_path (b : cilog_backend) (clock : readings) : path :=
  target_path_ b ++ [datetime_string_with_format (second_read clock) "%Y-%m"].

(** Every index that can be read from the name of an entry of [dir] is
    below [INT_MAX], so that the next one still is an [int]. *)
Definition index_headroom (dir : path) (fs : Fs.node) : bool :=
  match Fs.lookup dir fs with
  | Some (Fs.Dir _ _ es) =>
      forallb (fun e => parse_index e.1 <? 2 ^ 31 - 1) (map_to_list es)
  | _ => true
  end.

(** The condition of the first [if] of [consume]. *)
Definition must_rotate (formatted_message : string) (b : cilog_backend) : bool :=
  (Ofstream.is_open (file_ b)
   && (wrap64 (characters_written_ b + Str.size formatted_message)
       >=? rotation_size_ b))
  || negb (Ofstream.good (file_ b)).

(** The world after [rotate_file()]. *)
Definition rotated (w : world) : world :=
  let (f, fs) := Ofstream.close (file_ (sink w)) (disk w) in
  {| sink := with_characters_written 0 (with_file (Ofstream.clear f) (sink w));
     disk := fs |}.

(** The world after the first [if] of [consume]. *)
Definition checked (formatted_message : string) (w : world) : world :=
  if must_rotate formatted_message (sink w) then rotated w else w.

(** The world after the last statements of [consume], from the [write] on. *)
Definition recorded (formatted_message : string) (w : world) : world :=
  let f := Ofstream.put "010"%char
             (Ofstream.write formatted_message (file_ (sink w))) in
  let n := wrap64 (characters_written_ (sink w)
                   + wrap64 (Str.size formatted_message + 1)) in
  let b := with_characters_written n (with_file f (sink w)) in
  if auto_flush_ (sink w) then
    let (f', fs) := Ofstream.flush f (disk w) in
    {| sink := with_file f' b; disk := fs |}
  else {| sink := b; disk := disk w |}.

(** The configuration of a sink: what the constructor was given. *)
Definition same_config (b b' : cilog_backend) : Prop :=
  auto_flush_ b' = auto_flush_ b
  /\ target_path_ b' = target_path_ b
  /\ file_name_suffix_ b' = file_name_suffix_ b
  /\ rotation_size_ b' = rotation_size_ b.

(** The call opens a file: none is open, or the open one is rotated away. *)
Definition opens_new_file (formatted_message : string) (w : world) : bool :=
  negb (Ofstream.is_open (file_ (sink w))) || must_rotate formatted_message (sink w).

(** The entries of a directory that can be listed, none otherwise. *)
Definition directory_listing (dir : path) (fs : Fs.node) : list path :=
  match Fs.directory_entries dir fs with
  | Ret entries => entries
  | _ => []
  end.

(** Every item stands for exactly one character. *)
Definition single_items (b : Regex.branch) : Prop :=
  Forall (fun i => match i with Regex.One _ => True | Regex.Star _ => False end) b.

(** The world that a call leaves, as the next call finds it after the
    directory tree has become [fs]. *)
Definition later (w : world) (fs : Fs.node) : world :=
  {| sink := sink w; disk := fs |}.

(** The calendar day and the month of a clock reading. *)
Definition date_of (t : ptime) : Z * Z * Z := (year t, month t, day t).
Definition month_of (t : ptime) : Z * Z := (year t, month t).

(** The records [msgs] as they stand in a file: each followed by a line
    feed. *)
Definition lines (msgs : list string) : string :=
  foldr (fun m acc => m +:+ String "010" acc) "" msgs.

(** The number of bytes of [lines msgs]. *)
Definition bytes (msgs : list string) : Z :=
  foldr (fun m acc => Str.size m + 1 + acc) 0 msgs.


Definition messages (calls : list call) : list string := snd <$> calls.

(** A character without a meaning of its own in a pattern. *)
Definition literal_char (c : ascii) : bool := negb (Regex.metachar c).

(** A suffix that a pattern takes letter by letter. *)
Definition literal_suffix (suffix : string) : bool := all_chars literal_char suffix.

(** The counter agrees with the stream: an open stream is good, it writes
    to [file_path_], and [characters_written_] is the number of bytes it
    has put there, as a [uintmax_t]. *)
Definition counter_exact (w : world) : Prop :=
  match Ofstream.handle (file_ (sink w)) with
  | Some p =>
      file_path_ (sink w) = p
      /\ Ofstream.good (file_ (sink w)) = true
      /\ exists data,
           Ofstream.written (file_ (sink w)) (disk w) = Some data
           /\ characters_written_ (sink w) = wrap64 (Str.size data)
  | None => True
  end.

(** The open file is within the rotation size, or it holds a single
    record, one of those that satisfy [sent]. *)
Definition size_kept (sent : string -> Prop) (w : world) : Prop :=
  match Ofstream.handle (file_ (sink w)) with
  | Some p =>
      Ofstream.good (file_ (sink w)) = true
      /\ exists data,
           Ofstream.written (file_ (sink w)) (disk w) = Some data
           /\ characters_written_ (sink w) = Str.size data
           /\ (Str.size data <= rotation_size_ (sink w)
               \/ exists m, sent m /\ data = m +:+ String "010" "")
  | None => True
  end.

(** A character that may stand in an element of a path. *)
Definition element_char (c : ascii) : bool :=
  negb (Ascii.eqb c "/") && negb (Ascii.eqb c zero).

(** A text without a comma: one field of a line. *)
Definition no_comma (s : string) : bool :=
  all_chars (fun c => negb (Ascii.eqb c ",")) s.

(** The time of day of a time stamp, in the format that [init] gives. *)
Definition clock_text (t : timestamp) : string := format_date_time "%H:%M:%S.%f" t.

(** ** Worlds to run the sink in *)

Module Example.

Definition at_time (y m d s : Z)
    (ok : valid_date y m d && (0 <=? s) && (s <? 86400) = true) : ptime :=
  {| year := y; month := m; day := d; second_of_day := s; ptime_ok := ok |}.

(** 2024-01-01 00:01:40, 2024-01-31 23:59:59 and 2024-02-01 00:00:01. *)
Definition jan1 : ptime := at_time 2024 1 1 100 eq_refl.
Definition jan31 : ptime := at_time 2024 1 31 86399 eq_refl.
Definition feb1 : ptime := at_time 2024 2 1 1 eq_refl.

(** Both readings of the clock at the same moment. *)
Definition at_ (t : ptime) : readings := {| first_read := t; second_read := t |}.

Definition stamped (t : ptime) : record_view := {| TimeStamp := t |}.

Definition dir (entries : list (string * Fs.node)) : Fs.node :=
  Fs.Dir true true (list_to_map entries).

Definition file (data : string) : Fs.node := Fs.File data true.

(** An empty, writable directory [var/log]. *)
Definition empty_log : Fs.node := dir [("var", dir [("log", dir [])])].

(** [var/log/2024-01] with the given entries. *)
Definition january (entries : list (string * Fs.node)) : Fs.node :=
  dir [("var", dir [("log", dir [("2024-01", dir entries)])])].

Definition target : path := ["var"; "log"].

(** A sink for [var/log] with suffix [svc], rotating at 50 bytes and
    flushing every record, before its first record. *)
Definition svc : cilog_backend := cilog_backend_new target "svc" 50 true.

Definition fresh (b : cilog_backend) (fs : Fs.node) : world :=
  {| sink := b; disk := fs |}.

(** The world after a call. *)
Definition after {A} (m : M A) (w : world) : world := (m w).2.

(** The sink [svc] after its first record, [AAAA], on 2024-01-01. *)
Definition svc_open : world :=
  after (consume (at_ jan1) (stamped jan1) "AAAA") (fresh svc empty_log).

(** A sink with suffix [app] in a directory that holds the first two files
    of 2024-01-01. *)
Definition two_app_files : world :=
  fresh (cilog_backend_new target "app" 50 true)
    (january [("2024-01-01_app.log", file "");
                      ("2024-01-01[1]_app.log", file "")]).

(** A monthly directory in which no file can be created. *)
Definition read_only_january : Fs.node :=
  dir [("var", dir [("log",
     dir [("2024-01", Fs.Dir true false ∅)])])].

End Example.

(** * Properties *)

(** ** Strings *)

Section StringFacts.

Implicit Types s t u : string.

Lemma append_nil_r s : s +:+ "" = s.
Proof. induction s as [|c s IH]; simpl; [reflexivity | now rewrite IH]. Qed.

Lemma append_assoc s t u : (s +:+ t) +:+ u = s +:+ (t +:+ u).
Proof. induction s as [|c s IH]; simpl; [reflexivity | now rewrite IH]. Qed.

Lemma size_app s t : Str.size (s +:+ t) = Str.size s + Str.size t.
Proof.
  unfold Str.size. induction s as [|c s IH]; simpl String.length; [lia|].
  simpl in IH. lia.
Qed.

Lemma size_nonneg s : 0 <= Str.size s.
Proof. unfold Str.size. lia. Qed.

Lemma size_cons c s : Str.size (String c s) = 1 + Str.size s.
Proof. unfold Str.size. simpl String.length. lia. Qed.

Lemma app_inv_size s s' t t' :
  Str.size s = Str.size s' -> s +:+ t = s' +:+ t' -> s = s' /\ t = t'.
Proof.
  revert s'. induction s as [|c s IH]; intros [|c' s'] Hlen Heq.
  - simpl in Heq. auto.
  - rewrite size_cons in Hlen. pose proof (size_nonneg s').
    change (Str.size "") with 0 in Hlen. lia.
  - rewrite size_cons in Hlen. pose proof (size_nonneg s).
    change (Str.size "") with 0 in Hlen. lia.
  - rewrite !size_cons in Hlen. simpl in Heq. injection Heq as -> Heq.
    destruct (IH s') as [-> ->]; [lia | assumption | auto].
Qed.

End StringFacts.

Lemma all_chars_app ok s t :
  all_chars ok (s +:+ t) = all_chars ok s && all_chars ok t.
Proof.
  induction s as [|c s IH]; simpl; [reflexivity|].
  rewrite IH. now rewrite andb_assoc.
Qed.

Lemma all_chars_impl (ok ok' : ascii -> bool) s :
  (forall c, ok c = true -> ok' c = true) ->
  all_chars ok s = true -> all_chars ok' s = true.
Proof.
  intros Himp. induction s as [|c s IH]; simpl; [reflexivity|].
  intros [Hc Hs]%andb_prop. rewrite (Himp c Hc). simpl. auto.
Qed.

Section FindFacts.

Variable c : ascii.

Lemma find_from_skip s t i :
  all_chars (fun a => negb (Ascii.eqb a c)) s = true ->
  Str.find_from c (s +:+ t) i = Str.find_from c t (i + Str.size s).
Proof.
  revert i. induction s as [|a s IH]; intros i; simpl.
  - intros _. f_equal. unfold Str.size. simpl. lia.
  - intros [Ha Hs]%andb_prop. apply negb_true_iff in Ha. rewrite Ha.
    rewrite IH by assumption. f_equal. rewrite size_cons. lia.
Qed.

Lemma find_from_here s i : Str.find_from c (String c s) i = i.
Proof. simpl. now rewrite Ascii.eqb_refl. Qed.

(** A position that [find] returns lies within the string. *)
Lemma find_from_range s i :
  Str.find_from c s i = Str.npos \/
  (i <= Str.find_from c s i < i + Str.size s).
Proof.
  revert i. induction s as [|a s IH]; intros i; simpl; [now left|].
  rewrite size_cons. pose proof (size_nonneg s).
  destruct (Ascii.eqb a c); [right; lia|].
  destruct (IH (i + 1)) as [->|?]; [now left | right; lia].
Qed.

Lemma find_lt_size s :
  Str.find c s <> Str.npos -> 0 <= Str.find c s < Str.size s.
Proof.
  unfold Str.find. intros Hne.
  destruct (find_from_range s 0) as [?|?]; [contradiction | lia].
Qed.

End FindFacts.

Lemma substring_skip s t n :
  String.substring (String.length s) n (s +:+ t) = String.substring 0 n t.
Proof. induction s as [|c s IH]; simpl; [reflexivity | exact IH]. Qed.

Lemma substring_take s t :
  String.substring 0 (String.length s) (s +:+ t) = s.
Proof.
  induction s as [|c s IH]; simpl; [now destruct t | now rewrite IH].
Qed.

(** The middle of three strings, by position and length. *)
Lemma substr_middle s t u :
  Str.substr (s +:+ t +:+ u) (Str.size s) (Str.size t) = t.
Proof.
  unfold Str.substr. rewrite !size_app.
  replace (Z.min (Str.size t) (Str.size s + (Str.size t + Str.size u) - Str.size s))
    with (Str.size t) by (pose proof (size_nonneg u); lia).
  unfold Str.size. rewrite !Nat2Z.id.
  rewrite substring_skip. apply substring_take.
Qed.

(** ** Decimal numerals *)

Lemma isdigit_digit_char k : 0 <= k < 10 -> Str.isdigit (Str.digit_char k) = true.
Proof. intros Hk. digit_cases k; reflexivity. Qed.

Lemma digit_value_digit_char k :
  0 <= k < 10 -> Str.digit_value (Str.digit_char k) = k.
Proof. intros Hk. digit_cases k; reflexivity. Qed.

Lemma digit_char_inj k k' :
  0 <= k < 10 -> 0 <= k' < 10 -> Str.digit_char k = Str.digit_char k' -> k = k'.
Proof.
  intros Hk Hk' Heq.
  rewrite <- (digit_value_digit_char k), <- (digit_value_digit_char k') by assumption.
  now rewrite Heq.
Qed.

Lemma decimal_aux_acc fuel n acc :
  Str.decimal_aux fuel n acc = Str.decimal_aux fuel n "" +:+ acc.
Proof.
  revert n acc. induction fuel as [|fuel IH]; intros n acc; simpl; [reflexivity|].
  destruct (n <? 10); [reflexivity|].
  rewrite (IH _ (String _ acc)), (IH _ (String _ "")).
  now rewrite append_assoc.
Qed.

Lemma decimal_aux_digits fuel n acc :
  0 <= n -> all_chars Str.isdigit acc = true ->
  all_chars Str.isdigit (Str.decimal_aux fuel n acc) = true.
Proof.
  revert n acc. induction fuel as [|fuel IH]; intros n acc Hn Hacc; simpl; [assumption|].
  destruct (Z.ltb_spec n 10) as [Hlt|Hge]; simpl.
  - rewrite isdigit_digit_char by lia. assumption.
  - apply IH; [apply Z.div_pos; lia|].
    simpl. rewrite isdigit_digit_char; [assumption|].
    apply Z.mod_pos_bound. lia.
Qed.

Lemma decimal_digits n : 0 <= n -> all_chars Str.isdigit (Str.decimal n) = true.
Proof. intros Hn. now apply decimal_aux_digits. Qed.

(** A numeral begins with a digit. *)
Lemma decimal_aux_head fuel n acc :
  0 <= n ->
  exists d s, Str.decimal_aux (S fuel) n acc = String d s /\ Str.isdigit d = true.
Proof.
  revert n acc. induction fuel as [|fuel IH]; intros n acc Hn.
  - simpl. destruct (Z.ltb_spec n 10).
    + eexists _, _. split; [reflexivity|]. apply isdigit_digit_char. lia.
    + eexists _, _. split; [reflexivity|]. apply isdigit_digit_char.
      apply Z.mod_pos_bound. lia.
  - change (Str.decimal_aux (S (S fuel)) n acc)
      with (if n <? 10 then String (Str.digit_char n) acc
            else Str.decimal_aux (S fuel) (n / 10)
                   (String (Str.digit_char (n mod 10)) acc)).
    destruct (Z.ltb_spec n 10).
    + eexists _, _. split; [reflexivity|]. apply isdigit_digit_char. lia.
    + apply IH. apply Z.div_pos; lia.
Qed.

(** Reading back the digits that were printed. *)
Lemma digits_acc_decimal_aux fuel n rest :
  0 <= n < 10 ^ Z.of_nat fuel ->
  Str.digits_acc (Str.decimal_aux fuel n "" +:+ rest) 0 = Str.digits_acc rest n.
Proof.
  revert n rest. induction fuel as [|fuel IH]; intros n rest Hn.
  - simpl in *. f_equal. lia.
  - simpl Str.decimal_aux. destruct (Z.ltb_spec n 10) as [Hlt|Hge].
    + simpl. rewrite isdigit_digit_char, digit_value_digit_char by lia.
      f_equal.
    + rewrite decimal_aux_acc, append_assoc.
      rewrite IH.
      * simpl. pose proof (Z.mod_pos_bound n 10 ltac:(lia)) as Hm.
        rewrite isdigit_digit_char, digit_value_digit_char by lia.
        f_equal. pose proof (Z.div_mod n 10 ltac:(lia)). lia.
      * rewrite Nat2Z.inj_succ, Z.pow_succ_r in Hn by lia.
        split; [apply Z.div_pos; lia|].
        apply Z.div_lt_upper_bound; lia.
Qed.

Lemma isdigit_not_space d : Str.isdigit d = true -> Str.isspace d = false.
Proof.
  unfold Str.isdigit, Str.isspace. intros H.
  apply andb_prop in H as [H1 H2].
  apply N.leb_le in H1. apply N.leb_le in H2.
  apply orb_false_iff. split.
  - apply andb_false_iff. right. apply N.leb_gt. lia.
  - apply N.eqb_neq. lia.
Qed.

Lemma isdigit_not_sign d :
  Str.isdigit d = true -> d <> "-"%char /\ d <> "+"%char.
Proof. intros H. split; intros ->; discriminate H. Qed.

Lemma strtol_digit_head d s :
  Str.isdigit d = true ->
  Str.strtol (String d s) = clamp_long (Str.digits_acc (String d s) 0).
Proof.
  intros Hd. unfold Str.strtol.
  change (Str.skip_spaces (String d s))
    with (if Str.isspace d then Str.skip_spaces s else String d s).
  rewrite (isdigit_not_space d Hd).
  destruct (isdigit_not_sign d Hd) as [Hm Hp].
  destruct d as [[] [] [] [] [] [] [] []]; try reflexivity; congruence.
Qed.

(** [atoi] reads a printed index back, up to the first character that is
    not a digit. *)
Lemma atoi_decimal n c rest :
  0 <= n <= 2 ^ 31 - 1 -> Str.isdigit c = false ->
  Str.atoi (Str.decimal n +:+ String c rest) = n.
Proof.
  intros Hn Hc. unfold Str.atoi, Str.decimal.
  destruct (decimal_aux_head 19 n "" ltac:(lia)) as (d & s & Heq & Hd).
  assert (Hval : Str.digits_acc (Str.decimal_aux 20 n "" +:+ String c rest) 0 = n).
  { rewrite digits_acc_decimal_aux by (change (10 ^ Z.of_nat 20) with (10 ^ 20); lia).
    simpl. now rewrite Hc. }
  rewrite Heq in *. simpl String.append in *.
  rewrite strtol_digit_head by assumption. rewrite Hval.
  unfold clamp_long, LONG_MAX, LONG_MIN, to_int.
  rewrite Z.min_r, Z.max_r by lia.
  rewrite Z.mod_small by lia. lia.
Qed.

Lemma size_decimal_aux fuel n acc :
  Str.size (Str.decimal_aux fuel n acc) <= Z.of_nat fuel + Str.size acc.
Proof.
  revert n acc. induction fuel as [|fuel IH]; intros n acc.
  - simpl. lia.
  - simpl Str.decimal_aux. destruct (n <? 10).
    + rewrite size_cons. lia.
    + specialize (IH (n / 10) (String (Str.digit_char (n mod 10)) acc)).
      rewrite size_cons in IH. lia.
Qed.

Lemma size_decimal n : 0 <= Str.size (Str.decimal n) <= 20.
Proof.
  split; [apply size_nonneg|].
  pose proof (size_decimal_aux 20 n "") as H. change (Str.size "") with 0 in H.
  unfold Str.decimal. lia.
Qed.

(** ** Dates as text *)

Lemma digits2_digits n : all_chars Str.isdigit (Clock.digits2 n) = true.
Proof.
  unfold Clock.digits2. simpl.
  rewrite !isdigit_digit_char; [reflexivity | |]; apply Z.mod_pos_bound; lia.
Qed.

Lemma digits4_digits n : all_chars Str.isdigit (Clock.digits4 n) = true.
Proof.
  unfold Clock.digits4. now rewrite all_chars_app, !digits2_digits.
Qed.

Lemma day_format t :
  datetime_string_with_format t "%Y-%m-%d" =
    Clock.digits4 (year t) +:+ "-" +:+ Clock.digits2 (month t) +:+ "-"
    +:+ Clock.digits2 (day t).
Proof.
  unfold datetime_string_with_format. simpl. rewrite ?append_nil_r. reflexivity.
Qed.

Lemma month_format t :
  datetime_string_with_format t "%Y-%m" =
    Clock.digits4 (year t) +:+ "-" +:+ Clock.digits2 (month t).
Proof.
  unfold datetime_string_with_format. simpl. rewrite ?append_nil_r. reflexivity.
Qed.

Lemma isdigit_date_char c : Str.isdigit c = true -> date_char c = true.
Proof. unfold date_char. now intros ->. Qed.

Lemma day_format_chars t :
  all_chars date_char (datetime_string_with_format t "%Y-%m-%d") = true.
Proof.
  rewrite day_format. rewrite !all_chars_app.
  rewrite !(all_chars_impl _ _ _ isdigit_date_char (digits2_digits _)).
  rewrite (all_chars_impl _ _ _ isdigit_date_char (digits4_digits _)).
  reflexivity.
Qed.

Lemma day_format_size t : Str.size (datetime_string_with_format t "%Y-%m-%d") = 10.
Proof. rewrite day_format. reflexivity. Qed.

Lemma date_char_cases c :
  date_char c = true ->
  Ascii.eqb c "[" = false /\ Ascii.eqb c "]" = false /\ Ascii.eqb c "/" = false
  /\ Ascii.eqb c zero = false /\ Regex.metachar c = false
  /\ Ascii.eqb c "." = false /\ Ascii.eqb c "_" = false.
Proof.
  unfold date_char, Str.isdigit. intros H.
  destruct c as [[] [] [] [] [] [] [] []]; try discriminate H; repeat split; reflexivity.
Qed.

(** ** [parse_index] *)

Lemma parse_index_range name : 0 <= parse_index name < 2 ^ 32.
Proof.
  unfold parse_index, wrap32.
  destruct (_ && _); [apply Z.mod_pos_bound|]; lia.
Qed.

Lemma no_bracket_chars (ok : ascii -> bool) (c : ascii) s :
  (forall a, ok a = true -> Ascii.eqb a c = false) ->
  all_chars ok s = true ->
  all_chars (fun a => negb (Ascii.eqb a c)) s = true.
Proof.
  intros Hok. apply all_chars_impl. intros a Ha. now rewrite (Hok a Ha).
Qed.

Lemma isdigit_not_bracket c :
  Str.isdigit c = true -> Ascii.eqb c "[" = false /\ Ascii.eqb c "]" = false.
Proof.
  intros H. pose proof (date_char_cases c (isdigit_date_char c H)). tauto.
Qed.

(** The index that [generate_filepath] writes into a name is the one that
    [parse_index] reads from it. *)
Lemma parse_index_build prefix n suffix :
  all_chars date_char prefix = true -> Str.size prefix < 2 ^ 32 ->
  1 <= n <= 2 ^ 31 - 1 ->
  parse_index (build_filename prefix n suffix) = n.
Proof.
  intros Hpre Hsize Hn.
  assert (Hopen : all_chars (fun a => negb (Ascii.eqb a "[")) prefix = true).
  { apply (no_bracket_chars date_char); [|assumption].
    intros a Ha. now destruct (date_char_cases a Ha) as (? & ? & _). }
  assert (Hclose : all_chars (fun a => negb (Ascii.eqb a "]")) prefix = true).
  { apply (no_bracket_chars date_char); [|assumption].
    intros a Ha. now destruct (date_char_cases a Ha) as (? & ? & _). }
  assert (Hdec : all_chars (fun a => negb (Ascii.eqb a "]")) (Str.decimal n) = true).
  { apply (no_bracket_chars Str.isdigit); [|apply decimal_digits; lia].
    intros a Ha. now destruct (isdigit_not_bracket a Ha). }
  pose proof (size_nonneg prefix) as Hp0.
  pose proof (size_decimal n) as Hd.
  unfold build_filename.
  destruct (Z.gtb_spec n 0) as [_|?]; [|lia].
  set (tail := ("_" +:+ suffix) +:+ ".log").
  replace (prefix +:+ ("[" +:+ Str.decimal n +:+ "]") +:+ tail)
    with (prefix +:+ String "[" (Str.decimal n +:+ String "]" tail))
    by (simpl; now rewrite append_assoc).
  unfold parse_index.
  assert (Hb : Str.find "[" (prefix +:+ String "[" (Str.decimal n +:+ String "]" tail))
               = Str.size prefix).
  { unfold Str.find. rewrite find_from_skip by assumption.
    rewrite find_from_here. lia. }
  assert (He : Str.find "]" (prefix +:+ String "[" (Str.decimal n +:+ String "]" tail))
               = Str.size prefix + 1 + Str.size (Str.decimal n)).
  { unfold Str.find. rewrite find_from_skip by assumption.
    simpl. rewrite find_from_skip by assumption.
    rewrite find_from_here. lia. }
  rewrite Hb, He.
  replace (Str.size prefix =? Str.npos) with false
    by (symmetry; apply Z.eqb_neq; unfold Str.npos; lia).
  replace (Str.size prefix + 1 + Str.size (Str.decimal n) =? Str.npos) with false
    by (symmetry; apply Z.eqb_neq; unfold Str.npos; lia).
  simpl negb. simpl andb. cbv iota.
  unfold wrap64. rewrite !Z.mod_small by lia.
  replace (prefix +:+ String "[" (Str.decimal n +:+ String "]" tail))
    with ((prefix +:+ "[") +:+ (Str.decimal n +:+ "]") +:+ tail)
    by (rewrite !append_assoc; reflexivity).
  replace (Str.size prefix + 1 + Str.size (Str.decimal n) - Str.size prefix)
    with (Str.size (Str.decimal n +:+ "]"))
    by (rewrite size_app; change (Str.size "]") with 1; lia).
  replace (Str.size prefix + 1) with (Str.size (prefix +:+ "["))
    by (rewrite size_app; reflexivity).
  rewrite substr_middle.
  rewrite atoi_decimal by (try reflexivity; lia).
  unfold wrap32. apply Z.mod_small. lia.
Qed.

(** ** The scan for the next index *)

Lemma scan_entries_cons pattern it entries next_index :
  scan_entries pattern (it :: entries) next_index =
    scan_entries pattern entries (scan_step pattern (Fs.filename it) next_index).
Proof. reflexivity. Qed.

Lemma scan_step_max pattern name next_index :
  scan_step pattern name next_index =
    if Regex.regex_match name pattern
    then Z.max next_index (parse_index name + 1)
    else next_index.
Proof.
  unfold scan_step. destruct (Regex.regex_match name pattern); [|reflexivity].
  pose proof (parse_index_range name) as Hr.
  unfold wrap64. rewrite Z.mod_small by lia.
  destruct (Z.geb_spec (parse_index name) next_index); lia.
Qed.

Lemma scan_entries_max pattern entries next_index :
  scan_entries pattern entries next_index =
    foldr (fun i acc => Z.max acc (i + 1)) next_index
      (matched_indices pattern entries).
Proof.
  revert next_index. induction entries as [|it entries IH]; intros next_index.
  - reflexivity.
  - rewrite scan_entries_cons, IH, scan_step_max.
    unfold matched_indices. rewrite fmap_cons, filter_cons.
    destruct (Regex.regex_match (Fs.filename it) pattern) eqn:Hm.
    + rewrite decide_True by reflexivity. rewrite fmap_cons. simpl foldr.
      generalize (parse_index <$> filter (fun name => Regex.regex_match name pattern = true)
                    (Fs.filename <$> entries)).
      intros l. revert next_index. induction l as [|j l IHl]; intros next_index; simpl.
      * reflexivity.
      * rewrite IHl. lia.
    + rewrite decide_False by congruence. reflexivity.
Qed.

Lemma foldr_max_next i rest :
  0 <= i ->
  foldr (fun i acc => Z.max acc (i + 1)) 0 (i :: rest) = next_free (i :: rest).
Proof.
  intros Hi. simpl. induction rest as [|j rest IH]; simpl; lia.
Qed.

(** ** The pattern of [generate_filepath] *)

Lemma parse_plain_char c s cur alts :
  plain_char c = true ->
  Regex.parse Regex.Top (String c s) cur alts =
    Regex.parse Regex.Top s (item_of_char c :: cur) alts.
Proof.
  intros Hc.
  destruct c as [[] [] [] [] [] [] [] []]; try discriminate Hc; reflexivity.
Qed.

Lemma parse_plain s rest cur alts :
  all_chars plain_char s = true ->
  Regex.parse Regex.Top (s +:+ rest) cur alts =
    Regex.parse Regex.Top rest (rev (lit_items s) ++ cur) alts.
Proof.
  revert cur. induction s as [|c s IH]; intros cur Hs.
  - reflexivity.
  - simpl in Hs. apply andb_prop in Hs as [Hc Hs].
    simpl String.append. rewrite parse_plain_char by assumption.
    rewrite IH by assumption. simpl lit_items. simpl rev.
    now rewrite <- List.app_assoc.
Qed.

Lemma date_char_plain c : date_char c = true -> plain_char c = true.
Proof.
  intros H. unfold plain_char.
  destruct (date_char_cases c H) as (_ & _ & _ & _ & -> & _). reflexivity.
Qed.

Lemma compile_filename_pattern prefix suffix :
  all_chars date_char prefix = true -> plain_suffix suffix = true ->
  Regex.compile (prefix +:+ "[\[\]0-9]*" +:+ "_" +:+ suffix +:+ ".log")
  = Some [filename_pattern prefix suffix].
Proof.
  intros Hpre Hsuf. unfold Regex.compile.
  rewrite parse_plain by (eapply all_chars_impl; [apply date_char_plain | assumption]).
  simpl String.append.
  cbn [Regex.parse Ascii.eqb Bool.eqb Regex.metachar existsb orb andb negb
       N_of_ascii N.leb].
  rewrite parse_plain by assumption.
  simpl. unfold filename_pattern.
  rewrite !rev_app_distr, !rev_involutive. simpl.
  rewrite ?List.app_nil_r, <- ?List.app_assoc, ?rev_involutive. reflexivity.
Qed.

Lemma match_branch_star a b s :
  Regex.match_branch (Regex.Star a :: b) s =
    Regex.match_branch b s
    || match s with
       | String c s' => Regex.atom_ok a c && Regex.match_branch (Regex.Star a :: b) s'
       | EmptyString => false
       end.
Proof. destruct s; reflexivity. Qed.

Lemma atom_ok_item_of_char c :
  match item_of_char c with
  | Regex.One a => Regex.atom_ok a c = true
  | Regex.Star _ => False
  end.
Proof.
  unfold item_of_char. destruct (Ascii.eqb c "."); simpl; [reflexivity|].
  apply Ascii.eqb_refl.
Qed.

(** Literal items match the text they were made from. *)
Lemma match_lit_items s b t :
  Regex.match_branch (lit_items s ++ b) (s +:+ t) = Regex.match_branch b t.
Proof.
  induction s as [|c s IH]; [reflexivity|].
  simpl lit_items. simpl String.append.
  pose proof (atom_ok_item_of_char c) as Hc.
  destruct (item_of_char c) as [a|a]; [|contradiction].
  simpl. rewrite Hc, IH. reflexivity.
Qed.

Lemma match_star_chars a b s t :
  all_chars (Regex.atom_ok a) s = true ->
  Regex.match_branch b t = true ->
  Regex.match_branch (Regex.Star a :: b) (s +:+ t) = true.
Proof.
  intros Hs Ht. induction s as [|c s IH].
  - simpl String.append. rewrite match_branch_star, Ht. reflexivity.
  - simpl in Hs. apply andb_prop in Hs as [Hc Hs].
    simpl String.append. rewrite match_branch_star, Hc, IH by assumption.
    apply orb_true_r.
Qed.

Lemma isdigit_index_class c :
  Str.isdigit c = true -> Regex.atom_ok index_class c = true.
Proof.
  intros H.
  destruct c as [[] [] [] [] [] [] [] []]; try discriminate H; reflexivity.
Qed.

(** The text between the date and the [_] of a built name is made of the
    characters of the bracket expression. *)
Lemma index_text_class n :
  0 <= n ->
  all_chars (Regex.atom_ok index_class)
    (if n >? 0 then "[" +:+ Str.decimal n +:+ "]" else "") = true.
Proof.
  intros Hn. destruct (n >? 0); [|reflexivity].
  simpl String.append. cbn [all_chars]. rewrite all_chars_app.
  rewrite (all_chars_impl _ _ _ isdigit_index_class (decimal_digits n Hn)).
  reflexivity.
Qed.

(** A name that [generate_filepath] builds matches the pattern that it
    scans the directory with. *)
Lemma built_name_matches prefix n suffix :
  0 <= n ->
  Regex.regex_match (build_filename prefix n suffix)
    [filename_pattern prefix suffix] = true.
Proof.
  intros Hn. unfold Regex.regex_match, filename_pattern, build_filename.
  simpl existsb. rewrite orb_false_r.
  rewrite match_lit_items.
  change (Regex.Star index_class :: Regex.One (Regex.Chr "_") :: ?l)
    with (Regex.Star index_class :: (Regex.One (Regex.Chr "_") :: l)).
  apply match_star_chars; [now apply index_text_class|].
  cbn [Regex.match_branch Regex.atom_ok]. rewrite Ascii.eqb_refl. simpl andb.
  rewrite match_lit_items. reflexivity.
Qed.

(** ** The directory tree *)

Section FsFacts.

Import Fs.

Implicit Types p q : path.
Implicit Types fs v : node.

Lemma parent_path_snoc p c : parent_path (p ++ [c]) = p.
Proof. unfold parent_path. apply removelast_last. Qed.

Lemma filename_snoc p c : filename (p ++ [c]) = c.
Proof. unfold filename. now rewrite last_snoc. Qed.

Lemma lookup_app p q fs :
  lookup (p ++ q) fs =
    match lookup p fs with Some m => lookup q m | None => None end.
Proof.
  revert fs. induction p as [|c p IH]; intros fs; simpl; [reflexivity|].
  destruct fs as [|r w es]; [reflexivity|].
  destruct (es !! c); [apply IH | reflexivity].
Qed.

(** What lies in a directory is an entry of it. *)
Lemma lookup_snoc p c fs x :
  lookup (p ++ [c]) fs = Some x <->
  exists r w es, lookup p fs = Some (Dir r w es) /\ es !! c = Some x.
Proof.
  rewrite lookup_app. split.
  - destruct (lookup p fs) as [[|r w es]|]; simpl; try discriminate.
    destruct (es !! c) eqn:Hc; [|discriminate].
    intros [= ->]. eauto.
  - intros (r & w & es & -> & Hc). simpl. now rewrite Hc.
Qed.

Lemma lookup_below_childless v c q : childless v -> lookup (c :: q) v = None.
Proof. destruct v as [|r w es]; simpl; [reflexivity|]. now intros ->. Qed.

Lemma lookup_put_present p v fs :
  is_Some (lookup p fs) -> lookup p (put p v fs) = Some v.
Proof.
  revert fs. induction p as [|c p IH]; intros fs [x Hx]; simpl in *; [reflexivity|].
  destruct fs as [|r w es]; [discriminate|].
  destruct (es !! c) as [m|] eqn:Hc; [|discriminate].
  simpl. rewrite lookup_insert_eq. apply IH. eauto.
Qed.

Lemma lookup_put_snoc p c v fs :
  is_directory p fs = true -> lookup (p ++ [c]) (put (p ++ [c]) v fs) = Some v.
Proof.
  unfold is_directory.
  revert fs. induction p as [|a p IH]; intros fs Hdir; simpl in *.
  - destruct fs as [|r w es]; [discriminate|].
    destruct (es !! c); simpl; now rewrite lookup_insert_eq.
  - destruct fs as [|r w es]; [discriminate|].
    destruct (es !! a) as [m|] eqn:Ha; [|discriminate].
    simpl. rewrite lookup_insert_eq. now apply IH.
Qed.

(** Replacing a file, or making a file or an empty directory where
    nothing was, changes no other file. *)
Lemma contents_put_other p q v fs :
  childless v ->
  match lookup p fs with Some (Dir _ _ _) => False | _ => True end ->
  q <> p ->
  contents q (put p v fs) = contents q fs.
Proof.
  unfold contents. intros Hv.
  revert q fs. induction p as [|a p IH]; intros q fs Hold Hne; simpl in *.
  - destruct fs as [|r w es]; [|contradiction].
    destruct q as [|b q]; [congruence|].
    now rewrite lookup_below_childless.
  - destruct fs as [|r w es]; [reflexivity|].
    destruct (es !! a) as [m|] eqn:Ha.
    + destruct q as [|b q]; [reflexivity|]. simpl.
      destruct (decide (a = b)) as [<-|Hab].
      * rewrite lookup_insert_eq, Ha. apply IH; [assumption | congruence].
      * now rewrite lookup_insert_ne.
    + destruct p as [|a' p]; [|reflexivity].
      destruct q as [|b q]; [reflexivity|]. simpl.
      destruct (decide (a = b)) as [<-|Hab].
      * rewrite lookup_insert_eq, Ha.
        destruct q as [|b' q]; [congruence|].
        now rewrite lookup_below_childless.
      * now rewrite lookup_insert_ne.
Qed.

Lemma put_cases p v fs :
  lookup p (put p v fs) = Some v \/ put p v fs = fs.
Proof.
  revert fs. induction p as [|a p IH]; intros fs; simpl; [now left|].
  destruct fs as [|r w es]; [now right|].
  destruct (es !! a) as [m|] eqn:Ha.
  - destruct (IH m) as [H|H].
    + left. simpl. now rewrite lookup_insert_eq.
    + right. rewrite H. f_equal. now apply insert_id.
  - destruct p; [|now right]. left. simpl. now rewrite lookup_insert_eq.
Qed.

Lemma contents_put_dir p q r w fs :
  lookup p fs = None ->
  contents q (put p (Dir r w ∅) fs) = contents q fs.
Proof.
  intros Hnone. destruct (decide (q = p)) as [->|Hne].
  - unfold contents at 2. rewrite Hnone.
    destruct (put_cases p (Dir r w ∅) fs) as [H|H].
    + unfold contents. now rewrite H.
    + rewrite H. unfold contents. now rewrite Hnone.
  - apply contents_put_other; [reflexivity | now rewrite Hnone | assumption].
Qed.

(** Whether a path names something is not changed by replacing a file
    by a file. *)
Lemma exists_put_file p q d w d' w' fs :
  lookup p fs = Some (File d w) ->
  exists_ q (put p (File d' w') fs) = exists_ q fs.
Proof.
  unfold exists_.
  revert q fs. induction p as [|a p IH]; intros q fs Hold; simpl in *.
  - injection Hold as ->. destruct q; reflexivity.
  - destruct fs as [|r0 w0 es]; [discriminate|].
    destruct (es !! a) as [m|] eqn:Ha; [|discriminate].
    destruct q as [|b q]; [reflexivity|]. simpl.
    destruct (decide (a = b)) as [<-|Hab].
    + rewrite lookup_insert_eq, Ha. now apply IH.
    + now rewrite lookup_insert_ne.
Qed.

Lemma create_directory_contents p q fs :
  contents q (create_directory p fs).2 = contents q fs.
Proof.
  unfold create_directory.
  destruct (lookup p fs) as [[|]|] eqn:Hp; try reflexivity.
  destruct (lookup (parent_path p) fs) as [[|r [] es]|]; try reflexivity.
  simpl. now apply contents_put_dir.
Qed.

Lemma create_below_contents pre rest q fs :
  contents q (create_below pre rest fs).2 = contents q fs.
Proof.
  revert pre fs. induction rest as [|c rest IH]; intros pre fs; simpl; [reflexivity|].
  pose proof (create_directory_contents (pre ++ [c]) q fs) as Hc.
  destruct (create_directory (pre ++ [c]) fs) as [[made|e|] fs']; simpl in *;
    try assumption.
  destruct rest as [|c' rest]; [assumption|].
  rewrite IH. assumption.
Qed.

(** Creating directories changes no file. *)
Lemma create_directories_contents p q fs :
  contents q (create_directories p fs).2 = contents q fs.
Proof. apply create_below_contents. Qed.

Lemma directory_entries_elem p c fs x entries :
  lookup (p ++ [c]) fs = Some x ->
  directory_entries p fs = Ret entries ->
  p ++ [c] ∈ entries.
Proof.
  intros (r & w & es & Hp & Hc)%lookup_snoc. unfold directory_entries.
  rewrite Hp. destruct r; [|discriminate]. intros [= <-].
  apply list_elem_of_fmap. exists (c, x). split; [reflexivity|].
  now apply elem_of_map_to_list.
Qed.

End FsFacts.

(** ** What the scan returns *)

Lemma foldr_max_lower i indices n0 :
  i ∈ indices -> i + 1 <= foldr (fun i acc => Z.max acc (i + 1)) n0 indices.
Proof.
  induction indices as [|j indices IH]; intros Hin.
  - now apply elem_of_nil in Hin.
  - apply elem_of_cons in Hin as [->|Hin]; simpl; [lia|].
    specialize (IH Hin). lia.
Qed.

Lemma foldr_max_upper indices n0 bound :
  n0 <= bound -> Forall (fun i => i + 1 <= bound) indices ->
  foldr (fun i acc => Z.max acc (i + 1)) n0 indices <= bound.
Proof.
  intros Hn0. induction 1 as [|j indices Hj _ IH]; simpl; lia.
Qed.

Lemma foldr_max_ge indices n0 :
  n0 <= foldr (fun i acc => Z.max acc (i + 1)) n0 indices.
Proof. induction indices as [|j indices IH]; simpl; lia. Qed.

(** The next index is beyond the index of every entry that matches. *)
Lemma scan_entries_lower pattern entries it :
  it ∈ entries -> Regex.regex_match (Fs.filename it) pattern = true ->
  parse_index (Fs.filename it) + 1 <= scan_entries pattern entries 0.
Proof.
  intros Hin Hm. rewrite scan_entries_max. apply foldr_max_lower.
  unfold matched_indices. apply list_elem_of_fmap. exists (Fs.filename it).
  split; [reflexivity|]. apply list_elem_of_filter. split; [assumption|].
  apply list_elem_of_fmap. eauto.
Qed.

Lemma scan_entries_upper pattern entries bound :
  0 <= bound ->
  Forall (fun it => parse_index (Fs.filename it) < bound) entries ->
  0 <= scan_entries pattern entries 0 <= bound.
Proof.
  intros Hb Hall. rewrite scan_entries_max. split; [apply foldr_max_ge|].
  apply foldr_max_upper; [assumption|].
  unfold matched_indices. apply Forall_fmap.
  apply Forall_forall. intros name [_ Hin]%list_elem_of_filter.
  apply list_elem_of_fmap in Hin as (it & -> & Hit).
  rewrite Forall_forall in Hall. specialize (Hall it Hit). simpl. lia.
Qed.

Lemma foldr_max_perm (indices indices' : list Z) :
  indices ≡ₚ indices' ->
  forall n0, foldr (fun i acc => Z.max acc (i + 1)) n0 indices
             = foldr (fun i acc => Z.max acc (i + 1)) n0 indices'.
Proof.
  induction 1 as [|i l l' _ IH|i j l|l l' l'' _ IH1 _ IH2]; intros n0; simpl.
  - reflexivity.
  - now rewrite IH.
  - lia.
  - now rewrite IH1, IH2.
Qed.

(** The scan does not depend on the order in which the directory is
    iterated. *)
Lemma scan_entries_order pattern entries entries' :
  entries ≡ₚ entries' ->
  scan_entries pattern entries 0 = scan_entries pattern entries' 0.
Proof.
  intros Hperm. rewrite !scan_entries_max. apply foldr_max_perm.
  unfold matched_indices. now rewrite Hperm.
Qed.

(** ** Running the member functions *)

Lemma scan_next_index_eq dir pattern w :
  scan_next_index dir pattern w =
    if Fs.is_directory dir (disk w) then
      match Fs.directory_entries dir (disk w) with
      | Ret entries => (Ret (scan_entries pattern entries 0), w)
      | Throw e => (Throw e, w)
      | Unmodelled => (Unmodelled, w)
      end
    else (Ret 0, w).
Proof.
  unfold scan_next_index, mbind, M_bind, the_disk, raise, mret, M_ret.
  unfold Fs.exists_, Fs.is_directory.
  destruct (Fs.lookup dir (disk w)) as [[|r wr es]|]; simpl; reflexivity.
Qed.

Lemma div_eq p s q : Fs.div p s = Some q -> q = p ++ [s].
Proof. unfold Fs.div. destruct (Fs.element_ok s); congruence. Qed.

(** What [generate_filepath] returns, when it returns. *)
Lemma generate_filepath_eq clock w p w' :
  generate_filepath clock w = (Ret p, w') ->
  w' = w /\
  exists pattern n,
    Regex.compile
      (datetime_string_with_format (first_read clock) "%Y-%m-%d"
       +:+ "[\[\]0-9]*" +:+ "_" +:+ file_name_suffix_ (sink w) +:+ ".log")
    = Some pattern
    /\ scan_next_index (monthly_path (sink w) clock) pattern w = (Ret n, w)
    /\ p = monthly_path (sink w) clock
           ++ [build_filename
                 (datetime_string_with_format (first_read clock) "%Y-%m-%d")
                 n (file_name_suffix_ (sink w))].
Proof.
  unfold generate_filepath, mbind, M_bind, this, modelled.
  destruct (Fs.div (target_path_ (sink w)) _) as [monthly|] eqn:Hdiv; [|discriminate].
  apply div_eq in Hdiv. subst monthly. fold (monthly_path (sink w) clock).
  destruct (Regex.compile _) as [pattern|] eqn:Hpat; [|discriminate].
  destruct (scan_next_index (monthly_path (sink w) clock) pattern w)
    as [[n|e|] w1] eqn:Hscan; try discriminate.
  assert (w1 = w) as ->.
  { rewrite scan_next_index_eq in Hscan.
    destruct (Fs.is_directory _ _); [|congruence].
    destruct (Fs.directory_entries _ _); congruence. }
  destruct (Fs.div _ _) as [q|] eqn:Hq; [|discriminate].
  apply div_eq in Hq. intros [= <- <-]. split; [reflexivity|].
  exists pattern, n. auto.
Qed.

Lemma index_headroom_entries dir fs entries :
  index_headroom dir fs = true ->
  Fs.directory_entries dir fs = Ret entries ->
  Forall (fun it => parse_index (Fs.filename it) < 2 ^ 31 - 1) entries.
Proof.
  unfold index_headroom, Fs.directory_entries.
  destruct (Fs.lookup dir fs) as [[|[] wr es]|]; try discriminate.
  intros Hall [= <-]. apply Forall_fmap, Forall_forall. intros [name x] Hin. simpl.
  rewrite filename_snoc. rewrite forallb_forall in Hall.
  specialize (Hall (name, x)). simpl in Hall.
  apply Z.ltb_lt, Hall. now apply list_elem_of_In.
Qed.

(** The path that [generate_filepath] returns names nothing yet. *)
Lemma generate_filepath_fresh clock w p w' :
  plain_suffix (file_name_suffix_ (sink w)) = true ->
  index_headroom (monthly_path (sink w) clock) (disk w) = true ->
  generate_filepath clock w = (Ret p, w') ->
  Fs.lookup p (disk w) = None.
Proof.
  intros Hplain Hroom Hgen.
  apply generate_filepath_eq in Hgen as (_ & pattern & n & Hpat & Hscan & ->).
  pose proof (day_format_chars (first_read clock)) as Hchars.
  pose proof (day_format_size (first_read clock)) as Hsize.
  set (prefix := datetime_string_with_format (first_read clock) "%Y-%m-%d") in *.
  rewrite compile_filename_pattern in Hpat by assumption.
  assert (pattern = [filename_pattern prefix (file_name_suffix_ (sink w))])
    as -> by congruence.
  clear Hpat.
  set (dir := monthly_path (sink w) clock) in *.
  set (name := build_filename prefix n (file_name_suffix_ (sink w))).
  destruct (Fs.lookup (dir ++ [name]) (disk w)) as [x|] eqn:Hx; [exfalso | reflexivity].
  rewrite scan_next_index_eq in Hscan.
  pose proof Hx as (r & wr & es & Hdir & _)%lookup_snoc.
  unfold Fs.is_directory in Hscan. rewrite Hdir in Hscan.
  destruct (Fs.directory_entries dir (disk w)) as [entries|e|] eqn:Hentries;
    try discriminate.
  injection Hscan as Hn.
  pose proof (directory_entries_elem _ _ _ _ _ Hx Hentries) as Hin.
  pose proof (index_headroom_entries _ _ _ Hroom Hentries) as Hall.
  pose proof (scan_entries_upper [filename_pattern prefix (file_name_suffix_ (sink w))]
                entries (2 ^ 31 - 1) ltac:(lia) Hall) as Hup.
  rewrite Hn in Hup.
  pose proof (scan_entries_lower [filename_pattern prefix (file_name_suffix_ (sink w))]
                entries (dir ++ [name]) Hin) as Hlow.
  rewrite filename_snoc, Hn in Hlow.
  specialize (Hlow (built_name_matches prefix n _ ltac:(lia))).
  pose proof (parse_index_range name) as Hrange.
  destruct (Z.eq_dec n 0) as [->|Hnz]; [lia|].
  unfold name in Hlow.
  rewrite parse_index_build in Hlow; try lia. assumption.
Qed.

Lemma rotate_file_eq w : rotate_file w = (Ret tt, rotated w).
Proof.
  unfold rotate_file, rotated, mbind, M_bind, on_file, update.
  destruct (Ofstream.close (file_ (sink w)) (disk w)) as [f fs]. reflexivity.
Qed.

Lemma open_new_file_eq clock w :
  open_new_file clock w =
    match generate_filepath clock w with
    | (Ret p, _) =>
        match Fs.create_directories (Fs.parent_path p) (disk w) with
        | (Ret _, fs) =>
            let (f, fs') := Ofstream.open p (file_ (sink w)) fs in
            let b := with_file f (with_file_path p (sink w)) in
            if Ofstream.is_open f
            then (Ret true,
                  {| sink := with_characters_written
                               (wrap64 (Ofstream.tellp f fs')) b;
                     disk := fs' |})
            else (Ret false, {| sink := b; disk := fs' |})
        | (Throw e, fs) =>
            (Throw e, {| sink := with_file_path p (sink w); disk := fs |})
        | (Unmodelled, fs) =>
            (Unmodelled, {| sink := with_file_path p (sink w); disk := fs |})
        end
    | (Throw e, w') => (Throw e, w')
    | (Unmodelled, w') => (Unmodelled, w')
    end.
Proof.
  unfold open_new_file, mbind, M_bind.
  destruct (generate_filepath clock w) as [[p|e|] w'] eqn:Hgen; try reflexivity.
  apply generate_filepath_eq in Hgen as [-> _].
  unfold update, on_disk, on_file, this, the_disk, mret, M_ret. simpl.
  destruct (Fs.create_directories (Fs.parent_path p) (disk w)) as [[made|e|] fs];
    try reflexivity.
  simpl. destruct (Ofstream.open p (file_ (sink w)) fs) as [f fs']. simpl.
  destruct (Ofstream.is_open f); reflexivity.
Qed.

Lemma consume_eq clock rec formatted_message w :
  consume clock rec formatted_message w =
    let w1 := checked formatted_message w in
    if Ofstream.is_open (file_ (sink w1))
    then (Ret tt, recorded formatted_message w1)
    else match open_new_file clock w1 with
         | (Ret true, w2) => (Ret tt, recorded formatted_message w2)
         | (Ret false, w2) => (Ret tt, w2)
         | (Throw e, w2) => (Throw e, w2)
         | (Unmodelled, w2) => (Unmodelled, w2)
         end.
Proof.
  unfold consume, checked, must_rotate.
  unfold mbind at 1. unfold M_bind at 1. unfold this at 1.
  unfold mbind at 1. unfold M_bind at 1.
  set (cond := (_ && _) || _).
  assert (Hfirst : (if cond then rotate_file else mret ()) w
                   = (Ret tt, if cond then rotated w else w)).
  { destruct cond; [apply rotate_file_eq | reflexivity]. }
  rewrite Hfirst. clear Hfirst.
  generalize (if cond then rotated w else w). clear w cond. intros w. simpl.
  unfold mbind, M_bind, this.
  assert (Hrec : forall w,
    (update (fun b => with_file (Ofstream.write formatted_message (file_ b)) b) ≫=
     (fun _ => update (fun b => with_file (Ofstream.put "010" (file_ b)) b) ≫=
     (fun _ => update (fun b => with_characters_written
                (wrap64 (characters_written_ b
                         + wrap64 (Str.size formatted_message + 1))) b) ≫=
     (fun _ => this ≫=
     (fun b => if auto_flush_ b then on_file Ofstream.flush else mret ()))))) w
    = (Ret tt, recorded formatted_message w)).
  { intros w0. unfold recorded, mbind, M_bind, update, this, on_file, mret, M_ret. simpl.
    destruct (auto_flush_ (sink w0)); [|reflexivity]. simpl.
    destruct (Ofstream.flush _ _) as [f' fs]. reflexivity. }
  unfold mbind, M_bind in Hrec.
  destruct (Ofstream.is_open (file_ (sink w))); simpl.
  - apply Hrec.
  - destruct (open_new_file clock w) as [[[]|e|] w2]; try reflexivity. apply Hrec.
Qed.

(** ** The stream and its file *)

Lemma close_not_open f fs : Ofstream.is_open (Ofstream.close f fs).1 = false.
Proof.
  unfold Ofstream.close, Ofstream.is_open.
  destruct (Ofstream.handle f) as [p|] eqn:Hf; [|simpl; now rewrite Hf].
  destruct (Fs.append p (Ofstream.pending f) fs); reflexivity.
Qed.

Lemma append_contents p bytes fs data :
  Fs.contents p fs = Some data ->
  exists fs', Fs.append p bytes fs = Some fs'
              /\ Fs.contents p fs' = Some (data +:+ bytes)
              /\ (forall q, q <> p -> Fs.contents q fs' = Fs.contents q fs)
              /\ (forall q, Fs.exists_ q fs' = Fs.exists_ q fs).
Proof.
  unfold Fs.contents at 1, Fs.append.
  destruct (Fs.lookup p fs) as [[d wr|]|] eqn:Hp; try discriminate.
  intros [= ->]. eexists. split; [reflexivity|]. split; [|split].
  - unfold Fs.contents. rewrite lookup_put_present by (rewrite Hp; eauto). reflexivity.
  - intros q Hq. apply contents_put_other; [exact I | now rewrite Hp | assumption].
  - intros q. eapply exists_put_file. eassumption.
Qed.

(** C8, as amended.  [rotate_file] always returns.  After it no file is
    open, the stream state is cleared and [characters_written_] is 0; the
    bytes that were in the buffer of an open stream are in its file;
    [file_path_], like [target_path_], [file_name_suffix_], [rotation_size_]
    and [auto_flush_], is what it was: the path of the file just closed
    stays in [file_path_] until the next file is opened. *)
Theorem rotate_file_effect (w : world) :
  exists w',
    rotate_file w = (Ret tt, w')
    /\ Ofstream.is_open (file_ (sink w')) = false
    /\ Ofstream.good (file_ (sink w')) = true
    /\ characters_written_ (sink w') = 0
    /\ file_path_ (sink w') = file_path_ (sink w)
    /\ target_path_ (sink w') = target_path_ (sink w)
    /\ file_name_suffix_ (sink w') = file_name_suffix_ (sink w)
    /\ rotation_size_ (sink w') = rotation_size_ (sink w)
    /\ auto_flush_ (sink w') = auto_flush_ (sink w)
    /\ match Ofstream.handle (file_ (sink w)),
             Ofstream.written (file_ (sink w)) (disk w) with
       | Some p, Some data => Fs.contents p (disk w') = Some data
       | _, _ => True
       end.
Proof.
  exists (rotated w). split; [apply rotate_file_eq|].
  unfold rotated.
  pose proof (close_not_open (file_ (sink w)) (disk w)) as Hclosed.
  destruct (Ofstream.close (file_ (sink w)) (disk w)) as [f fs] eqn:Hclose.
  simpl in *. repeat split; try reflexivity; try assumption.
  unfold Ofstream.written. unfold Ofstream.close in Hclose.
  destruct (Ofstream.handle (file_ (sink w))) as [p|]; [|exact I].
  destruct (Fs.contents p (disk w)) as [d|] eqn:Hd; [|exact I].
  destruct (append_contents p (Ofstream.pending (file_ (sink w))) _ _ Hd)
    as (fs' & Happ & Hc & _).
  rewrite Happ in Hclose. injection Hclose as _ <-. assumption.
Qed.

(** C8, as stated, fails on [svc_open]: the rotation leaves the path of
    the closed file in [file_path_]. *)
Lemma rotate_file_keeps_file_path :
  file_path_ (sink (Example.after rotate_file Example.svc_open))
  = ["var"; "log"; "2024-01"; "2024-01-01_svc.log"]
  /\ file_path_ (sink (Example.after rotate_file Example.svc_open)) <> [].
Proof. split; [vm_compute; reflexivity | vm_compute; discriminate]. Qed.

Lemma same_config_refl b : same_config b b.
Proof. repeat split. Qed.

Lemma same_config_trans b1 b2 b3 :
  same_config b1 b2 -> same_config b2 b3 -> same_config b1 b3.
Proof. unfold same_config. intuition congruence. Qed.

Lemma write_open_good s f p :
  Ofstream.handle f = Some p -> Ofstream.good f = true ->
  Ofstream.handle (Ofstream.write s f) = Some p
  /\ Ofstream.good (Ofstream.write s f) = true
  /\ Ofstream.pending (Ofstream.write s f) = Ofstream.pending f +:+ s.
Proof.
  intros Hh Hg. unfold Ofstream.write. rewrite Hg, Hh.
  unfold Ofstream.good in *. simpl. auto.
Qed.

Lemma flush_open_good f fs p data :
  Ofstream.handle f = Some p -> Ofstream.good f = true ->
  Fs.contents p fs = Some data ->
  exists fs',
    Ofstream.handle (Ofstream.flush f fs).1 = Some p
    /\ Ofstream.good (Ofstream.flush f fs).1 = true
    /\ Ofstream.pending (Ofstream.flush f fs).1 = ""
    /\ (Ofstream.flush f fs).2 = fs'
    /\ Fs.contents p fs' = Some (data +:+ Ofstream.pending f)
    /\ (forall q, q <> p -> Fs.contents q fs' = Fs.contents q fs)
    /\ (forall q, Fs.exists_ q fs' = Fs.exists_ q fs).
Proof.
  intros Hh Hg Hd.
  destruct (append_contents p (Ofstream.pending f) _ _ Hd)
    as (fs' & Happ & Hc & Hother & Hex).
  exists fs'. unfold Ofstream.flush. rewrite Hg, Hh, Happ.
  unfold Ofstream.good in *. simpl. auto 10.
Qed.

(** The end of [consume] on an open, good stream. *)
Lemma recorded_spec msg w p data :
  Ofstream.handle (file_ (sink w)) = Some p ->
  Ofstream.good (file_ (sink w)) = true ->
  Ofstream.written (file_ (sink w)) (disk w) = Some data ->
  Ofstream.handle (file_ (sink (recorded msg w))) = Some p
  /\ Ofstream.good (file_ (sink (recorded msg w))) = true
  /\ Ofstream.written (file_ (sink (recorded msg w))) (disk (recorded msg w))
     = Some (data +:+ msg +:+ "
")
  /\ characters_written_ (sink (recorded msg w))
     = wrap64 (characters_written_ (sink w) + wrap64 (Str.size msg + 1))
  /\ file_path_ (sink (recorded msg w)) = file_path_ (sink w)
  /\ same_config (sink w) (sink (recorded msg w))
  /\ (forall q, q <> p ->
        Fs.contents q (disk (recorded msg w)) = Fs.contents q (disk w))
  /\ (forall q, Fs.exists_ q (disk (recorded msg w)) = Fs.exists_ q (disk w)).
Proof.
  intros Hh Hg Hw. unfold recorded.
  unfold Ofstream.written in Hw. rewrite Hh in Hw.
  destruct (Fs.contents p (disk w)) as [d0|] eqn:Hd0; [|discriminate].
  injection Hw as <-.
  destruct (write_open_good msg _ _ Hh Hg) as (Hh1 & Hg1 & Hp1).
  unfold Ofstream.put.
  destruct (write_open_good (String "010" "") _ _ Hh1 Hg1) as (Hh2 & Hg2 & Hp2).
  rewrite Hp1 in Hp2.
  set (f2 := Ofstream.write (String "010" "") (Ofstream.write msg (file_ (sink w)))) in *.
  destruct (auto_flush_ (sink w)) eqn:Hauto.
  - destruct (flush_open_good f2 (disk w) p d0 Hh2 Hg2 Hd0)
      as (fs' & Hh3 & Hg3 & Hp3 & Hfs & Hc & Hother & Hex).
    destruct (Ofstream.flush f2 (disk w)) as [f3 fs3]. simpl in *. subst fs3.
    unfold Ofstream.written. rewrite Hh3, Hc, Hp3, Hp2.
    repeat split; try assumption; try reflexivity.
    now rewrite append_nil_r, !append_assoc.
  - simpl. unfold Ofstream.written. rewrite Hh2, Hd0, Hp2.
    repeat split; try assumption; try reflexivity.
    now rewrite !append_assoc.
Qed.

Lemma path_snoc (p : path) : p <> [] -> exists q c, p = q ++ [c].
Proof.
  intros Hp. exists (removelast p), (List.last p "").
  now apply app_removelast_last.
Qed.

(** Opening for output leaves an empty file, and no other file changes. *)
Lemma open_out_spec p fs fs' :
  Fs.open_out p fs = Some fs' ->
  Fs.contents p fs' = Some ""
  /\ (forall q, q <> p -> Fs.contents q fs' = Fs.contents q fs).
Proof.
  unfold Fs.open_out.
  destruct (Fs.lookup p fs) as [[d []|]|] eqn:Hp; try discriminate.
  - intros [= <-]. split.
    + unfold Fs.contents. rewrite lookup_put_present by (rewrite Hp; eauto). reflexivity.
    + intros q Hq. apply contents_put_other; [exact I | now rewrite Hp | assumption].
  - destruct p as [|a p]; [discriminate|].
    destruct (path_snoc (a :: p) ltac:(discriminate)) as (q & c & Heq).
    remember (a :: p) as p0 eqn:Hp0. clear Hp0. subst p0.
    rewrite parent_path_snoc.
    destruct (Fs.lookup q fs) as [[|r [] es]|] eqn:Hpar; try discriminate.
    intros [= <-]. split.
    + unfold Fs.contents. rewrite lookup_put_snoc; [reflexivity|].
      unfold Fs.is_directory. now rewrite Hpar.
    + intros q' Hq. apply contents_put_other; [exact I | now rewrite Hp | assumption].
Qed.

(** What [consume] finds when it has opened a new file. *)
Lemma open_new_file_true clock w w' :
  Ofstream.is_open (file_ (sink w)) = false ->
  open_new_file clock w = (Ret true, w') ->
  exists p made fs,
    generate_filepath clock w = (Ret p, w)
    /\ Fs.create_directories (Fs.parent_path p) (disk w) = (Ret made, fs)
    /\ Fs.open_out p fs = Some (disk w')
    /\ Ofstream.handle (file_ (sink w')) = Some p
    /\ Ofstream.good (file_ (sink w')) = true
    /\ Ofstream.written (file_ (sink w')) (disk w') = Some ""
    /\ characters_written_ (sink w') = 0
    /\ file_path_ (sink w') = p
    /\ same_config (sink w) (sink w').
Proof.
  intros Hclosed. rewrite open_new_file_eq.
  destruct (generate_filepath clock w) as [[p|e|] w1] eqn:Hgen; try discriminate.
  pose proof Hgen as [-> _]%generate_filepath_eq.
  destruct (Fs.create_directories (Fs.parent_path p) (disk w)) as [[made|e|] fs] eqn:Hdirs;
    try discriminate.
  unfold Ofstream.open. unfold Ofstream.is_open in Hclosed.
  destruct (Ofstream.handle (file_ (sink w))) eqn:Hh; [discriminate|].
  destruct (Fs.open_out p fs) as [fs'|] eqn:Hopen.
  - simpl. intros [= <-]. simpl.
    destruct (open_out_spec _ _ _ Hopen) as [Hc _].
    exists p, made, fs. unfold Ofstream.written, Ofstream.tellp. simpl. rewrite Hc.
    repeat split; try reflexivity; assumption.
  - unfold Ofstream.is_open, Ofstream.setstate_fail. simpl. rewrite Hh. discriminate.
Qed.

Lemma rotated_spec w :
  Ofstream.is_open (file_ (sink (rotated w))) = false
  /\ Ofstream.good (file_ (sink (rotated w))) = true
  /\ characters_written_ (sink (rotated w)) = 0
  /\ file_path_ (sink (rotated w)) = file_path_ (sink w)
  /\ same_config (sink w) (sink (rotated w)).
Proof.
  unfold rotated.
  pose proof (close_not_open (file_ (sink w)) (disk w)) as Hclosed.
  destruct (Ofstream.close (file_ (sink w)) (disk w)) as [f fs]. simpl in *.
  repeat split; try reflexivity. assumption.
Qed.

Lemma checked_open msg w :
  Ofstream.is_open (file_ (sink (checked msg w))) = negb (opens_new_file msg w).
Proof.
  unfold checked, opens_new_file.
  destruct (must_rotate msg (sink w)) eqn:Hrot.
  - destruct (rotated_spec w) as (-> & _). now rewrite orb_true_r.
  - rewrite orb_false_r. now rewrite negb_involutive.
Qed.

Lemma checked_same_config msg w : same_config (sink w) (sink (checked msg w)).
Proof.
  unfold checked. destruct (must_rotate msg (sink w)).
  - apply rotated_spec.
  - apply same_config_refl.
Qed.

Lemma steady_good msg w :
  opens_new_file msg w = false ->
  checked msg w = w
  /\ Ofstream.is_open (file_ (sink w)) = true
  /\ Ofstream.good (file_ (sink w)) = true
  /\ (wrap64 (characters_written_ (sink w) + Str.size msg) >=? rotation_size_ (sink w))
     = false.
Proof.
  unfold opens_new_file, checked, must_rotate.
  intros [Hopen Hrot]%orb_false_iff. rewrite Hrot.
  apply negb_false_iff in Hopen. rewrite Hopen in *. simpl in Hrot.
  apply orb_false_iff in Hrot as [Hsize Hgood].
  apply negb_false_iff in Hgood. auto.
Qed.

Lemma open_new_file_false clock w w' :
  open_new_file clock w = (Ret false, w') ->
  Ofstream.is_open (file_ (sink w')) = false.
Proof.
  rewrite open_new_file_eq.
  destruct (generate_filepath clock w) as [[p|e|] w1]; try discriminate.
  destruct (Fs.create_directories _ _) as [[made|e|] fs]; try discriminate.
  destruct (Ofstream.open p (file_ (sink w)) fs) as [f fs'].
  destruct (Ofstream.is_open f) eqn:Hf; [discriminate|].
  intros [= <-]. exact Hf.
Qed.

(** A call that opens a file and returns with it open: what it opened and
    what it wrote. *)
Lemma consume_fresh clock rec msg w w' :
  opens_new_file msg w = true ->
  consume clock rec msg w = (Ret tt, w') ->
  Ofstream.is_open (file_ (sink w')) = true ->
  exists w2,
    open_new_file clock (checked msg w) = (Ret true, w2)
    /\ w' = recorded msg w2.
Proof.
  intros Hnew. rewrite consume_eq. cbv zeta.
  rewrite checked_open, Hnew. simpl.
  destruct (open_new_file clock (checked msg w)) as [[[]|e|] w2] eqn:Hopen;
    try discriminate.
  - intros [= <-] _. eauto.
  - intros [= <-] Hopen'. apply open_new_file_false in Hopen. congruence.
Qed.

(** C10.  [consume] takes the message as it is.  When the open file is
    kept, the call returns, the bytes of the message and then one line feed
    are added to what the stream has written into the file, and
    [characters_written_] grows by the length of the message plus one;
    when the call opens a file and returns with it open, the file holds
    the message and one line feed, and [characters_written_] is that many
    bytes from 0.  Nothing depends on what bytes the message has, so a
    message with line feeds in it takes several lines of the file. *)
Theorem consume_writes_verbatim (clock : readings) (rec : record_view)
    (formatted_message : string) (w : world) :
  (forall data,
     opens_new_file formatted_message w = false ->
     Ofstream.written (file_ (sink w)) (disk w) = Some data ->
     exists w',
       consume clock rec formatted_message w = (Ret tt, w')
       /\ Ofstream.handle (file_ (sink w')) = Ofstream.handle (file_ (sink w))
       /\ Ofstream.written (file_ (sink w')) (disk w')
          = Some (data +:+ formatted_message +:+ "
")
       /\ characters_written_ (sink w')
          = wrap64 (characters_written_ (sink w)
                    + wrap64 (Str.size formatted_message + 1)))
  /\ (forall w',
        opens_new_file formatted_message w = true ->
        consume clock rec formatted_message w = (Ret tt, w') ->
        Ofstream.is_open (file_ (sink w')) = true ->
        Ofstream.written (file_ (sink w')) (disk w')
        = Some (formatted_message +:+ "
")
        /\ characters_written_ (sink w')
           = wrap64 (0 + wrap64 (Str.size formatted_message + 1))).
Proof.
  split.
  - intros data Hsteady Hdata.
    destruct (steady_good _ _ Hsteady) as (Hchecked & Hopen & Hgood & _).
    exists (recorded formatted_message w). split.
    + rewrite consume_eq. cbv zeta. rewrite Hchecked, Hopen. reflexivity.
    + unfold Ofstream.is_open in Hopen.
      destruct (Ofstream.handle (file_ (sink w))) as [p|] eqn:Hh; [|discriminate].
      destruct (recorded_spec formatted_message w p data Hh Hgood Hdata)
        as (H1 & _ & H3 & H4 & _).
      auto.
  - intros w' Hnew Hrun Hopen.
    destruct (consume_fresh _ _ _ _ _ Hnew Hrun Hopen) as (w2 & Hopened & ->).
    apply open_new_file_true in Hopened
      as (p & made & fs & _ & _ & _ & Hh & Hgood & Hwritten & Hcw & _);
      [|rewrite checked_open, Hnew; reflexivity].
    destruct (recorded_spec formatted_message w2 p "" Hh Hgood Hwritten)
      as (_ & _ & H3 & H4 & _).
    rewrite H3, H4, Hcw. auto.
Qed.

(** C10 on two messages of two lines each: one added to the file that
    [svc_open] has open, one that opens the first file of a sink. *)
Lemma consume_writes_verbatim_witness :
  (exists w',
     consume (Example.at_ Example.jan1) (Example.stamped Example.jan1) "two
lines" Example.svc_open = (Ret tt, w')
     /\ Ofstream.handle (file_ (sink w'))
        = Ofstream.handle (file_ (sink Example.svc_open))
     /\ Ofstream.written (file_ (sink w')) (disk w') = Some ("AAAA
" +:+ "two
lines" +:+ "
")
     /\ characters_written_ (sink w') = wrap64 (5 + wrap64 (Str.size "two
lines" + 1)))
  /\ let w' := Example.after
                 (consume (Example.at_ Example.jan1) (Example.stamped Example.jan1)
                    "two
lines") (Example.fresh Example.svc Example.empty_log) in
     Ofstream.written (file_ (sink w')) (disk w') = Some ("two
lines" +:+ "
")
     /\ characters_written_ (sink w') = wrap64 (0 + wrap64 (Str.size "two
lines" + 1)).
Proof.
  split.
  - apply (proj1 (consume_writes_verbatim (Example.at_ Example.jan1)
                    (Example.stamped Example.jan1) "two
lines" Example.svc_open)); vm_compute; reflexivity.
  - apply (proj2 (consume_writes_verbatim (Example.at_ Example.jan1)
                    (Example.stamped Example.jan1) "two
lines" (Example.fresh Example.svc Example.empty_log))); vm_compute; reflexivity.
Defined.

(** C9.  The record that comes with the message plays no part: [consume]
    does the same whatever record it is given.  When a call opens a file
    and returns with it open, the file is the one [file_path_] names: it
    lies in the directory [YYYY-MM] of the year and month that the clock
    showed at its second reading during the call, and its name is the
    date [YYYY-MM-DD] that the clock showed at the first reading, then
    the index in brackets if there is one, then [_], the suffix and
    [.log].  So a record stamped 2024-01-31 that arrives when the clock
    shows 2024-02-01 lands in [2024-02/2024-02-01_svc.log]. *)
Theorem naming_ignores_record (clock : readings) (rec rec' : record_view)
    (formatted_message : string) (w : world) :
  consume clock rec formatted_message w = consume clock rec' formatted_message w
  /\ (forall w',
        opens_new_file formatted_message w = true ->
        consume clock rec formatted_message w = (Ret tt, w') ->
        Ofstream.is_open (file_ (sink w')) = true ->
        Ofstream.handle (file_ (sink w')) = Some (file_path_ (sink w'))
        /\ exists next_index,
             file_path_ (sink w')
             = target_path_ (sink w)
               ++ [Clock.digits4 (year (second_read clock)) +:+ "-"
                   +:+ Clock.digits2 (month (second_read clock));
                   (Clock.digits4 (year (first_read clock)) +:+ "-"
                    +:+ Clock.digits2 (month (first_read clock)) +:+ "-"
                    +:+ Clock.digits2 (day (first_read clock)))
                   +:+ (if next_index >? 0
                        then "[" +:+ Str.decimal next_index +:+ "]" else "")
                   +:+ "_" +:+ file_name_suffix_ (sink w) +:+ ".log"])
  /\ (let w' := Example.after
                  (consume (Example.at_ Example.feb1) (Example.stamped Example.jan31)
                     "late")
                  (Example.fresh Example.svc Example.empty_log) in
      Ofstream.handle (file_ (sink w'))
      = Some ["var"; "log"; "2024-02"; "2024-02-01_svc.log"]
      /\ Fs.contents ["var"; "log"; "2024-02"; "2024-02-01_svc.log"] (disk w')
         = Some "late
").
Proof.
  split; [reflexivity|]. split; [|vm_compute; split; reflexivity].
  intros w' Hnew Hrun Hopen.
  destruct (consume_fresh _ _ _ _ _ Hnew Hrun Hopen) as (w2 & Hopened & ->).
  apply open_new_file_true in Hopened
    as (p & made & fs & Hgen & _ & _ & Hh & Hgood & Hwritten & _ & Hpath & _);
    [|rewrite checked_open, Hnew; reflexivity].
  destruct (recorded_spec formatted_message w2 p "" Hh Hgood Hwritten)
    as (Hh' & _ & _ & _ & Hpath' & _).
  rewrite Hh', Hpath', Hpath. split; [reflexivity|].
  apply generate_filepath_eq in Hgen as (_ & pattern & n & _ & _ & ->).
  exists n. unfold monthly_path.
  destruct (checked_same_config formatted_message w) as (_ & -> & -> & _).
  rewrite month_format, day_format, <- List.app_assoc. reflexivity.
Qed.

(** C9 on a record stamped 2024-01-31 that arrives when the clock shows
    2024-02-01: it lands in the file of 2024-02-01. *)
Lemma naming_ignores_record_witness :
  let w' := Example.after
              (consume (Example.at_ Example.feb1) (Example.stamped Example.jan31) "late")
              (Example.fresh Example.svc Example.empty_log) in
  Ofstream.handle (file_ (sink w')) = Some (file_path_ (sink w'))
  /\ exists next_index,
       file_path_ (sink w')
       = ["var"; "log"]
         ++ ["2024" +:+ "-" +:+ "02";
             ("2024" +:+ "-" +:+ "02" +:+ "-" +:+ "01")
             +:+ (if next_index >? 0
                  then "[" +:+ Str.decimal next_index +:+ "]" else "")
             +:+ "_" +:+ "svc" +:+ ".log"].
Proof.
  apply (proj1 (proj2 (naming_ignores_record (Example.at_ Example.feb1)
                         (Example.stamped Example.jan31) (Example.stamped Example.jan31)
                         "late" (Example.fresh Example.svc Example.empty_log))));
    vm_compute; reflexivity.
Defined.




Lemma scan_entries_next_free pattern entries :
  scan_entries pattern entries 0 = next_free (matched_indices pattern entries).
Proof.
  rewrite scan_entries_max. unfold matched_indices.
  destruct (filter _ _) as [|name names]; [reflexivity|].
  rewrite fmap_cons. apply foldr_max_next. apply parse_index_range.
Qed.

(** X18 ([generate_filepath], the path it returns).  A path that
    [generate_filepath] returns is
    [target_path_/YYYY-MM/YYYY-MM-DD] followed by the index in brackets
    when the index is above 0, then [_], the suffix and [.log], where the
    index is one more than the largest index read from the entries of the
    monthly directory that match the pattern, and 0 when none matches.
    For the directory that holds [2024-01-01_app.log] and
    [2024-01-01[1]_app.log] the index is 2. *)
Theorem generated_path_form (clock : readings) (w w' : world) (p : path)
    (Hrun : generate_filepath clock w = (Ret p, w')) :
  (exists pattern next_index,
     Regex.compile
       ((Clock.digits4 (year (first_read clock)) +:+ "-"
         +:+ Clock.digits2 (month (first_read clock)) +:+ "-"
         +:+ Clock.digits2 (day (first_read clock)))
        +:+ "[\[\]0-9]*" +:+ "_" +:+ file_name_suffix_ (sink w) +:+ ".log")
     = Some pattern
     /\ next_index
        = next_free
            (matched_indices pattern
               (directory_listing
                  (target_path_ (sink w)
                   ++ [Clock.digits4 (year (second_read clock)) +:+ "-"
                       +:+ Clock.digits2 (month (second_read clock))])
                  (disk w)))
     /\ p = target_path_ (sink w)
            ++ [Clock.digits4 (year (second_read clock)) +:+ "-"
                +:+ Clock.digits2 (month (second_read clock));
                (Clock.digits4 (year (first_read clock)) +:+ "-"
                 +:+ Clock.digits2 (month (first_read clock)) +:+ "-"
                 +:+ Clock.digits2 (day (first_read clock)))
                +:+ (if next_index >? 0
                     then "[" +:+ Str.decimal next_index +:+ "]" else "")
                +:+ "_" +:+ file_name_suffix_ (sink w) +:+ ".log"])
  /\ (generate_filepath (Example.at_ Example.jan1) Example.two_app_files).1
     = Ret ["var"; "log"; "2024-01"; "2024-01-01[2]_app.log"].
Proof.
  split; [|vm_compute; reflexivity].
  apply generate_filepath_eq in Hrun as (_ & pattern & n & Hpat & Hscan & ->).
  rewrite day_format in Hpat. exists pattern, n. split; [exact Hpat|].
  rewrite scan_next_index_eq in Hscan.
  unfold monthly_path in *. rewrite month_format in *.
  split.
  - unfold directory_listing.
    destruct (Fs.is_directory _ (disk w)) eqn:Hdir.
    + destruct (Fs.directory_entries _ (disk w)) as [entries|e|]; try discriminate.
      injection Hscan as <-. apply scan_entries_next_free.
    + injection Hscan as <-. unfold Fs.is_directory, Fs.directory_entries in *.
      destruct (Fs.lookup _ (disk w)) as [[|r wr es]|]; try reflexivity. discriminate.
  - rewrite day_format, <- List.app_assoc. reflexivity.
Qed.

(** X18 on the directory that holds [2024-01-01_app.log] and
    [2024-01-01[1]_app.log]. *)
Lemma generated_path_form_witness :
  exists pattern next_index,
    Regex.compile (("2024" +:+ "-" +:+ "01" +:+ "-" +:+ "01")
                   +:+ "[\[\]0-9]*" +:+ "_" +:+ "app" +:+ ".log") = Some pattern
    /\ next_index
       = next_free
           (matched_indices pattern
              (directory_listing (["var"; "log"] ++ ["2024" +:+ "-" +:+ "01"])
                 (disk Example.two_app_files)))
    /\ ["var"; "log"; "2024-01"; "2024-01-01[2]_app.log"]
       = ["var"; "log"]
         ++ ["2024" +:+ "-" +:+ "01";
             ("2024" +:+ "-" +:+ "01" +:+ "-" +:+ "01")
             +:+ (if next_index >? 0
                  then "[" +:+ Str.decimal next_index +:+ "]" else "")
             +:+ "_" +:+ "app" +:+ ".log"].
Proof.
  apply (proj1 (generated_path_form (Example.at_ Example.jan1) Example.two_app_files
                  Example.two_app_files ["var"; "log"; "2024-01"; "2024-01-01[2]_app.log"]
                  ltac:(vm_compute; reflexivity))).
Defined.

(** C5 does not hold of the code for a sink whose suffix is [a|b]: beside
    its own files [2024-01-01_a|b.log] and [2024-01-01[1]_a|b.log], which
    the pattern made of the suffix does not match, [generate_filepath]
    returns the name without an index, which is taken, and not index 2.
    Nor is the dot before [log] taken literally: beside
    [2024-01-01_svcXlog] alone the sink with suffix [svc] gets index 1. *)
Lemma scan_misses_own_files :
  let own := Example.january [("2024-01-01_a|b.log", Example.file "");
                              ("2024-01-01[1]_a|b.log", Example.file "")] in
  (generate_filepath (Example.at_ Example.jan1)
     (Example.fresh (cilog_backend_new Example.target "a|b" 50 true) own)).1
  = Ret ["var"; "log"; "2024-01"; "2024-01-01_a|b.log"]
  /\ Fs.exists_ ["var"; "log"; "2024-01"; "2024-01-01_a|b.log"] own = true
  /\ (generate_filepath (Example.at_ Example.jan1)
        (Example.fresh Example.svc
           (Example.january [("2024-01-01_svcXlog", Example.file "")]))).1
     = Ret ["var"; "log"; "2024-01"; "2024-01-01[1]_svc.log"].
Proof. vm_compute. repeat split; reflexivity. Qed.

(** ** Names that the pattern does not match *)

Lemma single_items_lit s : single_items (lit_items s).
Proof.
  induction s as [|c s IH]; [constructor|].
  constructor; [|exact IH]. unfold item_of_char. now destruct (Ascii.eqb c ".").
Qed.

Lemma length_lit_items s : List.length (lit_items s) = String.length s.
Proof. induction s as [|c s IH]; simpl; [reflexivity | now rewrite IH]. Qed.

Lemma match_single_items_size b s :
  single_items b -> Regex.match_branch b s = true ->
  Str.size s = Z.of_nat (List.length b).
Proof.
  intros Hb. revert s. induction Hb as [|i b Hi _ IH]; intros s Hm.
  - destruct s; [reflexivity | discriminate].
  - destruct i as [a|a]; [|contradiction].
    destruct s as [|c s]; [discriminate|].
    simpl in Hm. apply andb_prop in Hm as [_ Hm].
    rewrite size_cons, (IH s Hm). simpl List.length. lia.
Qed.

(** What a starred item matched, and what the rest of the items matched. *)
Lemma match_star_split a b s :
  Regex.match_branch (Regex.Star a :: b) s = true ->
  exists s1 s2, s = s1 +:+ s2
                /\ all_chars (Regex.atom_ok a) s1 = true
                /\ Regex.match_branch b s2 = true.
Proof.
  induction s as [|c s IH]; rewrite match_branch_star.
  - rewrite orb_false_r. intros Hm. exists "", "". auto.
  - intros [Hm|Hm]%orb_prop.
    + exists "", (String c s). auto.
    + apply andb_prop in Hm as [Hc Hm].
      destruct (IH Hm) as (s1 & s2 & -> & Hs1 & Hs2).
      exists (String c s1), s2. simpl. rewrite Hc. auto.
Qed.

Lemma app_inv_tail_size s s' t t' :
  Str.size t = Str.size t' -> s +:+ t = s' +:+ t' -> s = s' /\ t = t'.
Proof.
  intros Hsize Heq. apply app_inv_size; [|assumption].
  apply (f_equal Str.size) in Heq. rewrite !size_app in Heq. lia.
Qed.

(** A name with something else than brackets and digits between the date
    and the [_] does not match. *)
Lemma bracket_content_not_matched prefix suffix body :
  all_chars (Regex.atom_ok index_class) body = false ->
  Regex.regex_match (prefix +:+ "[" +:+ body +:+ "]" +:+ "_" +:+ suffix +:+ ".log")
    [filename_pattern prefix suffix] = false.
Proof.
  intros Hbody. unfold Regex.regex_match, filename_pattern. simpl existsb.
  rewrite orb_false_r. rewrite match_lit_items.
  apply not_true_is_false. intros Hm.
  change (Regex.Star index_class :: Regex.One (Regex.Chr "_") :: ?l)
    with (Regex.Star index_class :: (Regex.One (Regex.Chr "_") :: l)) in Hm.
  apply match_star_split in Hm as (s1 & s2 & Heq & Hs1 & Hs2).
  apply match_single_items_size in Hs2.
  2:{ constructor; [exact I|]. apply Forall_app. split; [apply single_items_lit|].
      repeat constructor. }
  simpl List.length in Hs2. rewrite length_app, length_lit_items in Hs2. simpl List.length in Hs2.
  assert (Heq' : ("[" +:+ body +:+ "]") +:+ ("_" +:+ suffix +:+ ".log") = s1 +:+ s2)
    by (rewrite <- Heq; simpl; rewrite append_assoc; reflexivity).
  apply app_inv_tail_size in Heq' as [<- _].
  - simpl in Hs1. rewrite all_chars_app in Hs1.
    apply andb_prop in Hs1 as [Hs1 _]. congruence.
  - rewrite Hs2. simpl String.append. rewrite size_cons, size_app.
    unfold Str.size. simpl String.length. lia.
Qed.

Lemma atoi_no_number s :
  match s with
  | EmptyString => True
  | String c _ =>
      Str.isdigit c = false /\ Str.isspace c = false
      /\ Ascii.eqb c "-" = false /\ Ascii.eqb c "+" = false
  end ->
  Str.atoi s = 0.
Proof.
  destruct s as [|c s]; [reflexivity|].
  intros (Hd & Hs & Hm & Hp). unfold Str.atoi, Str.strtol.
  change (Str.skip_spaces (String c s))
    with (if Str.isspace c then Str.skip_spaces s else String c s).
  rewrite Hs.
  assert (Hval : Str.digits_acc (String c s) 0 = 0) by (simpl; now rewrite Hd).
  destruct c as [[] [] [] [] [] [] [] []]; try discriminate; rewrite Hval; reflexivity.
Qed.

Lemma substring_head n c s :
  match String.substring 0 n (String c s) with
  | EmptyString => True
  | String c' _ => c' = c
  end.
Proof. destruct n; simpl; auto. Qed.

(** A name whose first [[] is not followed by a number has index 0. *)
Lemma parse_index_no_number prefix c rest :
  all_chars date_char prefix = true -> Str.size prefix < 2 ^ 32 ->
  Str.isdigit c = false -> Str.isspace c = false ->
  Ascii.eqb c "-" = false -> Ascii.eqb c "+" = false ->
  parse_index (prefix +:+ "[" +:+ String c rest) = 0.
Proof.
  intros Hpre Hsize Hd Hs Hm Hp. unfold parse_index.
  assert (Hopen : all_chars (fun a => negb (Ascii.eqb a "[")) prefix = true).
  { apply (no_bracket_chars date_char); [|assumption].
    intros a Ha. now destruct (date_char_cases a Ha) as (? & ? & _). }
  assert (Hb : Str.find "[" (prefix +:+ "[" +:+ String c rest) = Str.size prefix).
  { unfold Str.find. rewrite find_from_skip by assumption.
    simpl String.append. rewrite find_from_here. lia. }
  rewrite Hb. destruct (_ && _); [|reflexivity].
  pose proof (size_nonneg prefix).
  unfold wrap64 at 1. rewrite Z.mod_small by lia.
  unfold Str.substr.
  set (n := Z.to_nat (Z.min _ _)). clearbody n.
  replace (Z.to_nat (Str.size prefix + 1)) with (String.length (prefix +:+ "["))
    by (rewrite <- (Nat2Z.id (String.length (prefix +:+ "[")));
        f_equal; fold (Str.size (prefix +:+ "[")); rewrite size_app; reflexivity).
  replace (prefix +:+ "[" +:+ String c rest)
    with ((prefix +:+ "[") +:+ String c rest) by (now rewrite append_assoc).
  rewrite substring_skip.
  pose proof (substring_head n c rest) as Hhead.
  rewrite atoi_no_number; [reflexivity|].
  destruct (String.substring 0 n (String c rest)); [exact I|].
  subst. auto.
Qed.

(** C6, as stated, fails: beside [2024-01-01[x]_svc.log] the next file is
    the unindexed one, as in an empty directory, while beside the
    unindexed file it has index 1. *)
Lemma malformed_bracket_not_counted :
  (generate_filepath (Example.at_ Example.jan1)
     (Example.fresh Example.svc
        (Example.january [("2024-01-01[x]_svc.log", Example.file "")]))).1
  = Ret ["var"; "log"; "2024-01"; "2024-01-01_svc.log"]
  /\ (generate_filepath (Example.at_ Example.jan1)
        (Example.fresh Example.svc
           (Example.january [("2024-01-01_svc.log", Example.file "")]))).1
     = Ret ["var"; "log"; "2024-01"; "2024-01-01[1]_svc.log"].
Proof. split; vm_compute; reflexivity. Qed.

(** C6, as amended.  For a suffix without special characters other than
    the dot the pattern compiles, and a name of the day whose bracket
    holds a character other than [[], []] and the digits does not match
    it: the scan passes over the entry, which neither stops it nor changes
    the next index.  A name in which the date and [[] are followed by a
    character that is neither a digit, white space nor a sign has
    index 0. *)
Theorem malformed_bracket_skipped (t : ptime) (suffix body : string)
    (Hplain : plain_suffix suffix = true)
    (Hbody : all_chars (Regex.atom_ok index_class) body = false) :
  exists pattern,
    Regex.compile (datetime_string_with_format t "%Y-%m-%d"
                   +:+ "[\[\]0-9]*" +:+ "_" +:+ suffix +:+ ".log") = Some pattern
    /\ Regex.regex_match
         (datetime_string_with_format t "%Y-%m-%d"
          +:+ "[" +:+ body +:+ "]" +:+ "_" +:+ suffix +:+ ".log") pattern = false
    /\ (forall dir entries next_index,
          scan_entries pattern
            ((dir ++ [datetime_string_with_format t "%Y-%m-%d"
                      +:+ "[" +:+ body +:+ "]" +:+ "_" +:+ suffix +:+ ".log"])
             :: entries) next_index
          = scan_entries pattern entries next_index)
    /\ (forall c rest,
          Str.isdigit c = false -> Str.isspace c = false ->
          Ascii.eqb c "-" = false -> Ascii.eqb c "+" = false ->
          parse_index (datetime_string_with_format t "%Y-%m-%d"
                       +:+ "[" +:+ String c rest) = 0).
Proof.
  exists [filename_pattern (datetime_string_with_format t "%Y-%m-%d") suffix].
  pose proof (bracket_content_not_matched
                (datetime_string_with_format t "%Y-%m-%d") suffix body Hbody) as Hno.
  split; [|split; [|split]].
  - apply compile_filename_pattern; [apply day_format_chars | assumption].
  - exact Hno.
  - intros dir entries next_index.
    rewrite scan_entries_cons. unfold scan_step. rewrite filename_snoc.
    now rewrite Hno.
  - intros c rest Hd Hs Hm Hp.
    apply parse_index_no_number; try assumption; [apply day_format_chars|].
    rewrite day_format_size. lia.
Qed.

(** C6, as amended, on [2024-01-01[x]_svc.log], and on the index of
    [2024-01-01[]_svc.log]. *)
Lemma malformed_bracket_skipped_witness :
  (exists pattern,
     Regex.compile ("2024-01-01" +:+ "[\[\]0-9]*" +:+ "_" +:+ "svc" +:+ ".log")
     = Some pattern
     /\ Regex.regex_match "2024-01-01[x]_svc.log" pattern = false
     /\ forall dir entries next_index,
          scan_entries pattern ((dir ++ ["2024-01-01[x]_svc.log"]) :: entries)
            next_index
          = scan_entries pattern entries next_index)
  /\ parse_index "2024-01-01[]_svc.log" = 0.
Proof.
  destruct (malformed_bracket_skipped Example.jan1 "svc" "x" eq_refl eq_refl)
    as (pattern & Hpattern & Hno & Hskip & Hzero).
  split.
  - exists pattern. auto.
  - apply (Hzero "]"%char "_svc.log"); reflexivity.
Defined.

(** ** Exceptions *)

(** [generate_filepath] is left by an exception only when the monthly
    directory is there and cannot be listed. *)
Lemma generate_filepath_throw clock w e w' :
  generate_filepath clock w = (Throw e, w') ->
  w' = w
  /\ e = filesystem_error "directory_iterator::construct" (monthly_path (sink w) clock)
  /\ exists wr es,
       Fs.lookup (monthly_path (sink w) clock) (disk w) = Some (Fs.Dir false wr es).
Proof.
  unfold generate_filepath, mbind, M_bind, this, modelled.
  destruct (Fs.div (target_path_ (sink w)) _) as [monthly|] eqn:Hdiv; [|discriminate].
  apply div_eq in Hdiv. subst monthly. fold (monthly_path (sink w) clock).
  destruct (Regex.compile _) as [pattern|]; [|discriminate].
  rewrite scan_next_index_eq.
  unfold Fs.is_directory, Fs.directory_entries.
  destruct (Fs.lookup (monthly_path (sink w) clock) (disk w)) as [[|[] wr es]|] eqn:Hdir.
  - destruct (Fs.div _ _); discriminate.
  - destruct (Fs.div _ _); discriminate.
  - intros [= <- <-]. eauto.
  - destruct (Fs.div _ _); discriminate.
Qed.

Lemma create_directory_throw p fs e fs' :
  Fs.create_directory p fs = (Throw e, fs') ->
  e = filesystem_error "create_directory" p.
Proof.
  unfold Fs.create_directory.
  destruct (Fs.lookup p fs) as [[|]|]; try discriminate; try congruence.
  destruct (Fs.lookup (Fs.parent_path p) fs) as [[|r [] es]|];
    try discriminate; congruence.
Qed.

Lemma create_below_throw pre rest fs e fs' :
  Fs.create_below pre rest fs = (Throw e, fs') ->
  exists q, e = filesystem_error "create_directory" q.
Proof.
  revert pre fs. induction rest as [|c rest IH]; intros pre fs; simpl; [discriminate|].
  destruct (Fs.create_directory (pre ++ [c]) fs) as [[made|e0|] fs0] eqn:Hc.
  - destruct rest as [|c' rest]; [discriminate|]. apply IH.
  - intros [= <- <-]. apply create_directory_throw in Hc. eauto.
  - discriminate.
Qed.

(** C4, as stated, fails: a monthly directory that cannot be listed, and a
    regular file where the target directory should be, each make [consume]
    throw. *)
Lemma consume_throws :
  (consume (Example.at_ Example.jan1) (Example.stamped Example.jan1) "AAAA"
     (Example.fresh Example.svc
        (Example.dir [("var", Example.dir [("log",
           Example.dir [("2024-01", Fs.Dir false true ∅)])])]))).1
  = Throw (filesystem_error "directory_iterator::construct" ["var"; "log"; "2024-01"])
  /\ (consume (Example.at_ Example.jan1) (Example.stamped Example.jan1) "AAAA"
        (Example.fresh Example.svc
           (Example.dir [("var", Example.dir [("log", Example.file "")])]))).1
     = Throw (filesystem_error "create_directory" ["var"; "log"]).
Proof. split; vm_compute; reflexivity. Qed.

(** C4, as amended.  [consume] is left by a [filesystem_error] when the
    monthly directory is there and cannot be listed, and when a directory
    on the way to the file cannot be created; these are the exceptions of
    the model.  After one of them no file is open and no file has received
    the record.  A monthly directory that is missing, or a path that is not
    a directory, counts as no match and throws nothing. *)
Theorem consume_exception (clock : readings) (rec : record_view)
    (formatted_message : string) (w w' : world) (e : exn)
    (Hrun : consume clock rec formatted_message w = (Throw e, w')) :
  Ofstream.is_open (file_ (sink w')) = false
  /\ (forall q, Fs.contents q (disk w')
                = Fs.contents q (disk (checked formatted_message w)))
  /\ ((e = filesystem_error "directory_iterator::construct"
             (monthly_path (sink w) clock)
       /\ exists wr es, Fs.lookup (monthly_path (sink w) clock) (disk w')
                        = Some (Fs.Dir false wr es))
      \/ exists q, e = filesystem_error "create_directory" q)
  /\ (forall dir pattern w0,
        Fs.is_directory dir (disk w0) = false ->
        scan_next_index dir pattern w0 = (Ret 0, w0)).
Proof.
  rewrite consume_eq in Hrun. cbv zeta in Hrun.
  pose proof (checked_same_config formatted_message w) as (_ & Htarget & _).
  set (w1 := checked formatted_message w) in *.
  destruct (Ofstream.is_open (file_ (sink w1))) eqn:Hopen; [discriminate|].
  rewrite open_new_file_eq in Hrun.
  split; [|split; [|split]].
  - destruct (generate_filepath clock w1) as [[p|e0|] w2] eqn:Hgen.
    + destruct (Fs.create_directories _ _) as [[made|e1|] fs]; try discriminate.
      * destruct (Ofstream.open p (file_ (sink w1)) fs) as [f fs'].
        destruct (Ofstream.is_open f); discriminate.
      * injection Hrun as _ <-. exact Hopen.
    + apply generate_filepath_throw in Hgen as (-> & _). injection Hrun as _ <-.
      exact Hopen.
    + discriminate.
  - intros q. destruct (generate_filepath clock w1) as [[p|e0|] w2] eqn:Hgen.
    + pose proof (create_directories_contents (Fs.parent_path p) q (disk w1)) as Hc.
      destruct (Fs.create_directories _ _) as [[made|e1|] fs]; try discriminate.
      * destruct (Ofstream.open p (file_ (sink w1)) fs) as [f fs'].
        destruct (Ofstream.is_open f); discriminate.
      * injection Hrun as _ <-. exact Hc.
    + apply generate_filepath_throw in Hgen as (-> & _). injection Hrun as _ <-.
      reflexivity.
    + discriminate.
  - destruct (generate_filepath clock w1) as [[p|e0|] w2] eqn:Hgen.
    + right.
      destruct (Fs.create_directories _ _) as [[made|e1|] fs] eqn:Hdirs;
        try discriminate.
      * destruct (Ofstream.open p (file_ (sink w1)) fs) as [f fs'].
        destruct (Ofstream.is_open f); discriminate.
      * injection Hrun as <- _. eapply create_below_throw. exact Hdirs.
    + left. apply generate_filepath_throw in Hgen as (-> & -> & wr & es & Hdir).
      injection Hrun as <- <-. unfold monthly_path in *. rewrite Htarget in *.
      split; [reflexivity|]. eauto.
    + discriminate.
  - intros dir pattern w0 Hdir. rewrite scan_next_index_eq. now rewrite Hdir.
Qed.

(** C4, as amended, on the monthly directory that cannot be listed. *)
Lemma consume_exception_witness :
  let w := Example.fresh Example.svc
             (Example.dir [("var", Example.dir [("log",
                Example.dir [("2024-01", Fs.Dir false true ∅)])])]) in
  let w' := Example.after
              (consume (Example.at_ Example.jan1) (Example.stamped Example.jan1) "AAAA")
              w in
  Ofstream.is_open (file_ (sink w')) = false
  /\ (forall q, Fs.contents q (disk w') = Fs.contents q (disk (checked "AAAA" w)))
  /\ ((filesystem_error "directory_iterator::construct" ["var"; "log"; "2024-01"]
       = filesystem_error "directory_iterator::construct"
           (monthly_path (sink w) (Example.at_ Example.jan1))
       /\ exists wr es,
            Fs.lookup (monthly_path (sink w) (Example.at_ Example.jan1)) (disk w')
            = Some (Fs.Dir false wr es))
      \/ exists q, filesystem_error "directory_iterator::construct"
                     ["var"; "log"; "2024-01"]
                   = filesystem_error "create_directory" q)
  /\ (forall dir pattern w0,
        Fs.is_directory dir (disk w0) = false ->
        scan_next_index dir pattern w0 = (Ret 0, w0)).
Proof.
  intros w w'.
  apply (consume_exception (Example.at_ Example.jan1) (Example.stamped Example.jan1)
           "AAAA" w w'
           (filesystem_error "directory_iterator::construct" ["var"; "log"; "2024-01"])).
  vm_compute. reflexivity.
Defined.

(** ** A file that cannot be opened *)





(** C7 does not hold of the code for a sink whose suffix is [a|b].  The
    first record cannot be written, the monthly directory being
    read-only: [consume] returns and no file is open.  Before the second
    record the directory has become writable and a file has appeared at
    the path that could not be opened, holding [other].  The second call
    computes the path again, but the pattern made of the suffix does not
    match the file that has appeared, the scan returns index 0, and the
    call opens that very path: the file [other] is overwritten. *)
Lemma retry_reopens_taken_path :
  let taken := ["var"; "log"; "2024-01"; "2024-01-01_a|b.log"] in
  let first := consume (Example.at_ Example.jan1) (Example.stamped Example.jan1)
                 "AAAA"
                 (Example.fresh (cilog_backend_new Example.target "a|b" 50 true)
                    Example.read_only_january) in
  let fs2 := Example.january [("2024-01-01_a|b.log", Example.file "other")] in
  let second := consume (Example.at_ Example.jan1) (Example.stamped Example.jan1)
                  "BBBB" (later first.2 fs2) in
  first.1 = Ret tt
  /\ Ofstream.is_open (file_ (sink first.2)) = false
  /\ disk first.2 = Example.read_only_january
  /\ Fs.contents taken fs2 = Some "other"
  /\ second.1 = Ret tt
  /\ Ofstream.handle (file_ (sink second.2)) = Some taken
  /\ Fs.contents taken (disk second.2) = Some (lines ["BBBB"]).
Proof. vm_compute. repeat split; reflexivity. Qed.

(** ** Dates in names *)

Lemma digits2_inj n n' :
  0 <= n < 100 -> 0 <= n' < 100 -> Clock.digits2 n = Clock.digits2 n' -> n = n'.
Proof.
  intros Hn Hn'. unfold Clock.digits2. intros [= H1 H2].
  apply digit_char_inj in H1; [|apply Z.mod_pos_bound; lia ..].
  apply digit_char_inj in H2; [|apply Z.mod_pos_bound; lia ..].
  rewrite (Z.mod_small (n / 10)) in H1
    by (split; [apply Z.div_pos; lia | apply Z.div_lt_upper_bound; lia]).
  rewrite (Z.mod_small (n' / 10)) in H1
    by (split; [apply Z.div_pos; lia | apply Z.div_lt_upper_bound; lia]).
  rewrite (Z.div_mod n 10), (Z.div_mod n' 10) by lia. lia.
Qed.

Lemma digits4_inj n n' :
  0 <= n < 10000 -> 0 <= n' < 10000 -> Clock.digits4 n = Clock.digits4 n' -> n = n'.
Proof.
  intros Hn Hn'. unfold Clock.digits4. intros Heq.
  apply app_inv_size in Heq as [H1 H2]; [|reflexivity].
  apply digits2_inj in H1;
    [|split; [apply Z.div_pos; lia | apply Z.div_lt_upper_bound; lia] ..].
  apply digits2_inj in H2; [|apply Z.mod_pos_bound; lia ..].
  rewrite (Z.div_mod n 100), (Z.div_mod n' 100) by lia. lia.
Qed.

Lemma days_in_month_le y m : Clock.days_in_month y m <= 31.
Proof.
  unfold Clock.days_in_month.
  destruct (m =? 2); [destruct (Clock.is_leap y); lia|].
  destruct (_ || _); lia.
Qed.

Lemma ptime_bounds t :
  1400 <= year t <= 9999 /\ 1 <= month t <= 12 /\ 1 <= day t <= 31.
Proof.
  pose proof (ptime_ok t) as H. unfold Clock.valid_date in H.
  repeat (apply andb_prop in H as [H ?]).
  pose proof (days_in_month_le (year t) (month t)). lia.
Qed.

Lemma day_format_inj t t' :
  datetime_string_with_format t "%Y-%m-%d" = datetime_string_with_format t' "%Y-%m-%d" ->
  date_of t = date_of t'.
Proof.
  rewrite !day_format. intros Heq.
  pose proof (ptime_bounds t). pose proof (ptime_bounds t').
  apply (app_inv_size (Clock.digits4 _) (Clock.digits4 _)) in Heq as [Hy Heq];
    [|reflexivity].
  apply (app_inv_size "-" "-") in Heq as [_ Heq]; [|reflexivity].
  apply (app_inv_size (Clock.digits2 _) (Clock.digits2 _)) in Heq as [Hm Heq];
    [|reflexivity].
  apply (app_inv_size "-" "-") in Heq as [_ Hd]; [|reflexivity].
  apply digits4_inj in Hy; [|lia ..].
  apply digits2_inj in Hm; [|lia ..].
  apply digits2_inj in Hd; [|lia ..].
  unfold date_of. congruence.
Qed.

Lemma month_format_inj t t' :
  datetime_string_with_format t "%Y-%m" = datetime_string_with_format t' "%Y-%m" ->
  month_of t = month_of t'.
Proof.
  rewrite !month_format. intros Heq.
  pose proof (ptime_bounds t). pose proof (ptime_bounds t').
  apply (app_inv_size (Clock.digits4 _) (Clock.digits4 _)) in Heq as [Hy Heq];
    [|reflexivity].
  apply (app_inv_size "-" "-") in Heq as [_ Hm]; [|reflexivity].
  apply digits4_inj in Hy; [|lia ..].
  apply digits2_inj in Hm; [|lia ..].
  unfold month_of. congruence.
Qed.

(** The date at the head of a built name. *)
Lemma build_filename_prefix prefix prefix' n n' suffix suffix' :
  Str.size prefix = Str.size prefix' ->
  build_filename prefix n suffix = build_filename prefix' n' suffix' ->
  prefix = prefix'.
Proof.
  unfold build_filename. intros Hsize Heq.
  now apply app_inv_size in Heq as [-> _].
Qed.

(** C2, as stated, fails: of two records, one at 23:59:59 on 2024-01-31
    and one at 00:00:01 on 2024-02-01, both are in the file of 2024-01-31,
    and no directory is made for February. *)
Lemma no_rotation_at_midnight :
  let w' :=
    Example.after
      (consume_all [(Example.at_ Example.jan31, Example.stamped Example.jan31, "a");
                    (Example.at_ Example.feb1, Example.stamped Example.feb1, "b")])
      (Example.fresh Example.svc Example.empty_log) in
  Fs.contents ["var"; "log"; "2024-01"; "2024-01-31_svc.log"] (disk w') = Some "a
b
"
  /\ Fs.exists_ ["var"; "log"; "2024-02"] (disk w') = false.
Proof. vm_compute. split; reflexivity. Qed.

(** C2, as amended.  The sink does not rotate by time.  A call that keeps
    the open file does the same whatever the clock shows and whatever
    record it is given, and puts the record into that file.  The date is
    read when a path is computed: two paths computed on different calendar
    days have different file names, and two paths computed in different
    months lie in different directories. *)
Theorem date_read_at_open :
  (forall clock clock' rec rec' formatted_message w,
     opens_new_file formatted_message w = false ->
     consume clock rec formatted_message w = consume clock' rec' formatted_message w
     /\ forall data,
          Ofstream.written (file_ (sink w)) (disk w) = Some data ->
          exists w',
            consume clock rec formatted_message w = (Ret tt, w')
            /\ Ofstream.handle (file_ (sink w')) = Ofstream.handle (file_ (sink w))
            /\ file_path_ (sink w') = file_path_ (sink w))
  /\ (forall clock1 clock2 w1 w2 p1 p2 w1' w2',
        generate_filepath clock1 w1 = (Ret p1, w1') ->
        generate_filepath clock2 w2 = (Ret p2, w2') ->
        (date_of (first_read clock1) <> date_of (first_read clock2) ->
         Fs.filename p1 <> Fs.filename p2)
        /\ (month_of (second_read clock1) <> month_of (second_read clock2) ->
            Fs.parent_path p1 <> Fs.parent_path p2)).
Proof.
  split.
  - intros clock clock' rec rec' msg w Hsteady.
    destruct (steady_good _ _ Hsteady) as (Hchecked & Hopen & Hgood & _).
    assert (Hrun : forall c r, consume c r msg w = (Ret tt, recorded msg w)).
    { intros c r. rewrite consume_eq. cbv zeta. now rewrite Hchecked, Hopen. }
    split; [now rewrite !Hrun|].
    intros data Hdata. exists (recorded msg w). split; [apply Hrun|].
    unfold Ofstream.is_open in Hopen.
    destruct (Ofstream.handle (file_ (sink w))) as [p|] eqn:Hh; [|discriminate].
    destruct (recorded_spec msg w p data Hh Hgood Hdata) as (H1 & _ & _ & _ & H5 & _).
    auto.
  - intros clock1 clock2 w1 w2 p1 p2 w1' w2' Hgen1 Hgen2.
    apply generate_filepath_eq in Hgen1 as (_ & pat1 & n1 & _ & _ & ->).
    apply generate_filepath_eq in Hgen2 as (_ & pat2 & n2 & _ & _ & ->).
    rewrite !filename_snoc, !parent_path_snoc. split.
    + intros Hdate Hname. apply Hdate, day_format_inj.
      eapply build_filename_prefix; [|exact Hname].
      now rewrite !day_format_size.
    + intros Hmonth Hdir. apply Hmonth, month_format_inj.
      unfold monthly_path in Hdir. now apply app_inj_tail in Hdir as [_ ?].
Qed.

(** C2, as amended, on the file that [svc_open] has open since
    2024-01-01 when a record arrives on 2024-02-01, and on the paths
    computed for a new sink on 2024-01-31 and on 2024-02-01. *)
Lemma date_read_at_open_witness :
  (exists w',
     consume (Example.at_ Example.feb1) (Example.stamped Example.feb1) "b"
       Example.svc_open = (Ret tt, w')
     /\ Ofstream.handle (file_ (sink w'))
        = Some ["var"; "log"; "2024-01"; "2024-01-01_svc.log"]
     /\ file_path_ (sink w') = ["var"; "log"; "2024-01"; "2024-01-01_svc.log"])
  /\ Fs.filename ["var"; "log"; "2024-01"; "2024-01-31_svc.log"]
     <> Fs.filename ["var"; "log"; "2024-02"; "2024-02-01_svc.log"]
  /\ Fs.parent_path ["var"; "log"; "2024-01"; "2024-01-31_svc.log"]
     <> Fs.parent_path ["var"; "log"; "2024-02"; "2024-02-01_svc.log"].
Proof.
  destruct date_read_at_open as [Hkept Hdates].
  split.
  - destruct (Hkept (Example.at_ Example.feb1) (Example.at_ Example.jan1)
                (Example.stamped Example.feb1) (Example.stamped Example.jan1)
                "b" Example.svc_open eq_refl) as [_ Hsame].
    apply (Hsame "AAAA
"). vm_compute. reflexivity.
  - destruct (Hdates (Example.at_ Example.jan31) (Example.at_ Example.feb1)
                (Example.fresh Example.svc Example.empty_log)
                (Example.fresh Example.svc Example.empty_log)
                ["var"; "log"; "2024-01"; "2024-01-31_svc.log"]
                ["var"; "log"; "2024-02"; "2024-02-01_svc.log"]
                (Example.fresh Example.svc Example.empty_log)
                (Example.fresh Example.svc Example.empty_log)
                ltac:(vm_compute; reflexivity) ltac:(vm_compute; reflexivity))
      as [Hname Hdir].
    split; [apply Hname | apply Hdir]; vm_compute; discriminate.
Defined.

(** ** Runs of records *)

Lemma lines_cons m msgs : lines (m :: msgs) = m +:+ String "010" (lines msgs).
Proof. reflexivity. Qed.


Lemma lines_app msgs msgs' : lines (msgs ++ msgs') = lines msgs +:+ lines msgs'.
Proof.
  induction msgs as [|m msgs IH]; [reflexivity|].
  rewrite <- app_comm_cons, !lines_cons, IH.
  rewrite append_assoc. reflexivity.
Qed.


Lemma consume_all_app calls calls' w :
  consume_all (calls ++ calls') w =
    match consume_all calls w with
    | (Ret _, w1) => consume_all calls' w1
    | (Throw e, w1) => (Throw e, w1)
    | (Unmodelled, w1) => (Unmodelled, w1)
    end.
Proof.
  revert w. induction calls as [|[[clock rec] msg] calls IH]; intros w; [reflexivity|].
  simpl. unfold mbind, M_bind.
  destruct (consume clock rec msg w) as [[[]|e|] w1]; try reflexivity.
  apply IH.
Qed.

Lemma consume_all_one clock rec msg w :
  consume_all [(clock, rec, msg)] w = consume clock rec msg w.
Proof.
  simpl. unfold mbind, M_bind, mret, M_ret.
  destruct (consume clock rec msg w) as [[[]|e|] w1]; reflexivity.
Qed.






(** C1 does not hold of the code for a sink whose suffix is [a|b].  The
    file [2024-01-01_a|b.log] is open and holds the records [AAAA] and
    [CC], 8 bytes; a record of 50 bytes arrives, the rotation size being
    50.  The sink rotates, but the pattern that [generate_filepath] makes
    of the suffix does not match the file the sink has just closed, the
    scan returns index 0, and the call opens the same path again: the
    record is written to the file that was open before, which has lost the
    records [AAAA] and [CC]. *)
Lemma rotation_reopens_own_file :
  let record := "BBBBBBBBBBBBBBBBBBBBBBBBBBBBBBBBBBBBBBBBBBBBBBBBBB" in
  let old := ["var"; "log"; "2024-01"; "2024-01-01_a|b.log"] in
  let arrived :=
    (consume_all [(Example.at_ Example.jan1, Example.stamped Example.jan1, "AAAA");
                  (Example.at_ Example.jan1, Example.stamped Example.jan1, "CC")]
       (Example.fresh (cilog_backend_new Example.target "a|b" 50 true)
          Example.empty_log)).2 in
  let result := consume (Example.at_ Example.jan1) (Example.stamped Example.jan1)
                  record arrived in
  Ofstream.handle (file_ (sink arrived)) = Some old
  /\ Fs.contents old (disk arrived) = Some (lines ["AAAA"; "CC"])
  /\ characters_written_ (sink arrived) = 8
  /\ must_rotate record (sink arrived) = true
  /\ result.1 = Ret tt
  /\ Ofstream.handle (file_ (sink result.2)) = Some old
  /\ Fs.contents old (disk result.2) = Some (lines [record]).
Proof. vm_compute. repeat split; reflexivity. Qed.

(** * Further properties *)

(** ** Further properties of the scan *)

Lemma matched_indices_elem pattern entries i :
  i ∈ matched_indices pattern entries ->
  exists it, it ∈ entries /\ Regex.regex_match (Fs.filename it) pattern = true
             /\ i = parse_index (Fs.filename it).
Proof.
  unfold matched_indices. intros Hi.
  apply list_elem_of_fmap in Hi as (name & -> & Hname).
  apply list_elem_of_filter in Hname as [Hm Hname].
  apply list_elem_of_fmap in Hname as (it & -> & Hit).
  now exists it.
Qed.

(** X1 ([scan_next_index]): the loop never yields less for a directory
    that holds more: when every entry of one listing is among those of
    another, the next index of the first is at most that of the second.
    Hence two listings of the same entries, in whatever order and with
    whatever repetitions, give the same next index. *)
Theorem scan_entries_monotone (pattern : Regex.regex) (entries entries' : list path)
    (Hsub : entries ⊆ entries') :
  scan_entries pattern entries 0 <= scan_entries pattern entries' 0
  /\ (entries' ⊆ entries ->
      scan_entries pattern entries 0 = scan_entries pattern entries' 0).
Proof.
  assert (Hle : forall l l' : list path, l ⊆ l' ->
            scan_entries pattern l 0 <= scan_entries pattern l' 0).
  { intros l l' Hl. rewrite (scan_entries_max pattern l).
    apply foldr_max_upper.
    - rewrite scan_entries_max. apply foldr_max_ge.
    - apply Forall_forall. intros i Hi.
      apply matched_indices_elem in Hi as (it & Hit & Hm & ->).
      apply scan_entries_lower; [apply Hl, Hit | exact Hm]. }
  split; [now apply Hle|].
  intros Hsup. apply Z.le_antisymm; now apply Hle.
Qed.

Lemma scan_entries_monotone_witness :
  let pattern := [filename_pattern "2024-01-01" "svc"] in
  let one := [["log"; "2024-01-01[3]_svc.log"]] in
  let two := [["log"; "2024-01-01[7]_svc.log"]; ["log"; "2024-01-01[3]_svc.log"]] in
  scan_entries pattern one 0 <= scan_entries pattern two 0
  /\ (two ⊆ one -> scan_entries pattern one 0 = scan_entries pattern two 0).
Proof.
  intros pattern one two. apply (scan_entries_monotone pattern one two).
  intros it Hit. apply list_elem_of_singleton in Hit as ->.
  apply list_elem_of_further, list_elem_of_here.
Defined.

(** ** Further properties of [parse_index] *)

Lemma find_from_absent c s i :
  all_chars (fun a => negb (Ascii.eqb a c)) s = true -> Str.find_from c s i = Str.npos.
Proof.
  revert i. induction s as [|a s IH]; intros i; simpl; [reflexivity|].
  intros [Ha Hs]%andb_prop. apply negb_true_iff in Ha. rewrite Ha. now apply IH.
Qed.

Lemma find_from_present c s t i :
  all_chars (fun a => negb (Ascii.eqb a c)) s = false ->
  i <= Str.find_from c (s +:+ t) i < i + Str.size s.
Proof.
  revert i. induction s as [|a s IH]; intros i; simpl; [discriminate|].
  rewrite size_cons. pose proof (size_nonneg s).
  destruct (Ascii.eqb a c); simpl; [lia|].
  intros Hs. specialize (IH (i + 1) Hs). lia.
Qed.

Lemma substring_app_long s t k :
  (String.length s <= k)%nat ->
  String.substring 0 k (s +:+ t) = s +:+ String.substring 0 (k - String.length s) t.
Proof.
  revert k. induction s as [|a s IH]; intros k Hk; simpl in *.
  - now rewrite Nat.sub_0_r.
  - destruct k as [|k]; [lia|]. simpl. f_equal. apply IH. lia.
Qed.

Lemma parse_index_absent name :
  all_chars (fun a => negb (Ascii.eqb a "[")) name = true
  \/ all_chars (fun a => negb (Ascii.eqb a "]")) name = true ->
  parse_index name = 0.
Proof.
  unfold parse_index, Str.find.
  intros [H|H]; rewrite (find_from_absent _ _ 0 H), Z.eqb_refl; simpl;
    [reflexivity | now rewrite andb_false_r].
Qed.

Lemma parse_index_built prefix n suffix :
  all_chars date_char prefix = true -> Str.size prefix < 2 ^ 32 ->
  plain_suffix suffix = true -> 0 <= n <= 2 ^ 31 - 1 ->
  parse_index (build_filename prefix n suffix) = n.
Proof.
  intros Hpre Hsize Hplain Hn.
  destruct (Z.eq_dec n 0) as [->|Hpos]; [|apply parse_index_build; (assumption || lia)].
  apply parse_index_absent. left.
  unfold build_filename. change (0 >? 0) with false. cbv iota.
  rewrite !all_chars_app.
  rewrite (no_bracket_chars date_char "["%char _
             (fun a Ha => proj1 (date_char_cases a Ha)) Hpre).
  assert (Hs : all_chars (fun a => negb (Ascii.eqb a "[")) suffix = true).
  { revert Hplain. unfold plain_suffix. apply all_chars_impl.
    intros c. unfold plain_char.
    destruct c as [[] [] [] [] [] [] [] []]; try discriminate; reflexivity. }
  rewrite Hs. reflexivity.
Qed.

(** X2 ([parse_index] with the name that [generate_filepath] builds): the
    index that is written into a name is the index that is read from it,
    for every positive index that is an [int]; and the name without an
    index reads as index 0 when the suffix has no special character. *)
Theorem index_round_trip (t : ptime) (suffix : string) :
  (forall n, 1 <= n <= 2 ^ 31 - 1 ->
     parse_index (build_filename (datetime_string_with_format t "%Y-%m-%d") n suffix)
     = n)
  /\ (plain_suffix suffix = true ->
      parse_index (build_filename (datetime_string_with_format t "%Y-%m-%d") 0 suffix)
      = 0).
Proof.
  split.
  - intros n Hn. apply parse_index_build; [apply day_format_chars| |exact Hn].
    rewrite day_format_size. lia.
  - intros Hplain. apply parse_index_built; [apply day_format_chars| |exact Hplain|lia].
    rewrite day_format_size. lia.
Qed.

Lemma index_round_trip_witness :
  parse_index (build_filename (datetime_string_with_format Example.jan1 "%Y-%m-%d")
                 2147483647 "svc") = 2147483647
  /\ parse_index (build_filename (datetime_string_with_format Example.jan1 "%Y-%m-%d")
                    0 "svc") = 0.
Proof.
  split.
  - apply (proj1 (index_round_trip Example.jan1 "svc")). lia.
  - apply (proj2 (index_round_trip Example.jan1 "svc")). reflexivity.
Defined.

(** X3 ([parse_index]): what is read is the number that follows the first
    opening bracket, wherever the closing bracket stands: for a name in
    which the first [[] is followed by the digits of [n] and then by a
    character that is no digit, the index is [n] as soon as the name has
    a []] at all, before or after; without a []] the index is 0. *)
Theorem parse_index_first_bracket (pre rest : string) (c : ascii) (n : Z) :
  let name := pre +:+ String "[" (Str.decimal n +:+ String c rest) in
  (all_chars (fun a => negb (Ascii.eqb a "[")) pre = true ->
   Str.isdigit c = false ->
   0 <= n <= 2 ^ 31 - 1 ->
   Str.size name < 2 ^ 64 - 1 ->
   Str.find "]" name <> Str.npos ->
   parse_index name = n)
  /\ (all_chars (fun a => negb (Ascii.eqb a "]")) name = true ->
      parse_index name = 0).
Proof.
  intros name. split; [|intros H; apply parse_index_absent; now right].
  intros Hpre Hc Hn Hsize Hend.
  set (d := Str.decimal n) in *.
  assert (Hname : Str.size name = Str.size pre + 1 + Str.size d + 1 + Str.size rest).
  { unfold name. rewrite size_app, size_cons, size_app, size_cons. lia. }
  pose proof (size_nonneg pre) as Hp0. pose proof (size_nonneg d) as Hd0.
  pose proof (size_nonneg rest) as Hr0.
  assert (Hb : Str.find "[" name = Str.size pre).
  { unfold Str.find, name. rewrite find_from_skip by assumption.
    rewrite find_from_here. lia. }
  assert (Hdec : all_chars (fun a => negb (Ascii.eqb a "]")) d = true).
  { apply (no_bracket_chars Str.isdigit); [|apply decimal_digits; lia].
    intros a Ha. now destruct (isdigit_not_bracket a Ha). }
  assert (He : 0 <= Str.find "]" name < Str.size pre
               \/ Str.size pre + 1 + Str.size d <= Str.find "]" name < Str.size name).
  { destruct (all_chars (fun a => negb (Ascii.eqb a "]")) pre) eqn:Hpe.
    - right. pose proof (find_lt_size "]" name Hend) as Hlt.
      split; [|lia]. revert Hend. unfold Str.find, name.
      rewrite find_from_skip by assumption. simpl.
      rewrite find_from_skip by assumption. intros Hend.
      destruct (find_from_range "]" (String c rest) (0 + Str.size pre + 1 + Str.size d))
        as [Hno|Hin]; [contradiction|lia].
    - left. unfold Str.find, name.
      pose proof (find_from_present "]" pre (String "[" (d +:+ String c rest)) 0 Hpe).
      lia. }
  unfold parse_index. rewrite Hb.
  replace (Str.size pre =? Str.npos) with false
    by (symmetry; apply Z.eqb_neq; unfold Str.npos; lia).
  replace (Str.find "]" name =? Str.npos) with false
    by (symmetry; now apply Z.eqb_neq).
  simpl negb. simpl andb. cbv iota.
  assert (Hlen : Str.size d + 1
                 <= Z.min (wrap64 (Str.find "]" name - Str.size pre))
                      (Str.size name - wrap64 (Str.size pre + 1))).
  { unfold wrap64. rewrite (Z.mod_small (Str.size pre + 1)) by lia.
    apply Z.min_glb; [|lia].
    destruct He as [He|He].
    - replace (Str.find "]" name - Str.size pre)
        with (2 ^ 64 + (Str.find "]" name - Str.size pre) + (-1) * 2 ^ 64) by lia.
      rewrite Z.mod_add by lia. rewrite Z.mod_small by lia. lia.
    - rewrite Z.mod_small by lia. lia. }
  unfold Str.substr.
  set (k := Z.min _ _) in *.
  replace (wrap64 (Str.size pre + 1)) with (Str.size (pre +:+ "["))
    by (rewrite size_app; change (Str.size "[") with 1; unfold wrap64;
        rewrite Z.mod_small; lia).
  replace name with ((pre +:+ "[") +:+ (d +:+ String c rest))
    by (unfold name; rewrite append_assoc; reflexivity).
  unfold Str.size at 1. rewrite Nat2Z.id, substring_skip.
  rewrite substring_app_long by (unfold Str.size in Hlen; lia).
  assert (Hk : exists m, (Z.to_nat k - String.length d)%nat = S m).
  { exists (Z.to_nat k - String.length d - 1)%nat. unfold Str.size in Hlen. lia. }
  destruct Hk as [m ->]. simpl String.substring.
  unfold d. rewrite atoi_decimal by (assumption || lia).
  unfold wrap32. apply Z.mod_small. lia.
Qed.

Lemma parse_index_first_bracket_witness :
  parse_index ("a]b" +:+ String "[" (Str.decimal 5 +:+ String "x" "yz")) = 5.
Proof.
  apply (proj1 (parse_index_first_bracket "a]b" "yz" "x" 5));
    [reflexivity | reflexivity | lia | vm_compute; reflexivity
     | vm_compute; discriminate].
Defined.

(** ** The names that the scan counts *)

Lemma literal_char_plain c : literal_char c = true -> plain_char c = true.
Proof. unfold literal_char, plain_char. now intros ->. Qed.

Lemma literal_char_item c :
  literal_char c = true -> item_of_char c = Regex.One (Regex.Chr c).
Proof.
  unfold literal_char, item_of_char.
  destruct (Ascii.eqb_spec c ".") as [->|_]; [discriminate|reflexivity].
Qed.

Lemma match_lit_items_inv s b name :
  all_chars literal_char s = true ->
  Regex.match_branch (lit_items s ++ b) name = true ->
  exists t, name = s +:+ t /\ Regex.match_branch b t = true.
Proof.
  revert name. induction s as [|c s IH]; intros name; simpl.
  - intros _ H. now exists name.
  - intros [Hc Hs]%andb_prop. rewrite (literal_char_item c Hc).
    destruct name as [|a name]; [discriminate|].
    cbn [Regex.atom_ok]. intros [Ha Hm]%andb_prop.
    apply Ascii.eqb_eq in Ha as <-.
    destruct (IH name Hs Hm) as (t & -> & Ht). now exists t.
Qed.

(** X4 ([generate_filepath], the pattern it scans with): for a suffix
    without special characters, the names that count in the scan are
    exactly the date, any run of brackets and digits, an underscore, the
    suffix, any one character, and [log].  So the pattern asks neither
    for a well-formed index nor for the dot before [log]. *)
Theorem counted_names (t : ptime) (suffix : string)
    (Hsuffix : literal_suffix suffix = true) :
  let prefix := datetime_string_with_format t "%Y-%m-%d" in
  exists pattern,
    Regex.compile (prefix +:+ "[\[\]0-9]*" +:+ "_" +:+ suffix +:+ ".log") = Some pattern
    /\ forall name,
         Regex.regex_match name pattern = true <->
         exists body c,
           all_chars (Regex.atom_ok index_class) body = true
           /\ name = prefix +:+ body +:+ "_" +:+ suffix +:+ String c "log".
Proof.
  intros prefix.
  assert (Hdate : all_chars date_char prefix = true) by apply day_format_chars.
  clearbody prefix. exists [filename_pattern prefix suffix].
  assert (Hprefix : all_chars literal_char prefix = true).
  { revert Hdate. apply all_chars_impl.
    intros c Hc. unfold literal_char.
    destruct (date_char_cases c Hc) as (_ & _ & _ & _ & -> & _). reflexivity. }
  split.
  { apply compile_filename_pattern; [exact Hdate|].
    revert Hsuffix. apply all_chars_impl, literal_char_plain. }
  intros name. unfold Regex.regex_match. cbn [existsb]. rewrite orb_false_r.
  unfold filename_pattern.
  change ([Regex.Star index_class; Regex.One (Regex.Chr "_")] ++ ?l)
    with (Regex.Star index_class :: (Regex.One (Regex.Chr "_") :: l)).
  split.
  - intros Hm.
    apply match_lit_items_inv in Hm as (t1 & -> & Hm); [|exact Hprefix].
    apply match_star_split in Hm as (body & t2 & -> & Hbody & Hm).
    destruct t2 as [|a t2]; [discriminate|].
    cbn [Regex.match_branch Regex.atom_ok] in Hm.
    apply andb_prop in Hm as [Ha Hm]. apply Ascii.eqb_eq in Ha as <-.
    apply match_lit_items_inv in Hm as (t3 & -> & Hm); [|exact Hsuffix].
    exists body.
    destruct t3 as [|c [|l [|o [|g t4]]]];
      cbn [Regex.match_branch Regex.atom_ok] in Hm;
      rewrite ?andb_false_r in Hm; try discriminate Hm.
    apply andb_prop in Hm as [_ Hm].
    apply andb_prop in Hm as [Hl Hm]. apply Ascii.eqb_eq in Hl as <-.
    apply andb_prop in Hm as [Ho Hm]. apply Ascii.eqb_eq in Ho as <-.
    apply andb_prop in Hm as [Hg Hm]. apply Ascii.eqb_eq in Hg as <-.
    destruct t4; [|discriminate Hm].
    exists c. split; [exact Hbody|reflexivity].
  - intros (body & c & Hbody & ->).
    rewrite match_lit_items.
    apply match_star_chars; [exact Hbody|].
    cbn [Regex.match_branch Regex.atom_ok String.append]. rewrite Ascii.eqb_refl.
    simpl andb. rewrite match_lit_items. reflexivity.
Qed.

Lemma counted_names_witness :
  exists pattern,
    Regex.compile (datetime_string_with_format Example.jan1 "%Y-%m-%d"
                   +:+ "[\[\]0-9]*" +:+ "_" +:+ "svc" +:+ ".log") = Some pattern
    /\ forall name,
         Regex.regex_match name pattern = true <->
         exists body c,
           all_chars (Regex.atom_ok index_class) body = true
           /\ name = datetime_string_with_format Example.jan1 "%Y-%m-%d"
                     +:+ body +:+ "_" +:+ "svc" +:+ String c "log".
Proof. apply (counted_names Example.jan1 "svc"). reflexivity. Defined.

(** ** What every call of [consume] keeps *)

Lemma generate_filepath_world clock w : (generate_filepath clock w).2 = w.
Proof.
  unfold generate_filepath, mbind, M_bind, this, modelled.
  destruct (Fs.div (target_path_ (sink w)) _) as [monthly|]; [|reflexivity].
  destruct (Regex.compile _) as [pattern|]; [|reflexivity].
  rewrite scan_next_index_eq.
  destruct (Fs.is_directory _ _).
  - destruct (Fs.directory_entries _ _); try reflexivity.
    destruct (Fs.div _ _); reflexivity.
  - destruct (Fs.div _ _); reflexivity.
Qed.

Lemma open_closed_cases p f fs :
  Ofstream.is_open f = false ->
  (exists fs', Fs.open_out p fs = Some fs'
               /\ Ofstream.open p f fs
                  = ({| Ofstream.handle := Some p; Ofstream.pending := "";
                        Ofstream.failbit := false; Ofstream.badbit := false |}, fs'))
  \/ (Fs.open_out p fs = None
      /\ Ofstream.open p f fs = (Ofstream.setstate_fail f, fs)).
Proof.
  unfold Ofstream.is_open, Ofstream.open.
  destruct (Ofstream.handle f); [discriminate|]. intros _.
  destruct (Fs.open_out p fs) as [fs'|]; [left; now exists fs' | now right].
Qed.

(** A call of [open_new_file] that does not open a file leaves the stream
    closed and every file as it was. *)
Lemma open_new_file_not_open clock w r w' :
  Ofstream.is_open (file_ (sink w)) = false ->
  open_new_file clock w = (r, w') -> r <> Ret true ->
  Ofstream.is_open (file_ (sink w')) = false
  /\ forall q, Fs.contents q (disk w') = Fs.contents q (disk w).
Proof.
  intros Hclosed. rewrite open_new_file_eq.
  pose proof (generate_filepath_world clock w) as Hw.
  destruct (generate_filepath clock w) as [[p|e|] w0]; simpl in Hw; subst w0.
  - pose proof (fun q => create_directories_contents (Fs.parent_path p) q (disk w))
      as Hdirs.
    destruct (Fs.create_directories (Fs.parent_path p) (disk w)) as [[made|e|] fs];
      simpl in Hdirs.
    + destruct (open_closed_cases p (file_ (sink w)) fs Hclosed)
        as [(fs' & _ & ->)|[_ ->]]; simpl.
      * intros [= <- _] H. now contradiction H.
      * change (Ofstream.is_open (Ofstream.setstate_fail (file_ (sink w))))
          with (Ofstream.is_open (file_ (sink w))).
        rewrite Hclosed.
        intros [= <- <-] _. simpl. split; [exact Hclosed|]. intros q. apply Hdirs.
    + intros [= <- <-] _. simpl. split; [exact Hclosed|]. intros q. apply Hdirs.
    + intros [= <- <-] _. simpl. split; [exact Hclosed|]. intros q. apply Hdirs.
  - intros [= <- <-] _. now split.
  - intros [= <- <-] _. now split.
Qed.

Lemma open_new_file_config clock w :
  same_config (sink w) (sink (open_new_file clock w).2).
Proof.
  rewrite open_new_file_eq.
  pose proof (generate_filepath_world clock w) as Hw.
  destruct (generate_filepath clock w) as [[p|e|] w0]; simpl in Hw; subst w0;
    try apply same_config_refl.
  destruct (Fs.create_directories (Fs.parent_path p) (disk w)) as [[made|e|] fs];
    try (repeat split; reflexivity).
  destruct (Ofstream.open p (file_ (sink w)) fs) as [f fs'].
  destruct (Ofstream.is_open f); repeat split; reflexivity.
Qed.

Lemma recorded_config msg w : same_config (sink w) (sink (recorded msg w)).
Proof.
  unfold recorded. destruct (auto_flush_ (sink w)); [|repeat split; reflexivity].
  destruct (Ofstream.flush _ _) as [f' fs]. repeat split; reflexivity.
Qed.

Lemma consume_config clock rec msg w :
  same_config (sink w) (sink (consume clock rec msg w).2).
Proof.
  rewrite consume_eq. cbv zeta.
  pose proof (checked_same_config msg w) as H1.
  destruct (Ofstream.is_open (file_ (sink (checked msg w)))).
  - simpl. eapply same_config_trans; [exact H1|apply recorded_config].
  - pose proof (open_new_file_config clock (checked msg w)) as H2.
    destruct (open_new_file clock (checked msg w)) as [[[]|e|] w2]; simpl in *;
      try (eapply same_config_trans; [exact H1|exact H2]).
    eapply same_config_trans; [exact H1|].
    eapply same_config_trans; [exact H2|apply recorded_config].
Qed.

Lemma consume_all_cons clock rec msg calls w :
  consume_all ((clock, rec, msg) :: calls) w =
    match consume clock rec msg w with
    | (Ret _, w1) => consume_all calls w1
    | (Throw e, w1) => (Throw e, w1)
    | (Unmodelled, w1) => (Unmodelled, w1)
    end.
Proof. reflexivity. Qed.

(** An invariant of [consume] is an invariant of every run. *)
Lemma consume_all_invariant (inv : world -> Prop) (ok : string -> Prop) calls :
  (forall clock rec msg w,
     ok msg -> inv w -> inv (consume clock rec msg w).2) ->
  Forall ok (messages calls) ->
  forall w, inv w -> inv (consume_all calls w).2.
Proof.
  intros Hstep. induction calls as [|[[clock rec] msg] calls IH]; intros Hok w Hw.
  - exact Hw.
  - apply Forall_cons in Hok as [Hmsg Hok].
    rewrite consume_all_cons.
    specialize (Hstep clock rec msg w Hmsg Hw).
    destruct (consume clock rec msg w) as [[[]|e|] w1]; simpl in *;
      [now apply IH | exact Hstep | exact Hstep].
Qed.

(** X5 ([consume], through all its branches): no run of calls changes what
    the constructor was given: the target directory, the suffix, the
    rotation size and the flush setting are the same after any number of
    records, however the calls end. *)
Theorem configuration_kept (calls : list call) (w : world) :
  same_config (sink w) (sink (consume_all calls w).2).
Proof.
  apply (consume_all_invariant (fun w' => same_config (sink w) (sink w'))
           (fun _ => True)).
  - intros clock rec msg w1 _ H1.
    eapply same_config_trans; [exact H1|apply consume_config].
  - apply Forall_forall. auto.
  - apply same_config_refl.
Qed.

Lemma wrap64_add a b : wrap64 (wrap64 a + wrap64 b) = wrap64 (a + b).
Proof. unfold wrap64. now rewrite <- Z.add_mod by lia. Qed.

Lemma consume_counter_exact clock rec msg w :
  counter_exact w -> counter_exact (consume clock rec msg w).2.
Proof.
  intros Hinv. rewrite consume_eq. cbv zeta.
  destruct (Ofstream.is_open (file_ (sink (checked msg w)))) eqn:Hopen.
  - rewrite checked_open in Hopen. apply negb_true_iff in Hopen.
    destruct (steady_good msg w Hopen) as (-> & Hwopen & Hgood & _). simpl.
    unfold counter_exact in Hinv. unfold Ofstream.is_open in Hwopen.
    destruct (Ofstream.handle (file_ (sink w))) as [p|] eqn:Hh; [|discriminate].
    destruct Hinv as (Hp & _ & data & Hdata & Hcount).
    destruct (recorded_spec msg w p data Hh Hgood Hdata)
      as (Hh' & Hgood' & Hdata' & Hcount' & Hp' & _).
    unfold counter_exact. rewrite Hh'. split; [congruence|]. split; [exact Hgood'|].
    eexists. split; [exact Hdata'|].
    rewrite Hcount', Hcount, wrap64_add.
    f_equal. rewrite !size_app. change (Str.size "
") with 1. lia.
  - destruct (open_new_file clock (checked msg w)) as [[[]|e|] w2] eqn:Hnew; simpl.
    + destruct (open_new_file_true clock _ w2 Hopen Hnew)
        as (p & made & fs & _ & _ & _ & Hh & Hgood & Hdata & Hcount & Hp & _).
      destruct (recorded_spec msg w2 p "" Hh Hgood Hdata)
        as (Hh' & Hgood' & Hdata' & Hcount' & Hp' & _).
      unfold counter_exact. rewrite Hh'. split; [congruence|]. split; [exact Hgood'|].
      eexists. split; [exact Hdata'|].
      rewrite Hcount', Hcount.
      change 0 with (wrap64 (Str.size "")). rewrite wrap64_add.
      f_equal. rewrite !size_app. change (Str.size "
") with 1. lia.
    + apply (open_new_file_not_open clock _ _ _ Hopen) in Hnew as [Hc _];
        [|discriminate].
      unfold counter_exact. unfold Ofstream.is_open in Hc.
      now destruct (Ofstream.handle (file_ (sink w2))).
    + apply (open_new_file_not_open clock _ _ _ Hopen) in Hnew as [Hc _];
        [|discriminate].
      unfold counter_exact. unfold Ofstream.is_open in Hc.
      now destruct (Ofstream.handle (file_ (sink w2))).
    + apply (open_new_file_not_open clock _ _ _ Hopen) in Hnew as [Hc _];
        [|discriminate].
      unfold counter_exact. unfold Ofstream.is_open in Hc.
      now destruct (Ofstream.handle (file_ (sink w2))).
Qed.

(** X6 ([consume] from the constructor on): after any run of calls on a
    newly constructed sink, however it ends, a stream that is open is
    good, [file_path_] is the path it writes to, and
    [characters_written_] is the number of bytes the stream has put into
    that file since it opened it, modulo 2^64. *)
Theorem counter_counts_bytes (target_path : path) (file_name_suffix : string)
    (rotation_size : Z) (auto_flush : bool) (fs : Fs.node) (calls : list call) :
  counter_exact
    (consume_all calls
       {| sink := cilog_backend_new target_path file_name_suffix
                    rotation_size auto_flush;
          disk := fs |}).2.
Proof.
  apply (consume_all_invariant counter_exact (fun _ => True)).
  - intros clock rec msg w _. apply consume_counter_exact.
  - apply Forall_forall. auto.
  - exact I.
Qed.

Lemma consume_size_kept (sent : string -> Prop) clock rec msg w :
  (forall m, sent m -> Str.size m < 2 ^ 63) -> sent msg ->
  rotation_size_ (sink w) < 2 ^ 63 ->
  size_kept sent w -> size_kept sent (consume clock rec msg w).2.
Proof.
  intros Hsent Hmsg Hrot Hinv. pose proof (Hsent msg Hmsg) as Hsize.
  pose proof (size_nonneg msg) as Hmsg0.
  rewrite consume_eq. cbv zeta.
  destruct (Ofstream.is_open (file_ (sink (checked msg w)))) eqn:Hopen.
  - rewrite checked_open in Hopen. apply negb_true_iff in Hopen.
    destruct (steady_good msg w Hopen) as (-> & Hwopen & Hgood & Hroom). simpl.
    unfold size_kept in Hinv. unfold Ofstream.is_open in Hwopen.
    destruct (Ofstream.handle (file_ (sink w))) as [p|] eqn:Hh; [|discriminate].
    destruct Hinv as (_ & data & Hdata & Hcount & Hlimit).
    destruct (recorded_spec msg w p data Hh Hgood Hdata)
      as (Hh' & Hgood' & Hdata' & Hcount' & _ & Hcfg & _).
    pose proof (size_nonneg data) as Hdata0.
    assert (Hbound : Str.size data <= 2 ^ 63).
    { destruct Hlimit as [?|(m & Hm & ->)]; [lia|].
      rewrite size_app. change (Str.size _) with 1 at 2.
      specialize (Hsent m Hm). lia. }
    rewrite Z.geb_leb in Hroom. apply Z.leb_gt in Hroom.
    rewrite Hcount in Hroom, Hcount'. unfold wrap64 in Hroom, Hcount'.
    rewrite Z.mod_small in Hroom by lia.
    rewrite (Z.mod_small (Str.size msg + 1)) in Hcount' by lia.
    rewrite Z.mod_small in Hcount' by lia.
    unfold size_kept. rewrite Hh'. split; [exact Hgood'|].
    eexists. split; [exact Hdata'|].
    destruct Hcfg as (_ & _ & _ & ->).
    rewrite !size_app. change (Str.size "
") with 1. split; [lia|]. left. lia.
  - destruct (open_new_file clock (checked msg w)) as [[[]|e|] w2] eqn:Hnew; simpl.
    + destruct (open_new_file_true clock _ w2 Hopen Hnew)
        as (p & made & fs & _ & _ & _ & Hh & Hgood & Hdata & Hcount & _).
      destruct (recorded_spec msg w2 p "" Hh Hgood Hdata)
        as (Hh' & Hgood' & Hdata' & Hcount' & _).
      unfold size_kept. rewrite Hh'. split; [exact Hgood'|].
      eexists. split; [exact Hdata'|]. split.
      * rewrite Hcount', Hcount. unfold wrap64.
        rewrite (Z.mod_small (Str.size msg + 1)) by lia.
        rewrite Z.mod_small by lia.
        rewrite !size_app. change (Str.size "
") with 1. change (Str.size "") with 0. lia.
      * right. exists msg. split; [exact Hmsg|reflexivity].
    + apply (open_new_file_not_open clock _ _ _ Hopen) in Hnew as [Hc _];
        [|discriminate].
      unfold size_kept. unfold Ofstream.is_open in Hc.
      now destruct (Ofstream.handle (file_ (sink w2))).
    + apply (open_new_file_not_open clock _ _ _ Hopen) in Hnew as [Hc _];
        [|discriminate].
      unfold size_kept. unfold Ofstream.is_open in Hc.
      now destruct (Ofstream.handle (file_ (sink w2))).
    + apply (open_new_file_not_open clock _ _ _ Hopen) in Hnew as [Hc _];
        [|discriminate].
      unfold size_kept. unfold Ofstream.is_open in Hc.
      now destruct (Ofstream.handle (file_ (sink w2))).
Qed.

(** X7 ([consume], the rotation size as a limit): after any run of calls
    on a newly constructed sink, the file that is open holds at most
    [rotation_size] bytes, unless it holds exactly one record, which then
    may be of any length.  (Rotation size and records below 2^63 bytes, so
    that the 64-bit counter does not wrap.) *)
Theorem file_size_limit (target_path : path) (file_name_suffix : string)
    (rotation_size : Z) (auto_flush : bool) (fs : Fs.node) (calls : list call)
    (Hrot : rotation_size < 2 ^ 63)
    (Hmsgs : Forall (fun m => Str.size m < 2 ^ 63) (messages calls)) :
  let w' := (consume_all calls
               {| sink := cilog_backend_new target_path file_name_suffix
                            rotation_size auto_flush;
                  disk := fs |}).2 in
  forall data,
    Ofstream.written (file_ (sink w')) (disk w') = Some data ->
    Str.size data <= rotation_size
    \/ exists m, m ∈ messages calls /\ data = m +:+ String "010" "".
Proof.
  intros w' data Hdata.
  set (sent := fun m : string => m ∈ messages calls).
  assert (Hinv : rotation_size_ (sink w') = rotation_size /\ size_kept sent w').
  { apply (consume_all_invariant
             (fun w => rotation_size_ (sink w) = rotation_size /\ size_kept sent w)
             sent).
    - intros clock rec msg w Hmsg [Hr Hk]. split.
      + destruct (consume_config clock rec msg w) as (_ & _ & _ & ->). exact Hr.
      + apply consume_size_kept; try assumption; [|lia].
        intros m Hm. revert m Hm. now apply Forall_forall.
    - apply Forall_forall. auto.
    - split; [reflexivity|exact I]. }
  destruct Hinv as [Hr Hk]. unfold size_kept in Hk.
  unfold Ofstream.written in Hdata.
  destruct (Ofstream.handle (file_ (sink w'))) as [p|] eqn:Hh; [|discriminate].
  destruct Hk as (_ & data' & Hdata' & _ & Hlimit).
  unfold Ofstream.written in Hdata'. rewrite Hh in Hdata'.
  rewrite Hdata in Hdata'. injection Hdata' as <-. now rewrite <- Hr.
Qed.

Lemma file_size_limit_witness :
  let long := "BBBBBBBBBBBBBBBBBBBBBBBBBBBBBBBBBBBBBBBBBBBBBBBBBBBBBBBBBBBBBBBB" in
  let calls := [(Example.at_ Example.jan1, Example.stamped Example.jan1, "AAAA");
                (Example.at_ Example.jan1, Example.stamped Example.jan1, long)] in
  Str.size (long +:+ String "010" "") <= 50
  \/ exists m, m ∈ messages calls /\ long +:+ String "010" "" = m +:+ String "010" "".
Proof.
  intros long calls.
  apply (file_size_limit Example.target "svc" 50 true Example.empty_log calls);
    [lia | repeat constructor | vm_compute; reflexivity].
Defined.

(** ** The files that a call touches *)

Lemma append_frame p bytes fs fs' q :
  Fs.append p bytes fs = Some fs' -> q <> p ->
  Fs.contents q fs' = Fs.contents q fs.
Proof.
  intros Happ Hq.
  assert (exists data, Fs.contents p fs = Some data) as [data Hdata].
  { unfold Fs.append in Happ. unfold Fs.contents.
    destruct (Fs.lookup p fs) as [[data wr|]|]; try discriminate. now exists data. }
  destruct (append_contents p bytes fs data Hdata) as (fs'' & Happ' & _ & Hother & _).
  rewrite Happ in Happ'. injection Happ' as <-. now apply Hother.
Qed.

Lemma rotated_frame w q :
  Ofstream.handle (file_ (sink w)) <> Some q ->
  Fs.contents q (disk (rotated w)) = Fs.contents q (disk w).
Proof.
  unfold rotated, Ofstream.close. intros Hq.
  destruct (Ofstream.handle (file_ (sink w))) as [p|]; [|reflexivity].
  destruct (Fs.append p _ (disk w)) as [fs'|] eqn:Happ; [|reflexivity].
  simpl. apply (append_frame _ _ _ _ _ Happ). congruence.
Qed.

Lemma recorded_handle msg w :
  Ofstream.handle (file_ (sink (recorded msg w))) = Ofstream.handle (file_ (sink w)).
Proof.
  unfold recorded, Ofstream.put, Ofstream.flush, Ofstream.write, Ofstream.good.
  destruct (file_ (sink w)) as [[p|] pend [] []]; simpl;
    destruct (auto_flush_ (sink w)); simpl; try reflexivity.
  destruct (Fs.append _ _ _); reflexivity.
Qed.

Lemma recorded_frame msg w q :
  Ofstream.handle (file_ (sink w)) <> Some q ->
  Fs.contents q (disk (recorded msg w)) = Fs.contents q (disk w).
Proof.
  unfold recorded, Ofstream.put, Ofstream.flush, Ofstream.write, Ofstream.good.
  destruct (file_ (sink w)) as [[p|] pend [] []]; simpl;
    destruct (auto_flush_ (sink w)); simpl; try reflexivity.
  intros Hq. destruct (Fs.append _ _ _) as [fs'|] eqn:Happ; [|reflexivity].
  simpl. apply (append_frame _ _ _ _ _ Happ). congruence.
Qed.

(** X8 ([consume] and the rest of the directory tree): a call changes the
    bytes of no file but the one that was open when it began and the one
    that is open when it ends, whether it returns or throws.  Directories
    may be created; no other file is written, truncated or removed. *)
Theorem consume_touches_own_files (clock : readings) (rec : record_view)
    (formatted_message : string) (w : world) (q : path)
    (Hbefore : Ofstream.handle (file_ (sink w)) <> Some q)
    (Hafter : Ofstream.handle
                (file_ (sink (consume clock rec formatted_message w).2)) <> Some q) :
  Fs.contents q (disk (consume clock rec formatted_message w).2)
  = Fs.contents q (disk w).
Proof.
  revert Hafter. rewrite consume_eq. cbv zeta.
  assert (Hchecked : Fs.contents q (disk (checked formatted_message w))
                     = Fs.contents q (disk w)).
  { unfold checked. destruct (must_rotate _ _); [now apply rotated_frame|reflexivity]. }
  destruct (Ofstream.is_open (file_ (sink (checked formatted_message w)))) eqn:Hopen.
  - simpl. rewrite recorded_handle. intros Hafter.
    rewrite recorded_frame by exact Hafter. exact Hchecked.
  - destruct (open_new_file clock (checked formatted_message w))
      as [[[]|e|] w2] eqn:Hnew; simpl.
    + rewrite recorded_handle. intros Hafter.
      rewrite recorded_frame by exact Hafter.
      destruct (open_new_file_true clock _ w2 Hopen Hnew)
        as (p & made & fs & _ & Hdirs & Hout & Hh & _).
      destruct (open_out_spec p fs (disk w2) Hout) as [_ Hother].
      rewrite Hother by congruence.
      rewrite <- Hchecked.
      rewrite <- (create_directories_contents (Fs.parent_path p) q
                    (disk (checked formatted_message w))).
      now rewrite Hdirs.
    + intros _.
      apply (open_new_file_not_open clock _ _ _ Hopen) in Hnew as [_ Hsame];
        [|discriminate].
      now rewrite Hsame.
    + intros _.
      apply (open_new_file_not_open clock _ _ _ Hopen) in Hnew as [_ Hsame];
        [|discriminate].
      now rewrite Hsame.
    + intros _.
      apply (open_new_file_not_open clock _ _ _ Hopen) in Hnew as [_ Hsame];
        [|discriminate].
      now rewrite Hsame.
Qed.

Lemma consume_touches_own_files_witness :
  let w := Example.fresh Example.svc
             (Example.january [("2024-01-01_svc.log", Example.file "old
")]) in
  let q := ["var"; "log"; "2024-01"; "2024-01-01_svc.log"] in
  Fs.contents q
    (disk (consume (Example.at_ Example.jan1) (Example.stamped Example.jan1) "AAAA" w).2)
  = Fs.contents q (disk w).
Proof.
  intros w q.
  apply (consume_touches_own_files (Example.at_ Example.jan1)
           (Example.stamped Example.jan1) "AAAA" w q);
    vm_compute; discriminate.
Defined.

(** ** Flushing *)

Lemma recorded_flushed msg w p :
  auto_flush_ (sink w) = true ->
  Ofstream.handle (file_ (sink (recorded msg w))) = Some p ->
  Ofstream.good (file_ (sink (recorded msg w))) = true ->
  Ofstream.pending (file_ (sink (recorded msg w))) = ""
  /\ exists data,
       Fs.contents p (disk (recorded msg w)) = Some (data +:+ msg +:+ String "010" "").
Proof.
  unfold recorded, Ofstream.put, Ofstream.flush, Ofstream.write, Ofstream.good.
  intros ->.
  destruct (file_ (sink w)) as [[p0|] pend [] []]; simpl; try discriminate.
  destruct (Fs.append p0 _ (disk w)) as [fs'|] eqn:Happ; simpl; [|discriminate].
  intros [= <-] _. split; [reflexivity|].
  unfold Fs.append in Happ. unfold Fs.contents.
  destruct (Fs.lookup p0 (disk w)) as [[data wr|]|] eqn:Hl; try discriminate.
  injection Happ as <-.
  rewrite lookup_put_present by (rewrite Hl; eauto).
  exists (data +:+ pend). now rewrite !append_assoc.
Qed.

(** X9 ([consume] with [auto_flush_] set): when a call returns with the
    stream open and good, nothing is left in the stream buffer and the
    file on disk ends with the record and its line feed. *)
Theorem flushed_record_on_disk (clock : readings) (rec : record_view)
    (formatted_message : string) (w w' : world) (p : path)
    (Hflush : auto_flush_ (sink w) = true)
    (Hrun : consume clock rec formatted_message w = (Ret tt, w'))
    (Hopen : Ofstream.handle (file_ (sink w')) = Some p)
    (Hgood : Ofstream.good (file_ (sink w')) = true) :
  Ofstream.pending (file_ (sink w')) = ""
  /\ exists data,
       Fs.contents p (disk w')
       = Some (data +:+ formatted_message +:+ String "010" "").
Proof.
  revert Hrun. rewrite consume_eq. cbv zeta.
  destruct (checked_same_config formatted_message w) as (Hflush1 & _).
  rewrite Hflush in Hflush1.
  destruct (Ofstream.is_open (file_ (sink (checked formatted_message w)))) eqn:Hc.
  - intros [= <-]. now apply recorded_flushed.
  - destruct (open_new_file clock (checked formatted_message w))
      as [[[]|e|] w2] eqn:Hnew; try discriminate.
    + intros [= <-].
      destruct (open_new_file_config clock (checked formatted_message w))
        as (Hflush2 & _).
      rewrite Hnew in Hflush2. simpl in Hflush2. rewrite Hflush1 in Hflush2.
      now apply recorded_flushed.
    + intros [= <-]. apply open_new_file_false in Hnew.
      unfold Ofstream.is_open in Hnew. now rewrite Hopen in Hnew.
Qed.

Lemma flushed_record_on_disk_witness :
  let w' := Example.after
              (consume (Example.at_ Example.jan1) (Example.stamped Example.jan1) "BB")
              Example.svc_open in
  Ofstream.pending (file_ (sink w')) = ""
  /\ exists data,
       Fs.contents ["var"; "log"; "2024-01"; "2024-01-01_svc.log"] (disk w')
       = Some (data +:+ "BB" +:+ String "010" "").
Proof.
  apply (flushed_record_on_disk (Example.at_ Example.jan1)
           (Example.stamped Example.jan1) "BB" Example.svc_open);
    vm_compute; reflexivity.
Defined.

(** ** One file after the other *)

Lemma lookup_put_new q c v fs r wr es :
  Fs.lookup q fs = Some (Fs.Dir r wr es) -> es !! c = None ->
  Fs.lookup q (Fs.put (q ++ [c]) v fs) = Some (Fs.Dir r wr (<[c := v]> es)).
Proof.
  revert fs. induction q as [|a q IH]; intros fs; simpl.
  - intros [= ->] Hc. now rewrite Hc.
  - destruct fs as [|r0 w0 es0]; [discriminate|].
    destruct (es0 !! a) as [m|] eqn:Ha; [|discriminate].
    intros Hq Hc. simpl. rewrite lookup_insert_eq. now apply IH.
Qed.

Lemma forallb_all_chars ok s : forallb ok (list_ascii_of_string s) = all_chars ok s.
Proof. induction s as [|c s IH]; simpl; [reflexivity|now rewrite IH]. Qed.

(** Whether a name that [generate_filepath] builds is an element of a
    path depends on the suffix alone. *)
Lemma element_ok_build prefix n suffix :
  all_chars date_char prefix = true -> prefix <> "" -> 0 <= n ->
  Fs.element_ok (build_filename prefix n suffix) = all_chars element_char suffix.
Proof.
  intros Hpre Hne Hn. unfold Fs.element_ok. rewrite forallb_all_chars.
  fold element_char.
  assert (Hdate : forall c, date_char c = true -> element_char c = true).
  { intros c Hc. unfold element_char.
    destruct (date_char_cases c Hc) as (_ & _ & -> & -> & _). reflexivity. }
  assert (Hhead : negb (String.eqb (build_filename prefix n suffix) "")
                  && negb (String.eqb (build_filename prefix n suffix) ".")
                  && negb (String.eqb (build_filename prefix n suffix) "..") = true).
  { unfold build_filename. destruct prefix as [|d prefix]; [contradiction|].
    simpl in Hpre. apply andb_prop in Hpre as [Hd _].
    destruct (date_char_cases d Hd) as (_ & _ & _ & _ & _ & Hdot & _).
    simpl. now rewrite Hdot. }
  rewrite Hhead. simpl andb.
  unfold build_filename. rewrite !all_chars_app.
  rewrite (all_chars_impl _ _ _ Hdate Hpre).
  assert (Hidx : all_chars element_char
                   (if n >? 0 then "[" +:+ Str.decimal n +:+ "]" else "") = true).
  { destruct (n >? 0); [|reflexivity].
    simpl String.append. cbn [all_chars]. rewrite all_chars_app.
    rewrite (all_chars_impl _ _ _
               (fun c Hc => Hdate c (isdigit_date_char c Hc)) (decimal_digits n Hn)).
    reflexivity. }
  rewrite Hidx. simpl. now rewrite andb_true_r.
Qed.

(** When [generate_filepath] returns, and what. *)
Lemma generate_filepath_ret clock w p :
  generate_filepath clock w = (Ret p, w) <->
  exists pattern n,
    Fs.element_ok (datetime_string_with_format (second_read clock) "%Y-%m") = true
    /\ Regex.compile
         (datetime_string_with_format (first_read clock) "%Y-%m-%d"
          +:+ "[\[\]0-9]*" +:+ "_" +:+ file_name_suffix_ (sink w) +:+ ".log")
       = Some pattern
    /\ scan_next_index (monthly_path (sink w) clock) pattern w = (Ret n, w)
    /\ Fs.element_ok
         (build_filename (datetime_string_with_format (first_read clock) "%Y-%m-%d")
            n (file_name_suffix_ (sink w))) = true
    /\ p = monthly_path (sink w) clock
           ++ [build_filename
                 (datetime_string_with_format (first_read clock) "%Y-%m-%d")
                 n (file_name_suffix_ (sink w))].
Proof.
  unfold generate_filepath, mbind, M_bind, this, modelled, Fs.div.
  fold (monthly_path (sink w) clock).
  destruct (Fs.element_ok (datetime_string_with_format (second_read clock) "%Y-%m"))
    eqn:Hmonth.
  2: { split; [discriminate|]. intros (? & ? & ? & _). discriminate. }
  fold (monthly_path (sink w) clock).
  destruct (Regex.compile _) as [pattern|] eqn:Hpat.
  2: { split; [discriminate|]. intros (? & ? & _ & ? & _). discriminate. }
  split.
  - destruct (scan_next_index (monthly_path (sink w) clock) pattern w)
      as [[n|e|] w1] eqn:Hscan; try discriminate.
    assert (w1 = w) as ->.
    { rewrite scan_next_index_eq in Hscan.
      destruct (Fs.is_directory _ _); [|congruence].
      destruct (Fs.directory_entries _ _); congruence. }
    destruct (Fs.element_ok (build_filename _ n _)) eqn:Hok; [|discriminate].
    intros [= <-]. exists pattern, n. auto.
  - intros (pattern' & n & _ & [= <-] & Hscan & Hok & ->).
    rewrite Hscan, Hok. reflexivity.
Qed.

Lemma foldr_max_base indices n0 :
  0 <= n0 ->
  foldr (fun i acc => Z.max acc (i + 1)) n0 indices
  = Z.max n0 (foldr (fun i acc => Z.max acc (i + 1)) 0 indices).
Proof. intros Hn. induction indices as [|i indices IH]; simpl; lia. Qed.

(** X10 ([generate_filepath] after the file it named has been created):
    for a suffix without special characters, once the file at the path
    that [generate_filepath] returned has been created in its monthly
    directory, the next call for the same clock readings returns the
    name with the index one higher; the first file of a day, which has
    no index, is followed by index 1. *)
Theorem indices_consecutive (clock : readings) (w : world) (p : path) (fs' : Fs.node)
    (Hplain : plain_suffix (file_name_suffix_ (sink w)) = true)
    (Hroom : index_headroom (monthly_path (sink w) clock) (disk w) = true)
    (Hpath : generate_filepath clock w = (Ret p, w))
    (Hopen : Fs.open_out p (disk w) = Some fs') :
  exists n,
    p = monthly_path (sink w) clock
        ++ [build_filename (datetime_string_with_format (first_read clock) "%Y-%m-%d")
              n (file_name_suffix_ (sink w))]
    /\ generate_filepath clock (later w fs')
       = (Ret (monthly_path (sink w) clock
               ++ [build_filename
                     (datetime_string_with_format (first_read clock) "%Y-%m-%d")
                     (n + 1) (file_name_suffix_ (sink w))]),
          later w fs').
Proof.
  pose proof (generate_filepath_fresh clock w p w Hplain Hroom Hpath) as Hnone.
  apply generate_filepath_ret in Hpath as (pattern & n & Hmonth & Hpat & Hscan & Hok & Hp).
  set (prefix := datetime_string_with_format (first_read clock) "%Y-%m-%d") in *.
  set (suffix := file_name_suffix_ (sink w)) in *.
  set (monthly := monthly_path (sink w) clock) in *.
  assert (Hdate : all_chars date_char prefix = true) by apply day_format_chars.
  assert (Hsize : Str.size prefix = 10) by apply day_format_size.
  exists n. split; [exact Hp|].
  rewrite (compile_filename_pattern prefix suffix Hdate Hplain) in Hpat.
  injection Hpat as <-.
  (* the directory before and after *)
  assert (Hdir : exists r es, Fs.lookup monthly (disk w) = Some (Fs.Dir r true es)
                              /\ fs' = Fs.put p (Fs.File "" true) (disk w)).
  { unfold Fs.open_out in Hopen. rewrite Hnone in Hopen.
    assert (Hparent : Fs.parent_path p = monthly)
      by (rewrite Hp; apply parent_path_snoc).
    destruct p as [|a p0]; [discriminate|]. rewrite Hparent in Hopen.
    destruct (Fs.lookup monthly (disk w)) as [[|r [] es]|]; try discriminate.
    injection Hopen as <-. now exists r, es. }
  destruct Hdir as (r & es & Hdir & ->).
  assert (Hname : es !! build_filename prefix n suffix = None).
  { destruct (es !! build_filename prefix n suffix) as [x|] eqn:Hx; [|reflexivity].
    assert (Fs.lookup p (disk w) = Some x) as Hsome; [|congruence].
    rewrite Hp. apply lookup_snoc. eauto. }
  rewrite scan_next_index_eq in Hscan.
  unfold Fs.is_directory, Fs.directory_entries in Hscan. rewrite Hdir in Hscan.
  destruct r; [|discriminate]. injection Hscan as Hn.
  set (entries := (fun e : string * Fs.node => monthly ++ [e.1]) <$> map_to_list es) in *.
  assert (Hbound : 0 <= n <= 2 ^ 31 - 1).
  { rewrite <- Hn. apply scan_entries_upper; [lia|].
    apply (index_headroom_entries monthly (disk w)); [exact Hroom|].
    unfold Fs.directory_entries. now rewrite Hdir. }
  apply generate_filepath_ret.
  exists [filename_pattern prefix suffix], (n + 1).
  split; [exact Hmonth|].
  split; [now apply compile_filename_pattern|].
  split.
  - rewrite scan_next_index_eq. cbn [later disk sink].
    fold monthly. unfold Fs.is_directory, Fs.directory_entries.
    rewrite Hp. rewrite (lookup_put_new monthly _ _ _ true true es Hdir Hname).
    f_equal. f_equal.
    rewrite (scan_entries_order _ _
               ((monthly ++ [build_filename prefix n suffix]) :: entries)).
    2: { unfold entries.
         change (monthly ++ [build_filename prefix n suffix])
           with ((fun e : string * Fs.node => monthly ++ [e.1])
                   (build_filename prefix n suffix, Fs.File "" true)).
         rewrite <- fmap_cons. apply fmap_Permutation.
         now apply map_to_list_insert. }
    rewrite scan_entries_cons, filename_snoc, scan_step_max.
    rewrite built_name_matches by lia.
    rewrite parse_index_built by (assumption || lia).
    rewrite scan_entries_max, foldr_max_base by lia.
    rewrite <- scan_entries_max, Hn. lia.
  - cbn [later sink]. fold prefix suffix monthly.
    split; [|reflexivity].
    rewrite element_ok_build in Hok |- *; try assumption; try lia.
    + intros ->. discriminate Hsize.
    + intros ->. discriminate Hsize.
Qed.

Lemma indices_consecutive_witness :
  exists n,
    ["var"; "log"; "2024-01"; "2024-01-01[2]_app.log"]
    = monthly_path (sink Example.two_app_files) (Example.at_ Example.jan1)
      ++ [build_filename
            (datetime_string_with_format (first_read (Example.at_ Example.jan1))
               "%Y-%m-%d")
            n (file_name_suffix_ (sink Example.two_app_files))]
    /\ generate_filepath (Example.at_ Example.jan1)
         (later Example.two_app_files
            (Example.january [("2024-01-01_app.log", Example.file "");
                              ("2024-01-01[1]_app.log", Example.file "");
                              ("2024-01-01[2]_app.log", Example.file "")]))
       = (Ret (monthly_path (sink Example.two_app_files) (Example.at_ Example.jan1)
               ++ [build_filename
                     (datetime_string_with_format
                        (first_read (Example.at_ Example.jan1)) "%Y-%m-%d")
                     (n + 1) (file_name_suffix_ (sink Example.two_app_files))]),
          later Example.two_app_files
            (Example.january [("2024-01-01_app.log", Example.file "");
                              ("2024-01-01[1]_app.log", Example.file "");
                              ("2024-01-01[2]_app.log", Example.file "")])).
Proof.
  apply (indices_consecutive (Example.at_ Example.jan1) Example.two_app_files);
    vm_compute; reflexivity.
Defined.

(** ** The two readings of the clock *)

Lemma prefix_app_size s s' t :
  String.length s = String.length s' ->
  String.prefix s (s' +:+ t) = true <-> s = s'.
Proof.
  revert s'. induction s as [|a s IH]; intros [|b s']; simpl; try discriminate.
  - intros _. split; intros _; [reflexivity|now destruct t].
  - intros [= Hlen]. destruct (ascii_dec a b) as [->|Hab].
    + rewrite (IH s' Hlen). split; [now intros ->|now intros [= ->]].
    + split; [discriminate|]. intros [= ? _]. contradiction.
Qed.

Lemma month_format_size t : Str.size (datetime_string_with_format t "%Y-%m") = 7.
Proof. reflexivity. Qed.

(** X11 ([generate_filepath] and its two calls of
    [datetime_string_with_format]): the name of the file begins with the
    name of the monthly directory it is put in exactly when the two
    readings of the clock fall in the same month.  A month that ends
    between the readings puts the file of the last day of the old month
    into the directory of the new one. *)
Theorem file_in_its_month (clock : readings) (w w' : world) (p : path)
    (Hrun : generate_filepath clock w = (Ret p, w')) :
  String.prefix (Fs.filename (Fs.parent_path p)) (Fs.filename p) = true
  <-> month_of (first_read clock) = month_of (second_read clock).
Proof.
  apply generate_filepath_eq in Hrun as (_ & pattern & n & _ & _ & ->).
  rewrite parent_path_snoc, filename_snoc. unfold monthly_path.
  rewrite filename_snoc.
  assert (Hname : exists rest,
            build_filename (datetime_string_with_format (first_read clock) "%Y-%m-%d")
              n (file_name_suffix_ (sink w))
            = datetime_string_with_format (first_read clock) "%Y-%m" +:+ rest).
  { unfold build_filename. rewrite day_format, month_format. eexists.
    rewrite !append_assoc. reflexivity. }
  destruct Hname as [rest ->].
  rewrite prefix_app_size.
  - split.
    + intros H. symmetry. now apply month_format_inj.
    + unfold month_of. intros [= Hy Hm]. rewrite !month_format. now rewrite Hy, Hm.
  - pose proof (month_format_size (first_read clock)) as H1.
    pose proof (month_format_size (second_read clock)) as H2.
    unfold Str.size in H1, H2. lia.
Qed.

Lemma file_in_its_month_witness :
  String.prefix
    (Fs.filename (Fs.parent_path ["var"; "log"; "2024-02"; "2024-01-31_svc.log"]))
    (Fs.filename ["var"; "log"; "2024-02"; "2024-01-31_svc.log"]) = true
  <-> month_of Example.jan31 = month_of Example.feb1.
Proof.
  apply (file_in_its_month
           {| first_read := Example.jan31; second_read := Example.feb1 |}
           (Example.fresh Example.svc Example.empty_log)
           (Example.fresh Example.svc Example.empty_log)).
  vm_compute. reflexivity.
Defined.

(** ** The severity level as text *)

Lemma decimal_value n : 0 <= n < 10 ^ 20 -> Str.digits_acc (Str.decimal n) 0 = n.
Proof.
  intros Hn. rewrite <- (append_nil_r (Str.decimal n)). unfold Str.decimal.
  now rewrite digits_acc_decimal_aux.
Qed.

Lemma decimal_inj n n' :
  0 <= n < 10 ^ 20 -> 0 <= n' < 10 ^ 20 -> Str.decimal n = Str.decimal n' -> n = n'.
Proof.
  intros Hn Hn' H. rewrite <- (decimal_value n Hn), <- (decimal_value n' Hn').
  now rewrite H.
Qed.

Lemma put_level_label level :
  0 <= level < 10 ->
  Severity.put_level level = nth (Z.to_nat level) Severity.strings "".
Proof.
  intros H. unfold Severity.put_level, wrap64. rewrite Z.mod_small by lia.
  destruct (Z.ltb_spec level (Z.of_nat (List.length Severity.strings))) as [_|Hge];
    [reflexivity|]. simpl in Hge. lia.
Qed.

Lemma put_level_number level :
  10 <= level < 2 ^ 31 -> Severity.put_level level = Str.decimal level.
Proof.
  intros H. unfold Severity.put_level, wrap64, to_int, Severity.put_int.
  rewrite (Z.mod_small level) by lia.
  destruct (Z.ltb_spec level (Z.of_nat (List.length Severity.strings))) as [Hlt|_];
    [simpl in Hlt; lia|].
  rewrite (Z.mod_small (level + 2 ^ 31)) by lia.
  replace (level + 2 ^ 31 - 2 ^ 31) with level by lia.
  destruct (Z.ltb_spec level 0); [lia|reflexivity].
Qed.

Lemma label_not_number level n :
  0 <= level < 10 -> 0 <= n -> Severity.put_level level <> Str.decimal n.
Proof.
  intros Hl Hn H. rewrite put_level_label in H by exact Hl.
  destruct (decimal_aux_head 19 n "" Hn) as (d & s & Hd & Hdigit).
  unfold Str.decimal in H. rewrite Hd in H.
  assert (Hcases : level = 0 \/ level = 1 \/ level = 2 \/ level = 3 \/ level = 4
                   \/ level = 5 \/ level = 6 \/ level = 7 \/ level = 8 \/ level = 9)
    by lia.
  repeat (destruct Hcases as [->|Hcases]); try subst level;
    injection H as <- _; discriminate Hdigit.
Qed.

(** X12 ([operator<<] for [severity_level]): distinct levels are written
    as distinct texts: the ten enumerators as their ten labels, any other
    value that is a non-negative [int] as its decimal digits, and no
    label is a number. *)
Theorem severity_text_injective (level level' : Z)
    (Hlevel : 0 <= level < 2 ^ 31) (Hlevel' : 0 <= level' < 2 ^ 31)
    (Htext : Severity.put_level level = Severity.put_level level') :
  level = level'.
Proof.
  destruct (Z.lt_ge_cases level 10) as [Hl|Hl];
    destruct (Z.lt_ge_cases level' 10) as [Hl'|Hl'].
  - rewrite !put_level_label in Htext by lia.
    assert (Hc : level = 0 \/ level = 1 \/ level = 2 \/ level = 3 \/ level = 4
                 \/ level = 5 \/ level = 6 \/ level = 7 \/ level = 8 \/ level = 9)
      by lia.
    assert (Hc' : level' = 0 \/ level' = 1 \/ level' = 2 \/ level' = 3 \/ level' = 4
                  \/ level' = 5 \/ level' = 6 \/ level' = 7 \/ level' = 8
                  \/ level' = 9)
      by lia.
    repeat (destruct Hc as [->|Hc]); try subst level;
      repeat (destruct Hc' as [->|Hc']); try subst level';
      first [reflexivity | discriminate Htext].
  - rewrite (put_level_number level') in Htext by lia.
    exfalso. apply (label_not_number level level'); [lia | lia | exact Htext].
  - rewrite (put_level_number level) in Htext by lia.
    exfalso. apply (label_not_number level' level); [lia | lia | now symmetry].
  - rewrite !put_level_number in Htext by lia.
    apply decimal_inj in Htext; [exact Htext | lia | lia].
Qed.

Lemma severity_text_injective_witness :
  Severity.put_level Severity.warning = "Warning"
  /\ Severity.put_level 42 = "42"
  /\ Severity.error = Severity.error.
Proof.
  split; [reflexivity|]. split; [reflexivity|].
  apply (severity_text_injective Severity.error Severity.error);
    [vm_compute; split; [discriminate|reflexivity] ..| reflexivity].
Defined.

(** ** The line of a record *)

Lemma cut_at_comma f f' x x' :
  no_comma f = true -> no_comma f' = true ->
  f +:+ String "," x = f' +:+ String "," x' -> f = f' /\ x = x'.
Proof.
  unfold no_comma. revert f'.
  induction f as [|a f IH]; intros [|b f']; simpl.
  - intros _ _ [= ->]. now split.
  - intros _ [Hb _]%andb_prop [= <- _]. discriminate Hb.
  - intros [Ha _]%andb_prop _ [= -> _]. discriminate Ha.
  - intros [_ Hf]%andb_prop [_ Hf']%andb_prop [= -> H].
    destruct (IH f' Hf Hf' H) as [-> ->]. now split.
Qed.

Lemma put_int_digits n :
  all_chars (fun c => Str.isdigit c || Ascii.eqb c "-") (Severity.put_int n) = true.
Proof.
  unfold Severity.put_int. destruct (Z.ltb_spec n 0).
  - cbn [all_chars]. simpl orb. simpl andb.
    apply (all_chars_impl Str.isdigit); [intros c ->; reflexivity|].
    apply decimal_digits. lia.
  - apply (all_chars_impl Str.isdigit); [intros c ->; reflexivity|].
    now apply decimal_digits.
Qed.

(** The text of a level, whatever the level, has no comma. *)
Lemma put_level_no_comma level : no_comma (Severity.put_level level) = true.
Proof.
  unfold Severity.put_level.
  destruct (wrap64 level <? _).
  - assert (H : Forall (fun s => no_comma s = true) Severity.strings)
      by (repeat constructor).
    destruct (nth_in_or_default (Z.to_nat level) Severity.strings "") as [Hin| ->];
      [|reflexivity].
    rewrite Forall_forall in H. apply H. now apply list_elem_of_In.
  - generalize (put_int_digits (to_int level)). apply all_chars_impl.
    intros c. destruct c as [[] [] [] [] [] [] [] []]; try discriminate; reflexivity.
Qed.

Lemma second_bounds t : 0 <= second_of_day t < 86400.
Proof.
  pose proof (ptime_ok t) as H.
  apply andb_prop in H as [H H2]. apply andb_prop in H as [_ H1]. lia.
Qed.

Lemma microsecond_bounds t : 0 <= microsecond t < 1000000.
Proof. pose proof (timestamp_ok t) as H. apply andb_prop in H as [H1 H2]. lia. Qed.

Lemma digits6_inj n n' :
  0 <= n < 1000000 -> 0 <= n' < 1000000 -> digits6 n = digits6 n' -> n = n'.
Proof.
  intros Hn Hn'. unfold digits6. intros H.
  apply (app_inv_size (Clock.digits2 _) (Clock.digits2 _)) in H as [H1 H2];
    [|reflexivity].
  apply digits2_inj in H1;
    [|split; [apply Z.div_pos; lia | apply Z.div_lt_upper_bound; lia] ..].
  apply digits4_inj in H2; [|apply Z.mod_pos_bound; lia ..].
  rewrite (Z.div_mod n 10000), (Z.div_mod n' 10000) by lia. lia.
Qed.

Lemma string_cons_inv a b s t : String a s = String b t -> a = b /\ s = t.
Proof. intros H. now injection H. Qed.

Lemma clock_text_eq t :
  clock_text t =
    Clock.digits2 (second_of_day (instant t) / 3600)
    +:+ String ":"
          (Clock.digits2 (second_of_day (instant t) / 60 mod 60)
           +:+ String ":"
                 (Clock.digits2 (second_of_day (instant t) mod 60)
                  +:+ String "." (digits6 (microsecond t)))).
Proof.
  unfold clock_text. cbn [format_date_time Ascii.eqb Bool.eqb].
  rewrite ?append_nil_r. reflexivity.
Qed.

(** The time stamp as [init] has it formatted. *)
Lemma stamp_format t :
  format_date_time "%Y-%m-%d,%H:%M:%S.%f" t =
    datetime_string_with_format (instant t) "%Y-%m-%d" +:+ String "," (clock_text t).
Proof.
  rewrite day_format, clock_text_eq. cbn [format_date_time Ascii.eqb Bool.eqb].
  rewrite ?append_nil_r, !append_assoc. reflexivity.
Qed.

Lemma clock_text_no_comma t : no_comma (clock_text t) = true.
Proof.
  rewrite clock_text_eq.
  assert (H2 : forall n, no_comma (Clock.digits2 n) = true).
  { intros n. generalize (digits2_digits n). apply all_chars_impl.
    intros c. destruct c as [[] [] [] [] [] [] [] []]; try discriminate; reflexivity. }
  assert (H4 : forall n, no_comma (Clock.digits4 n) = true).
  { intros n. generalize (digits4_digits n). apply all_chars_impl.
    intros c. destruct c as [[] [] [] [] [] [] [] []]; try discriminate; reflexivity. }
  unfold no_comma in *. unfold digits6.
  repeat (rewrite all_chars_app || cbn [all_chars]).
  rewrite !H2, H4. reflexivity.
Qed.

Lemma clock_text_inj t t' :
  clock_text t = clock_text t' ->
  second_of_day (instant t) = second_of_day (instant t')
  /\ microsecond t = microsecond t'.
Proof.
  rewrite !clock_text_eq.
  pose proof (second_bounds (instant t)) as Hs.
  pose proof (second_bounds (instant t')) as Hs'.
  set (s := second_of_day (instant t)) in *.
  set (s' := second_of_day (instant t')) in *.
  intros H.
  apply (app_inv_size (Clock.digits2 _) (Clock.digits2 _)) in H as [Hh H];
    [|reflexivity].
  apply string_cons_inv in H as [_ H].
  apply (app_inv_size (Clock.digits2 _) (Clock.digits2 _)) in H as [Hm H];
    [|reflexivity].
  apply string_cons_inv in H as [_ H].
  apply (app_inv_size (Clock.digits2 _) (Clock.digits2 _)) in H as [Hsec H];
    [|reflexivity].
  apply string_cons_inv in H as [_ H].
  apply digits2_inj in Hh;
    [|split; [apply Z.div_pos; lia | apply Z.div_lt_upper_bound; lia] ..].
  pose proof (Z.mod_pos_bound (s / 60) 60). pose proof (Z.mod_pos_bound (s' / 60) 60).
  pose proof (Z.mod_pos_bound s 60). pose proof (Z.mod_pos_bound s' 60).
  apply digits2_inj in Hm; [|lia ..].
  apply digits2_inj in Hsec; [|lia ..].
  apply digits6_inj in H; [|apply microsecond_bounds ..].
  split; [|exact H].
  rewrite (Z.div_mod s 60), (Z.div_mod s' 60) by lia.
  rewrite (Z.div_mod (s / 60) 60), (Z.div_mod (s' / 60) 60) by lia.
  rewrite !Z.div_div by lia. change (60 * 60) with 3600. lia.
Qed.

(** X13 (the formatter set by [init]): a line determines the record it
    was made from.  When the application name and version have no comma,
    two records that are formatted to the same line agree in name and
    version, in the date, the second of the day and the microsecond of
    the time stamp, in the text of the severity and in the message. *)
Theorem formatter_injective (app_name app_version app_name' app_version' : string)
    (r r' : log_record)
    (Hname : no_comma app_name = true) (Hversion : no_comma app_version = true)
    (Hname' : no_comma app_name' = true) (Hversion' : no_comma app_version' = true)
    (Hline : formatter app_name app_version r = formatter app_name' app_version' r') :
  app_name = app_name' /\ app_version = app_version'
  /\ date_of (instant (record_time r)) = date_of (instant (record_time r'))
  /\ second_of_day (instant (record_time r)) = second_of_day (instant (record_time r'))
  /\ microsecond (record_time r) = microsecond (record_time r')
  /\ Severity.put_level (record_severity r) = Severity.put_level (record_severity r')
  /\ smessage r = smessage r'.
Proof.
  unfold formatter in Hline. rewrite !stamp_format in Hline.
  change ("," +:+ ?x) with (String "," x) in Hline.
  apply cut_at_comma in Hline as [-> Hline]; [|assumption ..].
  apply cut_at_comma in Hline as [-> Hline]; [|assumption ..].
  split; [reflexivity|]. split; [reflexivity|].
  rewrite !append_assoc in Hline.
  apply app_inv_size in Hline as [Hdate Hline]; [|now rewrite !day_format_size].
  apply day_format_inj in Hdate. split; [exact Hdate|].
  cbn [String.append] in Hline. apply string_cons_inv in Hline as [_ Hline].
  apply cut_at_comma in Hline as [Hclock Hline]; [|apply clock_text_no_comma ..].
  apply clock_text_inj in Hclock as [Hsecond Hmicro].
  apply cut_at_comma in Hline as [Hsev Hmsg]; [|apply put_level_no_comma ..].
  tauto.
Qed.

Lemma formatter_injective_witness :
  let r := {| record_time := {| instant := Example.jan1; microsecond := 250000;
                                timestamp_ok := eq_refl |};
              record_severity := Severity.warning;
              smessage := "disk, nearly full" |} in
  formatter "svc" "1.0" r = "svc,1.0,2024-01-01,00:01:40.250000,Warning,disk, nearly full"
  /\ smessage r = smessage r.
Proof.
  intros r. split; [reflexivity|].
  apply (formatter_injective "svc" "1.0" "svc" "1.0" r r); reflexivity.
Defined.

(** ** The records of a file *)

(** X14 ([consume], the contents of the open file): when a run of calls on
    a newly constructed sink returns with a file open, that file holds
    the last records of the run, whole, in the order of the calls, each
    followed by a line feed, and nothing else; the record of the last
    call is among them. *)
Theorem open_file_holds_last_records (target_path : path) (file_name_suffix : string)
    (rotation_size : Z) (auto_flush : bool) (fs : Fs.node) (calls : list call)
    (w' : world)
    (Hrun : consume_all calls
              {| sink := cilog_backend_new target_path file_name_suffix
                           rotation_size auto_flush;
                 disk := fs |} = (Ret tt, w'))
    (Hopen : Ofstream.is_open (file_ (sink w')) = true) :
  exists before tail,
    messages calls = before ++ tail /\ tail <> []
    /\ Ofstream.written (file_ (sink w')) (disk w') = Some (lines tail).
Proof.
  revert w' Hrun Hopen.
  induction calls as [|[[clock rec] msg] calls IH] using rev_ind; intros w' Hrun Hopen.
  - injection Hrun as <-. discriminate Hopen.
  - rewrite consume_all_app in Hrun.
    destruct (consume_all calls _) as [[[]|e|] w1] eqn:Hfirst; try discriminate.
    rewrite consume_all_one in Hrun.
    unfold messages. rewrite fmap_app. fold (messages calls). cbn [fmap list_fmap snd].
    destruct (opens_new_file msg w1) eqn:Hnew.
    + destruct (consume_fresh clock rec msg w1 w' Hnew Hrun Hopen) as (w2 & Hopen2 & ->).
      assert (Hclosed : Ofstream.is_open (file_ (sink (checked msg w1))) = false)
        by (rewrite checked_open, Hnew; reflexivity).
      destruct (open_new_file_true clock _ w2 Hclosed Hopen2)
        as (p & made & fs2 & _ & _ & _ & Hh & Hgood & Hdata & _).
      destruct (recorded_spec msg w2 p "" Hh Hgood Hdata) as (_ & _ & Hdata' & _).
      exists (messages calls), [msg].
      split; [reflexivity|]. split; [discriminate|]. exact Hdata'.
    + destruct (steady_good msg w1 Hnew) as (Hchecked & Hopen1 & Hgood & _).
      rewrite consume_eq in Hrun. cbv zeta in Hrun.
      rewrite Hchecked, Hopen1 in Hrun. injection Hrun as <-.
      destruct (IH w1 eq_refl Hopen1) as (before & tail & Hmsgs & _ & Hdata).
      unfold Ofstream.is_open in Hopen1.
      destruct (Ofstream.handle (file_ (sink w1))) as [p|] eqn:Hh; [|discriminate].
      destruct (recorded_spec msg w1 p _ Hh Hgood Hdata) as (_ & _ & Hdata' & _).
      exists before, (tail ++ [msg]).
      split; [rewrite Hmsgs; now rewrite <- List.app_assoc|].
      split; [now destruct tail|].
      rewrite Hdata'. f_equal. rewrite lines_app. reflexivity.
Qed.

Lemma open_file_holds_last_records_witness :
  let long := "BBBBBBBBBBBBBBBBBBBBBBBBBBBBBBBBBBBBBBBBBBBBBBBBBBBBBBBBBBBBBBBB" in
  let calls := [(Example.at_ Example.jan1, Example.stamped Example.jan1, "AAAA");
                (Example.at_ Example.jan1, Example.stamped Example.jan1, long);
                (Example.at_ Example.jan1, Example.stamped Example.jan1, "CC")] in
  exists before tail,
    messages calls = before ++ tail /\ tail <> []
    /\ Fs.contents ["var"; "log"; "2024-01"; "2024-01-01[2]_svc.log"]
         (disk (consume_all calls (Example.fresh Example.svc Example.empty_log)).2)
       = Some (lines tail).
Proof.
  intros long calls.
  destruct (open_file_holds_last_records Example.target "svc" 50 true Example.empty_log
              calls (consume_all calls (Example.fresh Example.svc Example.empty_log)).2)
    as (before & tail & H1 & H2 & H3); [vm_compute; reflexivity ..|].
  exists before, tail. split; [exact H1|]. split; [exact H2|].
  rewrite <- H3. vm_compute. reflexivity.
Defined.

(** ** The front of a message *)

Lemma no_comma_app s t : no_comma (s +:+ t) = no_comma s && no_comma t.
Proof. apply all_chars_app. Qed.

Lemma put_int_no_comma n : no_comma (Severity.put_int n) = true.
Proof.
  generalize (put_int_digits n). apply all_chars_impl.
  intros c. destruct c as [[] [] [] [] [] [] [] []]; try discriminate; reflexivity.
Qed.

(** X15 (the macro [CILOG]): the text that the caller streams after the
    macro can be told from what the macro puts before it: when the name of
    the source file and the name of the function have no comma, the
    first two commas of a message are the pair that ends the location,
    so that two messages that are equal have the same location and the
    same text. *)
Theorem cilog_text_follows_location (file file' : path) (function function' : string)
    (line line' : Z) (text text' : string)
    (Hfile : no_comma (Fs.filename file) = true)
    (Hfunction : no_comma function = true)
    (Hfile' : no_comma (Fs.filename file') = true)
    (Hfunction' : no_comma function' = true)
    (Hmessage : CILOG file function line +:+ text
                = CILOG file' function' line' +:+ text') :
  Fs.filename file +:+ "::" +:+ function +:+ ":" +:+ Severity.put_int line
  = Fs.filename file' +:+ "::" +:+ function' +:+ ":" +:+ Severity.put_int line'
  /\ text = text'.
Proof.
  unfold CILOG in Hmessage.
  assert (Hshape : forall f fn l x,
            (f +:+ "::" +:+ fn +:+ ":" +:+ Severity.put_int l +:+ ",,") +:+ x
            = (f +:+ "::" +:+ fn +:+ ":" +:+ Severity.put_int l)
              +:+ String "," (String "," x)).
  { intros f fn l x. rewrite !append_assoc. reflexivity. }
  rewrite !Hshape in Hmessage.
  apply cut_at_comma in Hmessage as [Hloc Htext].
  - split; [exact Hloc|]. now apply string_cons_inv in Htext as [_ ->].
  - rewrite !no_comma_app, Hfile, Hfunction, put_int_no_comma. reflexivity.
  - rewrite !no_comma_app, Hfile', Hfunction', put_int_no_comma. reflexivity.
Qed.

Lemma cilog_text_follows_location_witness :
  CILOG ["src"; "main.cpp"] "run" 42 +:+ "started, 3 workers"
  = "main.cpp::run:42,,started, 3 workers"
  /\ "started, 3 workers" = "started, 3 workers".
Proof.
  split; [reflexivity|].
  apply (cilog_text_follows_location ["src"; "main.cpp"] ["src"; "main.cpp"]
           "run" "run" 42 42); reflexivity.
Defined.
